(** * The binary-network engine of the AIMAS PRO API server (api/index.js)

    A shallow embedding of the placement, aggregation and claim code of
    [api/index.js]: [conectarUpline], [binariV2], [hacerTakeProfit],
    [lecturaBinari], the sweep [escalarRedV2], and the [consultarUsuario],
    [crearUsuario] and [actualizarUsuario] they call.

    The collection.  [binari_system] is an ordered list of documents: [find]
    answers in collection order and the tie-break of [conectarUpline] reads
    [ubication[0]], so the order is part of the behaviour.  A document has the
    shape [crearUsuario] writes, every field of it defined.  [upTo] and
    [lastUpdate], which the engine never reads, are left out.

    The ledger.  The contract is a record of read calls, each of which may
    reject, and of the two outcomes of the settlement transaction.

    Effects.  Every [async function] is a computation in a state-and-exception
    monad over the collection and the in-memory index [binarioindexado].  A
    call the source does not await is run to completion where it is launched,
    its result and its error dropped.

    Numbers.  The collection stores points and amounts as decimal strings that
    hold whole ledger units (the contract's uint256 values); they are embedded
    as [Z], on which BigNumber's [plus], [minus] and [times] are exact and
    [dp(0)] changes nothing.  The only quotient that is not whole, the 10/100
    of [retirableBinario], is rounded by [dp(0)] in BigNumber's default mode
    (ROUND_HALF_UP).

    JavaScript numbers.  The code compares amounts after [toNumber()], takes
    the smaller leg of [retirableBinario] as a JavaScript number and builds a
    BigNumber from it again, and stores [idBlock], [hand] and [retirableA] as
    numbers.  A JavaScript number is a binary64 double: [toNumber] is the
    whole number rounded to 53 significant bits, a tie going to the even
    significand, and [deNumber] is the decimal the number prints as, which is
    what [new BigNumber(number)] reads.  [parseInt] of the digits of a whole
    number rounds in the same way, and [parseIntNumber], [parseInt] of a
    number, reads the digits the number prints as.  Whole numbers up to
    [MAX_SAFE_INTEGER] pass through all of them unchanged.  The doubles are taken to
    be finite: magnitudes from 2^1024 on, where a double is infinite, are far
    beyond any amount of ledger units. *)

From Stdlib Require Import ZArith List String Ascii Bool Lia.
Import ListNotations.
Local Open Scope Z_scope.

(** ** Constants *)

Definition WalletVacia : string := "0x0000000000000000000000000000000000000000".
Definition factorPuntos : Z := 100.

(** ** Strings *)

Definition lower_ascii (c : ascii) : ascii :=
  let n := nat_of_ascii c in
  if andb (Nat.leb 65 n) (Nat.leb n 90) then ascii_of_nat (n + 32) else c.

Fixpoint toLowerCase (s : string) : string :=
  match s with
  | EmptyString => EmptyString
  | String c r => String (lower_ascii c) (toLowerCase r)
  end.

(** [error.indexOf(pat) >= 0] *)
Definition includes (pat e : string) : bool :=
  match String.index 0 pat e with Some _ => true | None => false end.

(** ** BigNumber arithmetic on whole numbers *)

(** [Number.MAX_SAFE_INTEGER] *)
Definition MAX_SAFE_INTEGER : Z := 2 ^ 53 - 1.

(** The nearest double to a whole [n >= 0]: [n] itself below 2^53; above, [n]
    rounded to a multiple of [2^e], [e] leaving a significand of 53 bits, to
    the nearest one and on a tie to the one with the even significand. *)
Definition redondear (n : Z) : Z :=
  if n <? 2 ^ 53 then n
  else
    let e := Z.log2 n - 52 in
    let q := n / 2 ^ e in
    let r := n mod 2 ^ e in
    let medio := 2 ^ (e - 1) in
    (if orb (r <? medio) (andb (r =? medio) (Z.even q)) then q else q + 1) * 2 ^ e.

(** [x.toNumber()] for a whole [x]: the value of the double it gives. *)
Definition toNumber (x : Z) : Z := Z.sgn x * redondear (Z.abs x).

(** [parseInt(s)] for the decimal digits of a whole number. *)
Definition parseInt (x : Z) : Z := toNumber x.

(** [String(d)] for a double [d > 0], as a number: of the decimals with the
    fewest significant digits that read back as [d], the one nearest to [d].
    The search goes down from the multiples of [10^e]: the first power of ten
    that has such a multiple among the two that enclose [d] gives the fewest
    digits. *)
Fixpoint masCorto (d : Z) (e : nat) : Z :=
  let p := 10 ^ Z.of_nat e in
  let lo := d / p * p in
  let hi := lo + p in
  match e with
  | O => d
  | S e' =>
      match toNumber lo =? d, toNumber hi =? d with
      | true, true =>
          if d - lo <? hi - d then lo
          else if hi - d <? d - lo then hi
          else if Z.even (d / p) then lo else hi
      | true, false => lo
      | false, true => hi
      | false, false => masCorto d e'
      end
  end.

(** Whether a remainder [r] over a half [medio] rounds the significand [q] up. *)
Definition sube (r medio q : Z) : bool :=
  negb (orb (r <? medio) (andb (r =? medio) (Z.even q))).

(** [new BigNumber(d)] for a JavaScript number [d]: BigNumber reads the
    decimal [String(d)]. *)
Definition deNumber (d : Z) : Z :=
  Z.sgn d * masCorto (Z.abs d) (S (Z.to_nat (Z.log2 (Z.abs d)))).

(** The first digit of the decimal of [n >= 0]. *)
Fixpoint primerDigito (fuel : nat) (n : Z) : Z :=
  match fuel with
  | O => n
  | S fuel' => if n <? 10 then n else primerDigito fuel' (n / 10)
  end.

(** [parseInt(d)] for a JavaScript number [d]: [parseInt] reads the digits
    that [String(d)] starts with.  Below 10^21 the number prints all its
    digits, and they read back as [d]; from 10^21 on it prints one digit, then
    a fraction and an exponent, and [parseInt] stops after that digit. *)
Definition parseIntNumber (d : Z) : Z :=
  if Z.abs d <? 10 ^ 21 then d
  else Z.sgn d * primerDigito (Z.to_nat (Z.log2 (Z.abs d))) (deNumber (Z.abs d)).

(** [x.dividedBy(d).dp(0)] for whole [x] and positive [d]: the quotient rounded
    to the nearest integer, a tie going away from zero. *)
Definition div_dp0 (x d : Z) : Z :=
  Z.sgn x * ((2 * Z.abs x + d) / (2 * d)).

(** ** Documents of the [binari_system] collection

    The fields the engine reads or writes.  [hand] and [retirableA] are absent
    from a freshly created document. *)

Record Binario : Type := mkBinario {
  wallet : string;
  registered : bool;
  invested : Z;
  invested_leader : Z;
  referer : string;
  up : string;
  left : string;
  lReclamados : Z;
  lExtra : Z;
  lPersonas : Z;
  lPuntos : Z;
  right : string;
  rReclamados : Z;
  rExtra : Z;
  rPersonas : Z;
  rPuntos : Z;
  idBlock : Z;
  idBlock_old : Z;
  puntosActivos : Z;
  hand : option Z;
  retirableA : option Z
}.

(** One assignment [field: value] of an update document. *)
Inductive Campo : Type :=
| c_registered (b : bool)
| c_invested (v : Z)
| c_invested_leader (v : Z)
| c_referer (w : string)
| c_up (w : string)
| c_left (w : string)
| c_lReclamados (v : Z)
| c_lPersonas (v : Z)
| c_lPuntos (v : Z)
| c_right (w : string)
| c_rReclamados (v : Z)
| c_rPersonas (v : Z)
| c_rPuntos (v : Z)
| c_idBlock (v : Z)
| c_puntosActivos (v : Z)
| c_hand (v : Z)
| c_retirableA (v : Z).

Definition setCampo (c : Campo) (u : Binario) : Binario :=
  let '(mkBinario w rg iv il rf p l lr le lp lt r rr re rp rt ib io pa h ra) := u in
  match c with
  | c_registered b => mkBinario w b iv il rf p l lr le lp lt r rr re rp rt ib io pa h ra
  | c_invested v => mkBinario w rg v il rf p l lr le lp lt r rr re rp rt ib io pa h ra
  | c_invested_leader v => mkBinario w rg iv v rf p l lr le lp lt r rr re rp rt ib io pa h ra
  | c_referer x => mkBinario w rg iv il x p l lr le lp lt r rr re rp rt ib io pa h ra
  | c_up x => mkBinario w rg iv il rf x l lr le lp lt r rr re rp rt ib io pa h ra
  | c_left x => mkBinario w rg iv il rf p x lr le lp lt r rr re rp rt ib io pa h ra
  | c_lReclamados v => mkBinario w rg iv il rf p l v le lp lt r rr re rp rt ib io pa h ra
  | c_lPersonas v => mkBinario w rg iv il rf p l lr le v lt r rr re rp rt ib io pa h ra
  | c_lPuntos v => mkBinario w rg iv il rf p l lr le lp v r rr re rp rt ib io pa h ra
  | c_right x => mkBinario w rg iv il rf p l lr le lp lt x rr re rp rt ib io pa h ra
  | c_rReclamados v => mkBinario w rg iv il rf p l lr le lp lt r v re rp rt ib io pa h ra
  | c_rPersonas v => mkBinario w rg iv il rf p l lr le lp lt r rr re v rt ib io pa h ra
  | c_rPuntos v => mkBinario w rg iv il rf p l lr le lp lt r rr re rp v ib io pa h ra
  | c_idBlock v => mkBinario w rg iv il rf p l lr le lp lt r rr re rp rt v io pa h ra
  | c_puntosActivos v => mkBinario w rg iv il rf p l lr le lp lt r rr re rp rt ib io v h ra
  | c_hand v => mkBinario w rg iv il rf p l lr le lp lt r rr re rp rt ib io pa (Some v) ra
  | c_retirableA v => mkBinario w rg iv il rf p l lr le lp lt r rr re rp rt ib io pa h (Some v)
  end.

(** An update document ([newUser] in the source): its assignments in the order
    they were made. *)
Definition Update : Type := list Campo.

Definition aplicar (upd : Update) (u : Binario) : Binario :=
  fold_left (fun acc c => setCampo c acc) upd u.

(** ** The process state: the collection and the in-memory index *)

Record Estado : Type := mkEstado {
  binario : list Binario;
  binarioindexado : list (string * option Binario)
}.

Definition es_wallet (w : string) (u : Binario) : bool := String.eqb (wallet u) w.

(** ** The ledger contract: read calls that may reject ([None]) *)

Record Investor : Type := mkInvestor {
  inv_registered : bool;
  inv_invested : Z
}.

Record Deposito : Type := mkDeposito {
  valor : Z;
  pasivo : bool;
  factor : Z
}.

Inductive Envio : Type :=
| Minado (transactionHash : string)
| Rechazado (e : string).

Module methods.

Record Contrato : Type := mkContrato {
  investors : string -> option Investor;
  verListaDepositos : string -> option (list Deposito);
  addressToId : string -> option Z;
  upline : string -> option (string * Z);
  porcent : option Z;
  retirableA : string -> option Z;
  corteBinarioDo_estimateGas : string -> Z -> Z -> Z -> option Z;
  corteBinarioDo_send : string -> Z -> Z -> Z -> Envio
}.

End methods.

(** ** The monad of [async] functions: state and thrown errors *)

Inductive Res (A : Type) : Type :=
| Ok (a : A)
| Throw (e : string).
Arguments Ok {A} a.
Arguments Throw {A} e.

Definition M (A : Type) : Type := Estado -> Res A * Estado.

Definition ret {A} (a : A) : M A := fun s => (Ok a, s).

Definition bind {A B} (m : M A) (k : A -> M B) : M B :=
  fun s => match m s with
           | (Ok a, s') => k a s'
           | (Throw e, s') => (Throw e, s')
           end.

Definition throw {A} (e : string) : M A := fun s => (Throw e, s).

Notation "x <- m ;; k" := (bind m (fun x => k))
  (at level 61, m at next level, right associativity).
Notation "m ;;; k" := (bind m (fun _ => k))
  (at level 61, right associativity).

(** [await] of a contract call. *)
Definition call {A} (r : option A) : M A :=
  match r with Some a => ret a | None => throw "call rejected" end.

(** A call that is not awaited: its effects on the state happen, its result and
    any error it throws are dropped.  It is run to completion where it is
    launched. *)
Definition sin_await {A} (m : M A) : M unit :=
  fun s => (Ok tt, snd (m s)).

(** *** The collection's operations *)

Definition get_binario : M (list Binario) := fun s => (Ok (binario s), s).

Definition findOne (w : string) : M (option Binario) :=
  fun s => (Ok (find (es_wallet w) (binario s)), s).

Definition find_por (campo : Binario -> string) (w : string) : M (list Binario) :=
  fun s => (Ok (filter (fun u => String.eqb (campo u) w) (binario s)), s).

Fixpoint update_first (w : string) (upd : Update) (l : list Binario) : list Binario :=
  match l with
  | [] => []
  | u :: r => if es_wallet w u then aplicar upd u :: r else u :: update_first w upd r
  end.

Definition updateOne (w : string) (upd : Update) : M unit :=
  fun s => (Ok tt, mkEstado (update_first w upd (binario s)) (binarioindexado s)).

Definition save (u : Binario) : M unit :=
  fun s => (Ok tt, mkEstado (binario s ++ [u]) (binarioindexado s)).

(** [binarioindexado[from] = userTemp] *)
Fixpoint indexar (w : string) (u : option Binario)
    (ix : list (string * option Binario)) : list (string * option Binario) :=
  match ix with
  | [] => [(w, u)]
  | (k, v) :: r => if String.eqb k w then (w, u) :: r else (k, v) :: indexar w u r
  end.

Definition set_indexado (w : string) (u : option Binario) : M unit :=
  fun s => (Ok tt, mkEstado (binario s) (indexar w u (binarioindexado s))).

(** ** The two legs of a node *)

Inductive Lado : Type := izquierda | derecha.

Definition otro (l : Lado) : Lado :=
  match l with izquierda => derecha | derecha => izquierda end.

Definition hijo (l : Lado) (u : Binario) : string :=
  match l with izquierda => left u | derecha => right u end.
Definition puntos (l : Lado) (u : Binario) : Z :=
  match l with izquierda => lPuntos u | derecha => rPuntos u end.
Definition personas (l : Lado) (u : Binario) : Z :=
  match l with izquierda => lPersonas u | derecha => rPersonas u end.
Definition reclamados (l : Lado) (u : Binario) : Z :=
  match l with izquierda => lReclamados u | derecha => rReclamados u end.
Definition extra (l : Lado) (u : Binario) : Z :=
  match l with izquierda => lExtra u | derecha => rExtra u end.

Definition c_hijo (l : Lado) (w : string) : Campo :=
  match l with izquierda => c_left w | derecha => c_right w end.
Definition c_puntos (l : Lado) (v : Z) : Campo :=
  match l with izquierda => c_lPuntos v | derecha => c_rPuntos v end.
Definition c_personas (l : Lado) (v : Z) : Campo :=
  match l with izquierda => c_lPersonas v | derecha => c_rPersonas v end.

(** [{ left: WalletVacia, lPuntos: "0" }], respectively the right one. *)
Definition soltar (l : Lado) : Update := [c_hijo l WalletVacia; c_puntos l 0].

(** ** The claimable amount *)

Definition retirableBinario (puntosA puntosB : Z) : Z :=
  let puntosA := toNumber puntosA in
  let puntosB := toNumber puntosB in
  let amount := if puntosA <=? puntosB then puntosA else puntosB in
  div_dp0 (deNumber amount * 10) 100.

(** [new BigNumber(user.lPuntos).minus(user.lReclamados).plus(user.lExtra).dp(0)] *)
Definition puntosLado (l : Lado) (user : Binario) : Z :=
  puntos l user - reclamados l user + extra l user.

(** ** The engine, over a fixed ledger *)

Section Motor.

Variable contrato : methods.Contrato.

(** The deposit loop of [crearUsuario]: passive deposits add to [invertido], the
    others to [leader]. *)
Definition sumarDepositos (depositos : list Deposito) : Z * Z :=
  fold_left (fun acc d =>
               if pasivo d then (fst acc + valor d, snd acc)
               else (fst acc, snd acc + valor d))
            depositos (0, 0).

(** The deposit loop of [actualizarUsuario], whose test is [pasivo || true]. *)
Definition sumarDepositosTodos (depositos : list Deposito) : Z * Z :=
  fold_left (fun acc d =>
               if orb (pasivo d) true then (fst acc + valor d, snd acc)
               else (fst acc, snd acc + valor d))
            depositos (0, 0).

(** [try { investorNew = await contrato.methods.investors(from).call() } catch {}]
    over the initial [{ registered: false }]. *)
Definition leerInvestor (from : string) : Investor :=
  match methods.investors contrato from with
  | Some i => i
  | None => mkInvestor false 0
  end.

Definition crearUsuario (from : string) : M (option Binario) :=
  let from := toLowerCase from in
  let investorNew := leerInvestor from in
  let invertidoReal := 0 in
  montos <- (if inv_registered investorNew then
               depositos <- call (methods.verListaDepositos contrato from) ;;
               let invertido := fst (sumarDepositos depositos) in
               let leader := snd (sumarDepositos depositos) in
               ret (if 0 <? toNumber leader
                    then (if toNumber invertidoReal <? toNumber invertido
                          then invertido else invertidoReal)
                    else inv_invested investorNew,
                    leader)
             else ret (invertidoReal, 0)) ;;
  userTemp <- findOne from ;;
  match userTemp with
  | None =>
      let newUser :=
        {| wallet := from; registered := false;
           invested := fst montos; invested_leader := snd montos;
           referer := WalletVacia; up := WalletVacia;
           left := WalletVacia; lReclamados := 0; lExtra := 0;
           right := WalletVacia; rReclamados := 0; rExtra := 0;
           lPuntos := 0; rPuntos := 0; lPersonas := 0; rPersonas := 0;
           idBlock := 0; idBlock_old := 0; puntosActivos := 0;
           hand := None; retirableA := None |} in
      newUser <- (if inv_registered investorNew then
                    id <- call (methods.addressToId contrato from) ;;
                    consulta <- call (methods.upline contrato from) ;;
                    ret (aplicar [c_registered true; c_idBlock (parseInt id);
                                  c_referer (toLowerCase (fst consulta))] newUser)
                  else ret newUser) ;;
      userTemp <- findOne from ;;
      match userTemp with
      | None => save newUser
      | Some _ => ret tt
      end ;;;
      ret (Some newUser)
  | Some _ =>
      updateOne from [c_invested_leader (snd montos); c_invested (fst montos)] ;;;
      findOne from
  end.

(** Every caller passes [{}] as [data], so the four [data.*] branches are not
    taken; the stored point fields are never falsy, so neither are the four
    [!userTemp.*] ones. *)
Definition actualizarUsuario (from : string) : M bool :=
  let from := toLowerCase from in
  userTemp <- findOne from ;;
  match userTemp with
  | None => ret false
  | Some userTemp =>
      let investorNew := leerInvestor from in
      _porcentaje <- call (methods.porcent contrato) ;;
      cambios <- (if inv_registered investorNew then
                    let realInvested := inv_invested investorNew in
                    id <- call (methods.addressToId contrato from) ;;
                    consulta <- call (methods.upline contrato from) ;;
                    let hand := parseInt (snd consulta) in
                    depositos <- call (methods.verListaDepositos contrato from) ;;
                    let invertido := fst (sumarDepositosTodos depositos) in
                    let leader := snd (sumarDepositosTodos depositos) in
                    let realInvested :=
                      if 0 <? toNumber leader
                      then (if toNumber realInvested <? toNumber invertido
                            then invertido else realInvested)
                      else inv_invested investorNew in
                    ra <- call (methods.retirableA contrato from) ;;
                    ret ([c_idBlock (parseInt id); c_registered true; c_hand hand]
                         ++ (if andb (hand <=? 1) (String.eqb (referer userTemp) WalletVacia)
                             then [c_referer (toLowerCase (fst consulta))] else [])
                         ++ [c_retirableA (toNumber ra);
                             c_invested realInvested; c_invested_leader leader])
                  else ret [c_registered false; c_invested 0; c_invested_leader 0]) ;;
      updateOne from cambios ;;;
      ret true
  end.

(** What [consultarUsuario] returns: the literal [{}] or the document read. *)
Inductive Consulta : Type :=
| objeto_vacio
| usuario (userTemp : option Binario).

(** [consultarUsuario] up to its [conectarUp] block; this is the whole function
    for the calls that leave [conectarUp] undefined, among them the ones
    [conectarUpline] makes. *)
Definition consultarUsuario0 (from : string) (agregateBinario updateInfoBlockchain : bool)
  : M Consulta :=
  let from := toLowerCase from in
  if String.eqb from "0x0000000000000000000000000000000000000000" then ret objeto_vacio
  else
    (if updateInfoBlockchain then actualizarUsuario from ;;; ret tt else ret tt) ;;;
    userTemp <- findOne from ;;
    userTemp <- match userTemp with
                | None => crearUsuario from
                | Some u => ret (Some u)
                end ;;
    (if agregateBinario then set_indexado from userTemp else ret tt) ;;;
    ret (usuario userTemp).

(** The [while (accion === 0)] walk down one side.  It ends within one step per
    document of the collection plus one, which is the fuel [conectarLado] gives
    it; the value returned is [accion]. *)
Fixpoint ubicar (l : Lado) (fuel : nat) (from buscando : string) (lista : list string)
  : M Z :=
  match fuel with
  | O => throw "fuel"
  | S fuel =>
      userRef <- findOne buscando ;;
      match userRef with
      | None =>
          match l with
          | izquierda => throw "TypeError: userRef is null"
          | derecha => sin_await (consultarUsuario0 buscando false false) ;;; ret 4
          end
      | Some userRef =>
          let visto := match l with izquierda => wallet userRef | derecha => buscando end in
          if String.eqb (hijo l userRef) from then
            updateOne from [c_up (wallet userRef)] ;;; ret 1
          else if andb (String.eqb (hijo l userRef) WalletVacia)
                       (negb (String.eqb (wallet userRef) from)) then
            updateOne (wallet userRef) [c_hijo l from] ;;;
            updateOne from [c_up (wallet userRef)] ;;; ret 2
          else if negb (existsb (String.eqb visto) lista) then
            ubicar l fuel from (hijo l userRef) (lista ++ [visto])
          else
            updateOne visto (soltar l) ;;; ret 5
      end
  end.

(** The first loop over [ubication]: the index of the lowest non-zero
    [idBlock] below [ubication[0].idBlock], else 0. *)
Fixpoint elegirGanador (ubication : list Binario) (index : nat) (menor : Z) (ganador : nat)
  : nat :=
  match ubication with
  | [] => ganador
  | u :: r =>
      if andb (negb (idBlock u =? 0)) (idBlock u <? menor)
      then elegirGanador r (S index) (idBlock u) index
      else elegirGanador r (S index) menor ganador
  end.

(** The second loop over [ubication]: one update per index other than
    [ganador], each addressed to [ubication[ganador].wallet]. *)
Fixpoint soltarOtros (l : Lado) (ubication : list Binario) (index ganador : nat)
    (wganador : string) : M unit :=
  match ubication with
  | [] => ret tt
  | _ :: r =>
      (if negb (Nat.eqb index ganador) then updateOne wganador (soltar l) else ret tt) ;;;
      soltarOtros l r (S index) ganador wganador
  end.

(** The loop over [adverso]. *)
Fixpoint soltarAdversos (l : Lado) (adverso : list Binario) : M unit :=
  match adverso with
  | [] => ret tt
  | a :: r => updateOne (wallet a) (soltar l) ;;; soltarAdversos l r
  end.

(** The body of [if (parseInt(hand) === 0)], and of [=== 1] for the right. *)
Definition conectarLado (l : Lado) (from referer : string) (userTemp : Binario) : M unit :=
  ubication <- find_por (hijo l) from ;;
  match ubication with
  | [] =>
      todos <- get_binario ;;
      ubicar l (S (List.length todos)) from referer [] ;;; ret tt
  | [u] =>
      if negb (String.eqb (up userTemp) (wallet u))
      then updateOne from [c_up (wallet u)] else ret tt
  | u0 :: _ =>
      let ganador := elegirGanador ubication 0 (idBlock u0) 0 in
      let wganador := wallet (nth ganador ubication u0) in
      updateOne from [c_up wganador] ;;;
      soltarOtros l ubication 0 ganador wganador
  end ;;;
  adverso <- find_por (hijo (otro l)) from ;;
  soltarAdversos (otro l) adverso.

Definition conectarUpline (from : string) : M bool :=
  let from := toLowerCase from in
  userTemp <- findOne from ;;
  match userTemp with
  | None => ret false
  | Some userTemp =>
      match methods.upline contrato from with
      | None => ret false
      | Some consulta =>
          let hand := parseInt (snd consulta) in
          let referer_ := toLowerCase (fst consulta) in
          userRef <- findOne referer_ ;;
          result <- match userRef with
                    | Some _ =>
                        newUser <-
                          (if negb (String.eqb referer_ WalletVacia) then
                             (if andb (negb (String.eqb (referer userTemp) WalletVacia))
                                      (String.eqb (up userTemp) WalletVacia) then
                                (if parseIntNumber hand =? 0
                                 then conectarLado izquierda from referer_ userTemp
                                 else ret tt) ;;;
                                (if parseIntNumber hand =? 1
                                 then conectarLado derecha from referer_ userTemp
                                 else ret tt)
                              else ret tt) ;;;
                             ret ([c_referer referer_]
                                  ++ (if String.eqb (up userTemp) (wallet userTemp)
                                      then [c_up WalletVacia] else []))
                           else ret []) ;;
                        updateOne from newUser ;;;
                        consultarUsuario0 from true false ;;;
                        ret false
                    | None =>
                        (if negb (String.eqb referer_ WalletVacia)
                         then sin_await (consultarUsuario0 referer_ true true)
                         else ret tt) ;;;
                        ret true
                    end ;;
          userTemp <- findOne from ;;
          match userTemp with
          | None => throw "TypeError: userTemp is null"
          | Some _ => ret result
          end
      end
  end.

Definition consultarUsuario (from : string)
    (agregateBinario updateInfoBlockchain conectarUp : bool) : M Consulta :=
  r <- consultarUsuario0 from agregateBinario updateInfoBlockchain ;;
  match r with
  | objeto_vacio => ret objeto_vacio
  | usuario userTemp =>
      if conectarUp then
        conectarUpline (toLowerCase from) ;;;
        userTemp <- findOne (toLowerCase from) ;;
        ret (usuario userTemp)
      else ret (usuario userTemp)
  end.

(** One leg of [binariV2]: the assignments it adds to [newUser]. *)
Definition agregarLado (l : Lado) (userTemp : Binario) : M Update :=
  if negb (String.eqb (hijo l userTemp) WalletVacia) then
    consultarUsuario (hijo l userTemp) false true false ;;;
    uhijo <- findOne (hijo l userTemp) ;;
    match uhijo with
    | Some uhijo =>
        let puntosH := (0 + invested uhijo) * factorPuntos / 100 in
        let puntosH := puntosH + lPuntos uhijo + rPuntos uhijo in
        let personasH := 0 + 1 + lPersonas uhijo + rPersonas uhijo in
        ret ((if toNumber (puntos l userTemp) <? toNumber puntosH
              then [c_puntos l puntosH] else [])
             ++ (if toNumber (personas l userTemp) <? toNumber personasH
                 then [c_personas l personasH] else []))
    | None => ret []
    end
  else ret [c_puntos l 0; c_personas l 0].

Definition binariV2 (wallet_ : string) : M bool :=
  let wallet_ := toLowerCase wallet_ in
  userTemp <- findOne wallet_ ;;
  newUser <- match userTemp with
             | Some u =>
                 izq <- agregarLado izquierda u ;;
                 der <- agregarLado derecha u ;;
                 ret (izq ++ der)
             | None =>
                 sin_await (consultarUsuario wallet_ true true true) ;;; ret []
             end ;;
  updateOne wallet_ newUser ;;;
  match userTemp with
  | Some _ =>
      userTemp <- findOne wallet_ ;;
      match userTemp with
      | None => throw "TypeError: userTemp is null"
      | Some u =>
          let pL := lPuntos u + lExtra u - lReclamados u in
          let pR := rPuntos u + rExtra u - rReclamados u in
          updateOne wallet_ [c_puntosActivos (if toNumber pL <? toNumber pR then pL else pR)]
      end
  | None => ret tt
  end ;;;
  ret true.

(** [.sort({ idBlock: -1 })]: by [idBlock], highest first, documents with the
    same [idBlock] staying in collection order. *)
Fixpoint insertar (u : Binario) (lista : list Binario) : list Binario :=
  match lista with
  | [] => [u]
  | x :: r => if idBlock x <=? idBlock u then u :: x :: r else x :: insertar u r
  end.

Definition ordenar (lista : list Binario) : list Binario :=
  fold_right insertar [] lista.

(** The loop of [escalarRedV2] over [lista2]. *)
Fixpoint recorrer (lista2 : list Binario) : M unit :=
  match lista2 with
  | [] => ret tt
  | u :: r =>
      conectarUpline (wallet u) ;;;
      binariV2 (wallet u) ;;;
      recorrer r
  end.

Definition escalarRedV2 : M unit :=
  todos <- get_binario ;;
  recorrer (ordenar todos).

(** The object [hacerTakeProfit] resolves to. *)
Record Resultado : Type := mkResultado {
  result : bool;
  error : option bool;
  hash : option string;
  message : option string
}.

(** The twelve [rangoReclamado] reads catch their own errors and their values
    are not used; they are left out. *)
Definition hacerTakeProfit (wallet_ : string) : M Resultado :=
  let wallet_ := toLowerCase wallet_ in
  user <- findOne wallet_ ;;
  match user with
  | None => throw "TypeError: user is null"
  | Some user =>
      let puntosL := puntosLado izquierda user in
      let puntosR := puntosLado derecha user in
      let puntosReclamados :=
        if toNumber puntosL <=? toNumber puntosR then puntosL else puntosR in
      let retBin := retirableBinario puntosL puntosR in
      let newUser : Update :=
        if toNumber retBin <=? 0 then []
        else [c_lReclamados (lReclamados user + puntosReclamados);
              c_rReclamados (rReclamados user + puntosReclamados)] in
      let retBinario := if toNumber retBin <=? 0 then 0 else retBin in
      let puntosUsados :=
        if toNumber retBin <=? 0 then 0 else lReclamados user + puntosReclamados in
      let pRango := puntosUsados in
      _gas <- call (methods.corteBinarioDo_estimateGas contrato wallet_ retBinario pRango 0) ;;
      res <- match methods.corteBinarioDo_send contrato wallet_ retBinario pRango 0 with
             | Minado h =>
                 updateOne wallet_ newUser ;;;
                 ret (mkResultado true (Some false) (Some h) None)
             | Rechazado e =>
                 if includes "Transaction Hash: " e then
                   updateOne wallet_ newUser ;;;
                   ret (mkResultado true (Some false)
                          (Some "operation processing is in progress please be patient"%string)
                          None)
                 else ret (mkResultado false (Some true) None (Some e))
             end ;;
      sin_await (consultarUsuario wallet_ true false false) ;;;
      ret res
  end.

(** The [data] of the reading [lecturaBinari] answers with. *)
Record Mano : Type := mkMano {
  dowline : string;
  m_puntos : Z;
  usados : Z;
  total : Z;
  m_personas : Z
}.

Record Lectura : Type := mkLectura {
  l_retirableBinario : Z;
  l_upline : string;
  l_invested : Z;
  l_invested_leader : Z;
  l_left : Mano;
  l_right : Mano
}.

(** [None] is the answer [{ result: false }]. *)
Definition lecturaBinari (wallet_ : string) : M (option Lectura) :=
  consultarUsuario wallet_ true false false ;;;
  user <- findOne wallet_ ;;
  match user with
  | None => ret None
  | Some user =>
      let puntosL := puntosLado izquierda user in
      let puntosR := puntosLado derecha user in
      let retBin := retirableBinario puntosL puntosR in
      let retBin := if toNumber retBin <? 0 then 0 else retBin in
      ret (Some
             {| l_retirableBinario := retBin;
                l_upline := up user;
                l_invested := invested user;
                l_invested_leader := invested_leader user;
                l_left := {| dowline := left user;
                             m_puntos := puntosLado izquierda user;
                             usados := lReclamados user;
                             total := lPuntos user + lExtra user;
                             m_personas := parseInt (lPersonas user) |};
                l_right := {| dowline := right user;
                              m_puntos := puntosLado derecha user;
                              usados := lReclamados user;
                              total := rPuntos user + rExtra user;
                              m_personas := parseInt (rPersonas user) |} |})
  end.

End Motor.

(** ** Quantities the properties speak of *)

(** The reading of [lecturaBinari] for a document [user]. *)
Definition claimable (user : Binario) : Z :=
  let retBin := retirableBinario (puntosLado izquierda user) (puntosLado derecha user) in
  if toNumber retBin <? 0 then 0 else retBin.

(** The points the smaller leg has left: [min(leftEffective, rightEffective)]. *)
Definition matched (user : Binario) : Z :=
  Z.min (puntosLado izquierda user) (puntosLado derecha user).

(** [puntosReclamados] in [hacerTakeProfit]: the points of the left leg when
    its double is not above the double of the right leg's, else those of the
    right leg. *)
Definition puntosReclamados (user : Binario) : Z :=
  if toNumber (puntosLado izquierda user) <=? toNumber (puntosLado derecha user)
  then puntosLado izquierda user else puntosLado derecha user.

(** The amount and the used points [hacerTakeProfit] hands to [corteBinarioDo]. *)
Definition montoCorte (user : Binario) : Z :=
  let retBin := retirableBinario (puntosLado izquierda user) (puntosLado derecha user) in
  if toNumber retBin <=? 0 then 0 else retBin.

Definition rangoCorte (user : Binario) : Z :=
  let retBin := retirableBinario (puntosLado izquierda user) (puntosLado derecha user) in
  if toNumber retBin <=? 0 then 0 else lReclamados user + puntosReclamados user.

(** The update [hacerTakeProfit] prepares for [user]: [newUser]. *)
Definition debito (user : Binario) : Update :=
  if toNumber (retirableBinario (puntosLado izquierda user) (puntosLado derecha user)) <=? 0
  then []
  else [c_lReclamados (lReclamados user + puntosReclamados user);
        c_rReclamados (rReclamados user + puntosReclamados user)].

(** [claimedPoints <= totalPoints + extraPoints] on one leg. *)
Definition cubierto (l : Lado) (user : Binario) : Prop :=
  reclamados l user <= puntos l user + extra l user.

(** The fields a refresh from the ledger never writes: the node's place in the
    tree and its points. *)
Definition nucleo (u : Binario) :=
  (wallet u, up u, left u, right u,
   (lPuntos u, lPersonas u, lReclamados u, lExtra u),
   (rPuntos u, rPersonas u, rReclamados u, rExtra u), puntosActivos u).

Definition es_de_ledger (c : Campo) : bool :=
  match c with
  | c_registered _ | c_invested _ | c_invested_leader _ | c_referer _
  | c_idBlock _ | c_hand _ | c_retirableA _ => true
  | _ => false
  end.

(** [b'] holds every document of [b], with the same place and points. *)
Definition extiende (b b' : list Binario) : Prop :=
  forall w u, find (es_wallet w) b = Some u ->
              exists u', find (es_wallet w) b' = Some u' /\ nucleo u' = nucleo u.

(** What [actualizarUsuario] writes to the document [userTemp] of [from];
    [None] when a contract call rejects. *)
Definition cambiosDe (contrato : methods.Contrato) (from : string) (userTemp : Binario)
  : option Update :=
  match methods.porcent contrato with
  | None => None
  | Some _ =>
      if inv_registered (leerInvestor contrato from) then
        match methods.addressToId contrato from, methods.upline contrato from,
              methods.verListaDepositos contrato from, methods.retirableA contrato from with
        | Some id, Some consulta, Some depositos, Some ra =>
            let invertido := fst (sumarDepositosTodos depositos) in
            let leader := snd (sumarDepositosTodos depositos) in
            let realInvested := inv_invested (leerInvestor contrato from) in
            let realInvested :=
              if 0 <? toNumber leader
              then (if toNumber realInvested <? toNumber invertido
                    then invertido else realInvested)
              else inv_invested (leerInvestor contrato from) in
            Some ([c_idBlock (parseInt id); c_registered true;
                   c_hand (parseInt (snd consulta))]
                  ++ (if andb (parseInt (snd consulta) <=? 1)
                              (String.eqb (referer userTemp) WalletVacia)
                      then [c_referer (toLowerCase (fst consulta))] else [])
                  ++ [c_retirableA (toNumber ra); c_invested realInvested;
                      c_invested_leader leader])
        | _, _, _, _ => None
        end
      else Some [c_registered false; c_invested 0; c_invested_leader 0]
  end.

(** The points a child hands up, and the head count. *)
Definition aporte (ch : Binario) : Z :=
  invested ch * factorPuntos / 100 + lPuntos ch + rPuntos ch.
Definition cabezas (ch : Binario) : Z := 1 + lPersonas ch + rPersonas ch.

(** What [binariV2] writes for a leg with a child document [ch]: each of the
    two values only when its double is above the double of the stored one. *)
Definition fusion (l : Lado) (userTemp ch : Binario) : Update :=
  (if toNumber (puntos l userTemp) <? toNumber (aporte ch)
   then [c_puntos l (aporte ch)] else [])
  ++ (if toNumber (personas l userTemp) <? toNumber (cabezas ch)
      then [c_personas l (cabezas ch)] else []).

(** What a leg holds after the merge of [binariV2]: the new value when its
    double is above the double of the stored one, else the stored one. *)
Definition mezcla (viejo nuevo : Z) : Z :=
  if toNumber viejo <? toNumber nuevo then nuevo else viejo.

(** What [binariV2] writes for a leg whose child slot is empty. *)
Definition vaciar (l : Lado) : Update := [c_puntos l 0; c_personas l 0].

(** The two shapes of a leg's part of [newUser]. *)
Definition forma (l : Lado) (userTemp : Binario) (upd : Update) : Prop :=
  (hijo l userTemp = WalletVacia /\ upd = vaciar l) \/
  (hijo l userTemp <> WalletVacia /\ (upd = [] \/ exists ch, upd = fusion l userTemp ch)).

(** The points, and the head count, an update leaves on leg [l] of a document
    that had [v]. *)
Fixpoint leer_puntos (l : Lado) (upd : Update) (v : Z) : Z :=
  match upd with
  | [] => v
  | c_lPuntos x :: r => leer_puntos l r (match l with izquierda => x | derecha => v end)
  | c_rPuntos x :: r => leer_puntos l r (match l with izquierda => v | derecha => x end)
  | _ :: r => leer_puntos l r v
  end.

Fixpoint leer_personas (l : Lado) (upd : Update) (v : Z) : Z :=
  match upd with
  | [] => v
  | c_lPersonas x :: r => leer_personas l r (match l with izquierda => x | derecha => v end)
  | c_rPersonas x :: r => leer_personas l r (match l with izquierda => v | derecha => x end)
  | _ :: r => leer_personas l r v
  end.

(** Assignments to the points, head counts and active points only. *)
Definition es_de_puntos (c : Campo) : bool :=
  match c with
  | c_lPuntos _ | c_rPuntos _ | c_lPersonas _ | c_rPersonas _ | c_puntosActivos _ => true
  | _ => false
  end.

(** Whatever [m] answers, the collection it leaves is [R]-related to the one it
    started from. *)
Definition conserva (R : list Binario -> list Binario -> Prop) {A} (m : M A) : Prop :=
  forall s, R (binario s) (binario (snd (m s))).

(** The active points [binariV2] stores for a document. *)
Definition activos (u : Binario) : Z :=
  let pL := lPuntos u + lExtra u - lReclamados u in
  let pR := rPuntos u + rExtra u - rReclamados u in
  if toNumber pL <? toNumber pR then pL else pR.

(** A document a further refresh from the ledger would leave as it is. *)
Definition fresco (contrato : methods.Contrato) (y : string) (d : Binario) : Prop :=
  forall upd, cambiosDe contrato y d = Some upd -> aplicar upd d = d.

(** [d'] is [d], or [d] refreshed from the ledger. *)
Definition paso (contrato : methods.Contrato) (y : string) (d d' : Binario) : Prop :=
  d' = d \/ exists upd, cambiosDe contrato y d = Some upd /\ d' = aplicar upd d.

(** [b'] holds every document of [b], as it was or refreshed. *)
Definition refresca (contrato : methods.Contrato) (b b' : list Binario) : Prop :=
  forall y d, find (es_wallet y) b = Some d ->
              exists d', find (es_wallet y) b' = Some d' /\ paso contrato y d d'.

(** A leg of the document [u] of [w] hangs well in the collection [b]: its
    slot is empty, or it names, in lower case, another account that has a
    document. *)
Definition bien_colgado (b : list Binario) (w : string) (u : Binario) (l : Lado) : Prop :=
  hijo l u = WalletVacia \/
  (toLowerCase (hijo l u) = hijo l u /\ hijo l u <> w /\
   exists d, find (es_wallet (hijo l u)) b = Some d).

(** Assignments that leave the claimed and extra points alone and write the
    total points of a leg only to reset them. *)
Definition es_blando (c : Campo) : bool :=
  match c with
  | c_lReclamados _ | c_rReclamados _ => false
  | c_lPuntos v | c_rPuntos v => v =? 0
  | _ => true
  end.

(** [d'] has the claimed and extra points of [d] and, on each leg, its total
    points or none. *)
Definition ablandado (d d' : Binario) : Prop :=
  forall l, reclamados l d' = reclamados l d /\ extra l d' = extra l d /\
            (puntos l d' = puntos l d \/ puntos l d' = 0).

(** [b'] holds every document of [b], possibly with legs reset. *)
Definition blanda (b b' : list Binario) : Prop :=
  forall y d, find (es_wallet y) b = Some d ->
              exists d', find (es_wallet y) b' = Some d' /\ ablandado d d'.

(** ** Quantities of the further properties *)

(** The place of a document in the tree and its claimed and extra points:
    what aggregation never writes. *)
Definition lugar (u : Binario) :=
  (wallet u, up u, left u, right u,
   (lReclamados u, lExtra u), (rReclamados u, rExtra u)).

(** The claimed and extra points of a document. *)
Definition saldo (u : Binario) :=
  (lReclamados u, lExtra u, rReclamados u, rExtra u).

(** [b'] holds every document of [b], with the same claimed and extra points. *)
Definition guarda (b b' : list Binario) : Prop :=
  forall y d, find (es_wallet y) b = Some d ->
              exists d', find (es_wallet y) b' = Some d' /\ saldo d' = saldo d.

(** [binarioindexado[w]] *)
Fixpoint leerIndexado (w : string) (ix : list (string * option Binario))
  : option (option Binario) :=
  match ix with
  | [] => None
  | (k, v) :: r => if String.eqb k w then Some v else leerIndexado w r
  end.

(** Assignments that write neither the upline nor the child slot of leg [l]. *)
Definition es_ajeno (l : Lado) (c : Campo) : bool :=
  match c with
  | c_up _ => false
  | c_left _ => match l with izquierda => false | derecha => true end
  | c_right _ => match l with izquierda => true | derecha => false end
  | _ => true
  end.

(** [b'] holds every document of [b], with the same upline and the same child
    on leg [l]. *)
Definition mantiene (l : Lado) (b b' : list Binario) : Prop :=
  forall y d, find (es_wallet y) b = Some d ->
              exists d', find (es_wallet y) b' = Some d' /\
                         up d' = up d /\ hijo l d' = hijo l d.

(** From the document of [n], the slots of leg [l] lead through the wallets
    [resto], each with a document and none of them [from], to the document of
    [fin], whose slot on leg [l] is empty. *)
Fixpoint camino (b : list Binario) (l : Lado) (from n : string) (resto : list string)
    (fin : string) : Prop :=
  match resto with
  | [] =>
      n = fin /\ n <> from /\
      exists d, find (es_wallet n) b = Some d /\ hijo l d = WalletVacia
  | m :: r =>
      m <> WalletVacia /\ m <> from /\
      (exists d, find (es_wallet n) b = Some d /\ hijo l d = m) /\
      camino b l from m r fin
  end.

(** [m] never throws the error of the walk that has used up its steps. *)
Definition nunca_agotado {A} (m : M A) : Prop :=
  forall s e s', m s = (Throw e, s') -> e <> "fuel"%string.

(** Assignments to anything but the claimed points. *)
Definition es_sin_reclamo (c : Campo) : bool :=
  match c with
  | c_lReclamados _ | c_rReclamados _ => false
  | _ => true
  end.

(** [b'] is [b] with its documents in place, each under its wallet, and
    possibly further documents after them; and it holds no wallet twice if
    [b] holds none twice. *)
Definition crece (b b' : list Binario) : Prop :=
  (exists nuevos, map wallet b' = map wallet b ++ nuevos) /\
  (NoDup (map wallet b) -> NoDup (map wallet b')).

(** ** Sample data *)

Definition cuenta (w : string) (lp lr le rp rr re : Z) : Binario :=
  {| wallet := w; registered := true; invested := 0; invested_leader := 0;
     referer := WalletVacia; up := WalletVacia;
     left := WalletVacia; lReclamados := lr; lExtra := le; lPersonas := 0; lPuntos := lp;
     right := WalletVacia; rReclamados := rr; rExtra := re; rPersonas := 0; rPuntos := rp;
     idBlock := 1; idBlock_old := 0; puntosActivos := 0;
     hand := None; retirableA := None |}.

(** A node with its two child slots and the points of its two legs. *)
Definition nodo (w izq der : string) (lp rp : Z) : Binario :=
  {| wallet := w; registered := true; invested := 0; invested_leader := 0;
     referer := WalletVacia; up := WalletVacia;
     left := izq; lReclamados := 0; lExtra := 0; lPersonas := 0; lPuntos := lp;
     right := der; rReclamados := 0; rExtra := 0; rPersonas := 0; rPuntos := rp;
     idBlock := 1; idBlock_old := 0; puntosActivos := 0;
     hand := None; retirableA := None |}.

(** A ledger that places every address on the right of 0xrr. *)
Definition ledgerDerecha : methods.Contrato :=
  methods.mkContrato
    (fun _ => Some (mkInvestor true 0)) (fun _ => Some []) (fun _ => Some 1)
    (fun _ => Some ("0xrr"%string, 1)) (Some 200) (fun _ => Some 0)
    (fun _ _ _ _ => Some 21000) (fun _ _ _ _ => Minado "0xf00d").

(** 0xpp holds 0xaa as its left child, with 500 of its 800 left points
    claimed; 0xaa, referred by 0xrr, has no upline yet. *)
Definition estadoAdverso : Estado :=
  mkEstado [aplicar [c_left "0xaa"] (cuenta "0xpp" 800 500 0 500 500 0);
            aplicar [c_referer "0xrr"] (cuenta "0xaa" 0 0 0 0 0 0);
            cuenta "0xrr" 0 0 0 0 0 0] [].

(** A ledger that places every address on the left of 0xrr. *)
Definition ledgerIzquierda : methods.Contrato :=
  methods.mkContrato
    (fun _ => Some (mkInvestor true 0)) (fun _ => Some [])
    (fun w => Some (if String.eqb w "0xp9" then 9 else if String.eqb w "0xp5" then 5 else 1))
    (fun _ => Some ("0xrr"%string, 0)) (Some 200) (fun _ => Some 0)
    (fun _ _ _ _ => Some 21000) (fun _ _ _ _ => Minado "0xf00d").

(** 0xp9 (idBlock 9) and 0xp5 (idBlock 5) both hold 0xaa as their left child;
    0xaa, referred by 0xrr, has no upline yet. *)
Definition estadoConflicto : Estado :=
  mkEstado [aplicar [c_idBlock 9; c_left "0xaa"] (cuenta "0xp9" 70 0 0 0 0 0);
            aplicar [c_idBlock 5; c_left "0xaa"] (cuenta "0xp5" 33 0 0 0 0 0);
            aplicar [c_referer "0xrr"] (cuenta "0xaa" 0 0 0 0 0 0);
            cuenta "0xrr" 0 0 0 0 0 0] [].

(** One account, with 800 effective points on the left and 500 on the right. *)
Definition estadoCuenta : Estado := mkEstado [cuenta "0xaa" 1000 200 0 500 0 0] [].

(** A ledger whose reads all answer: every address registered with [inv]
    invested and no deposits, uplines empty, and the settlement answering
    [envio]. *)
Definition libroCon (inv : Z) (envio : Envio) : methods.Contrato :=
  methods.mkContrato
    (fun _ => Some (mkInvestor true inv)) (fun _ => Some []) (fun _ => Some 1)
    (fun _ => Some (WalletVacia, 0)) (Some 200) (fun _ => Some 0)
    (fun _ _ _ _ => Some 21000) (fun _ _ _ _ => envio).

Definition libro : methods.Contrato := libroCon 0 (Minado "0xf00d").

(** A ledger that reverts every settlement: the gas estimate rejects, and so
    would the send. *)
Definition libroRevierte : methods.Contrato :=
  methods.mkContrato
    (fun _ => Some (mkInvestor true 0)) (fun _ => Some []) (fun _ => Some 1)
    (fun _ => Some (WalletVacia, 0)) (Some 200) (fun _ => Some 0)
    (fun _ _ _ _ => None) (fun _ _ _ _ => Rechazado "Error: execution reverted").

(** A ledger whose [retirableA] is beyond [MAX_SAFE_INTEGER]. *)
Definition libroGrande : methods.Contrato :=
  methods.mkContrato
    (fun _ => Some (mkInvestor true 100)) (fun _ => Some []) (fun _ => Some 7)
    (fun _ => Some (WalletVacia, 1)) (Some 200) (fun _ => Some 12345678901234567891)
    (fun _ _ _ _ => Some 21000) (fun _ _ _ _ => Minado "0xf00d").

(** 0xrr holds 0xmm on its left, whose left slot is empty; 0xaa, referred by
    0xrr, has no upline yet. *)
Definition estadoCadena : Estado :=
  mkEstado [nodo "0xrr" "0xmm" WalletVacia 0 0;
            nodo "0xmm" WalletVacia WalletVacia 0 0;
            aplicar [c_referer "0xrr"] (cuenta "0xaa" 0 0 0 0 0 0)] [].

(** Both slots of 0xrr name 0xmm, which has no document; 0xaa, referred by
    0xrr, has no upline yet. *)
Definition estadoRoto : Estado :=
  mkEstado [nodo "0xrr" "0xmm" "0xmm" 0 0;
            aplicar [c_referer "0xrr"] (cuenta "0xaa" 0 0 0 0 0 0)] [].

(** * Properties *)

(** ** Rounding *)

(** *** Doubles *)

Lemma redondear_chico (n : Z) : n < 2 ^ 53 -> redondear n = n.
Proof. intros H. unfold redondear. apply Z.ltb_lt in H. now rewrite H. Qed.

(** The shape of a number of 54 bits or more: a significand of 53 bits, a
    power of two and a remainder. *)
Lemma forma_grande (n : Z) :
  2 ^ 53 <= n ->
  let e := Z.log2 n - 52 in
  1 <= e /\ 2 ^ 52 <= n / 2 ^ e < 2 ^ 53 /\ 0 <= n mod 2 ^ e < 2 ^ e /\
  n = n / 2 ^ e * 2 ^ e + n mod 2 ^ e.
Proof.
  intros Hn. cbv zeta.
  assert (H0 : 0 < n) by (assert (0 < 2 ^ 53) by reflexivity; lia).
  pose proof (Z.log2_spec n H0) as [Hlo Hhi].
  assert (Hl : 53 <= Z.log2 n).
  { apply Z.log2_le_pow2; assumption. }
  set (e := Z.log2 n - 52) in *.
  assert (He : 1 <= e) by (unfold e; lia).
  assert (Hp : 0 < 2 ^ e) by (apply Z.pow_pos_nonneg; lia).
  assert (E1 : 2 ^ Z.log2 n = 2 ^ 52 * 2 ^ e).
  { rewrite <- Z.pow_add_r by lia. f_equal. unfold e. lia. }
  assert (E2 : 2 ^ Z.succ (Z.log2 n) = 2 ^ 53 * 2 ^ e).
  { rewrite <- Z.pow_add_r by lia. f_equal. unfold e. lia. }
  rewrite E1 in Hlo. rewrite E2 in Hhi.
  pose proof (Z.div_mod n (2 ^ e) ltac:(lia)) as Hdm.
  pose proof (Z.mod_pos_bound n (2 ^ e) Hp) as Hm.
  split; [assumption |]. split; [| split; [assumption | lia]].
  split.
  - apply Z.div_le_lower_bound; lia.
  - apply Z.div_lt_upper_bound; lia.
Qed.

(** The decomposition determines the exponent. *)
Lemma log2_forma (q e r : Z) :
  0 <= e -> 2 ^ 52 <= q < 2 ^ 53 -> 0 <= r < 2 ^ e ->
  Z.log2 (q * 2 ^ e + r) = e + 52.
Proof.
  intros He Hq Hr.
  assert (Hp : 0 < 2 ^ e) by (apply Z.pow_pos_nonneg; lia).
  apply Z.log2_unique; [lia |].
  replace (Z.succ (e + 52)) with (53 + e) by lia.
  replace (e + 52) with (52 + e) by lia.
  rewrite !Z.pow_add_r by lia. nia.
Qed.

Lemma redondear_grande (n : Z) :
  2 ^ 53 <= n ->
  let e := Z.log2 n - 52 in
  redondear n =
    (if sube (n mod 2 ^ e) (2 ^ (e - 1)) (n / 2 ^ e) then n / 2 ^ e + 1 else n / 2 ^ e)
    * 2 ^ e.
Proof.
  intros Hn. cbv zeta. unfold redondear, sube.
  destruct (Z.ltb_spec n (2 ^ 53)) as [H | _]; [lia |].
  now destruct (orb _ _).
Qed.

Lemma redondear_rango (n : Z) :
  2 ^ 53 <= n ->
  let e := Z.log2 n - 52 in
  2 ^ 52 * 2 ^ e <= redondear n <= 2 ^ 53 * 2 ^ e /\
  n / 2 ^ e * 2 ^ e <= redondear n <= (n / 2 ^ e + 1) * 2 ^ e.
Proof.
  intros Hn. cbv zeta. rewrite (redondear_grande n Hn).
  destruct (forma_grande n Hn) as (He & Hq & Hr & _).
  set (e := Z.log2 n - 52) in *.
  assert (Hp : 0 < 2 ^ e) by (apply Z.pow_pos_nonneg; lia).
  destruct (sube _ _ _); nia.
Qed.

Lemma redondear_no_negativo (n : Z) : 0 <= n -> 0 <= redondear n.
Proof.
  intros Hn. destruct (Z.lt_ge_cases n (2 ^ 53)) as [H | H].
  - now rewrite redondear_chico.
  - destruct (redondear_rango n H) as [[Hlo _] _].
    assert (0 < 2 ^ (Z.log2 n - 52)).
    { apply Z.pow_pos_nonneg; [lia |]. destruct (forma_grande n H). lia. }
    nia.
Qed.

Lemma redondear_mono (n m : Z) : 0 <= n -> n <= m -> redondear n <= redondear m.
Proof.
  intros Hn Hnm.
  destruct (Z.lt_ge_cases m (2 ^ 53)) as [Hm | Hm].
  - rewrite !redondear_chico by lia. assumption.
  - destruct (forma_grande m Hm) as (Hem & Hqm & Hrm & Em).
    destruct (redondear_rango m Hm) as [[Hlom _] [Hlm _]].
    set (em := Z.log2 m - 52) in *.
    assert (Hpm : 0 < 2 ^ em) by (apply Z.pow_pos_nonneg; lia).
    destruct (Z.lt_ge_cases n (2 ^ 53)) as [Hn53 | Hn53].
    + rewrite (redondear_chico n Hn53).
      assert (2 ^ 53 <= 2 ^ 52 * 2 ^ em); [| lia].
      change (2 ^ 53) with (2 ^ 52 * 2 ^ 1).
      apply Z.mul_le_mono_nonneg_l; [lia |]. apply Z.pow_le_mono_r; lia.
    + destruct (forma_grande n Hn53) as (Hen & Hqn & Hrn & En).
      destruct (redondear_rango n Hn53) as [[_ Hhin] [_ Hhn]].
      assert (Hlog : Z.log2 n <= Z.log2 m) by (apply Z.log2_le_mono; assumption).
      set (en := Z.log2 n - 52) in *.
      assert (Hpn : 0 < 2 ^ en) by (apply Z.pow_pos_nonneg; lia).
      destruct (Z.eq_dec en em) as [Ee | Ene].
      * (* the same exponent *)
        rewrite (redondear_grande n Hn53), (redondear_grande m Hm).
        fold en em. rewrite Ee in *.
        assert (Hq : n / 2 ^ em <= m / 2 ^ em) by (apply Z.div_le_mono; lia).
        destruct (Z.eq_dec (n / 2 ^ em) (m / 2 ^ em)) as [Eq | Nq].
        -- rewrite Eq in *.
           assert (Hr : n mod 2 ^ em <= m mod 2 ^ em) by lia.
           unfold sube.
           destruct (Z.ltb_spec (n mod 2 ^ em) (2 ^ (em - 1)));
             destruct (Z.ltb_spec (m mod 2 ^ em) (2 ^ (em - 1)));
             destruct (Z.eqb_spec (n mod 2 ^ em) (2 ^ (em - 1)));
             destruct (Z.eqb_spec (m mod 2 ^ em) (2 ^ (em - 1)));
             destruct (Z.even (m / 2 ^ em)); cbn [orb andb negb]; nia.
        -- destruct (sube (n mod 2 ^ em) _ _), (sube (m mod 2 ^ em) _ _); nia.
      * (* a lower exponent *)
        assert (Hlt : en + 1 <= em) by (unfold en, em in *; lia).
        assert (2 ^ 53 * 2 ^ en <= 2 ^ 52 * 2 ^ em); [| lia].
        replace (2 ^ 53 * 2 ^ en) with (2 ^ 52 * 2 ^ (en + 1))
          by (rewrite Z.pow_add_r by lia; change (2 ^ 53) with (2 ^ 52 * 2); ring).
        apply Z.mul_le_mono_nonneg_l; [lia |]. apply Z.pow_le_mono_r; lia.
Qed.

Lemma redondear_idem (n : Z) : 0 <= n -> redondear (redondear n) = redondear n.
Proof.
  intros Hn. destruct (Z.lt_ge_cases n (2 ^ 53)) as [H | H].
  - now rewrite !(redondear_chico n H).
  - destruct (forma_grande n H) as (He & Hq & Hr & En).
    rewrite (redondear_grande n H).
    set (e := Z.log2 n - 52) in *.
    assert (Hp : 0 < 2 ^ e) by (apply Z.pow_pos_nonneg; lia).
    set (q' := if sube _ _ _ then _ else _).
    assert (Hq' : 2 ^ 52 <= q' <= 2 ^ 53) by (unfold q'; destruct (sube _ _ _); lia).
    assert (Hmedio : 0 < 2 ^ (e - 1)) by (apply Z.pow_pos_nonneg; lia).
    destruct (Z.eq_dec q' (2 ^ 53)) as [E | Ne].
    + (* the significand has overflowed: the next power of two *)
      rewrite E.
      assert (Hm : 2 ^ 53 * 2 ^ e = 2 ^ 52 * 2 ^ (e + 1) + 0).
      { rewrite Z.pow_add_r by lia. change (2 ^ 53) with (2 ^ 52 * 2). ring. }
      assert (Hbig : 2 ^ 53 <= 2 ^ 53 * 2 ^ e) by nia.
      rewrite (redondear_grande _ Hbig).
      assert (Hlog : Z.log2 (2 ^ 53 * 2 ^ e) - 52 = e + 1).
      { rewrite Hm, log2_forma; lia. }
      rewrite Hlog.
      assert (Hp1 : 0 < 2 ^ (e + 1)) by (apply Z.pow_pos_nonneg; lia).
      assert (Hdiv : 2 ^ 53 * 2 ^ e / 2 ^ (e + 1) = 2 ^ 52).
      { rewrite Hm, Z.add_0_r. apply Z.div_mul. lia. }
      assert (Hmod : (2 ^ 53 * 2 ^ e) mod 2 ^ (e + 1) = 0).
      { rewrite Hm, Z.add_0_r. apply Z.mod_mul. lia. }
      rewrite Hdiv, Hmod. unfold sube.
      replace (e + 1 - 1) with e by lia.
      destruct (Z.ltb_spec 0 (2 ^ e)) as [_ | Hc]; [| lia]. cbn [orb negb].
      rewrite Z.pow_add_r by lia. change (2 ^ 53) with (2 ^ 52 * 2). ring.
    + assert (Hbig : 2 ^ 53 <= q' * 2 ^ e) by nia.
      rewrite (redondear_grande _ Hbig).
      assert (Hlog : Z.log2 (q' * 2 ^ e) - 52 = e).
      { replace (q' * 2 ^ e) with (q' * 2 ^ e + 0) by lia.
        rewrite log2_forma; lia. }
      rewrite Hlog, Z.div_mul, Z.mod_mul by lia. unfold sube.
      destruct (Z.ltb_spec 0 (2 ^ (e - 1))) as [_ | Hc]; [| lia]. reflexivity.
Qed.

Lemma redondear_positivo (n : Z) : 0 < n -> 0 < redondear n.
Proof.
  intros Hn. destruct (Z.lt_ge_cases n (2 ^ 53)) as [H | H].
  - now rewrite redondear_chico.
  - destruct (redondear_rango n H) as [[Hlo _] _].
    assert (0 < 2 ^ (Z.log2 n - 52)).
    { apply Z.pow_pos_nonneg; [lia |]. destruct (forma_grande n H). lia. }
    nia.
Qed.

(** *** [toNumber] *)

Lemma toNumber_exacto (x : Z) : Z.abs x <= MAX_SAFE_INTEGER -> toNumber x = x.
Proof.
  unfold MAX_SAFE_INTEGER, toNumber. intros H.
  rewrite redondear_chico by lia. rewrite Z.mul_comm. apply Z.abs_sgn.
Qed.

Lemma toNumber_mono (x y : Z) : x <= y -> toNumber x <= toNumber y.
Proof.
  intros H. unfold toNumber.
  pose proof (redondear_no_negativo (Z.abs x) (Z.abs_nonneg x)).
  pose proof (redondear_no_negativo (Z.abs y) (Z.abs_nonneg y)).
  destruct (Z.sgn_spec x) as [[Hx ->] | [[Hx ->] | [Hx ->]]];
    destruct (Z.sgn_spec y) as [[Hy ->] | [[Hy ->] | [Hy ->]]]; try lia.
  - pose proof (redondear_mono (Z.abs x) (Z.abs y) (Z.abs_nonneg x)). lia.
  - pose proof (redondear_mono (Z.abs y) (Z.abs x) (Z.abs_nonneg y)). lia.
Qed.

Lemma toNumber_signo (x : Z) : Z.sgn (toNumber x) = Z.sgn x.
Proof.
  unfold toNumber.
  destruct (Z.sgn_spec x) as [[Hx ->] | [[Hx ->] | [Hx ->]]].
  - pose proof (redondear_positivo (Z.abs x)). rewrite Z.mul_1_l. apply Z.sgn_pos. lia.
  - reflexivity.
  - pose proof (redondear_positivo (Z.abs x)). apply Z.sgn_neg. lia.
Qed.

Lemma toNumber_abs (x : Z) : Z.abs (toNumber x) = redondear (Z.abs x).
Proof.
  unfold toNumber.
  pose proof (redondear_no_negativo (Z.abs x) (Z.abs_nonneg x)).
  destruct (Z.sgn_spec x) as [[Hx ->] | [[Hx ->] | [Hx ->]]]; try lia.
  subst x. reflexivity.
Qed.

Lemma toNumber_idem (x : Z) : toNumber (toNumber x) = toNumber x.
Proof.
  unfold toNumber at 1. rewrite toNumber_signo, toNumber_abs.
  rewrite redondear_idem by apply Z.abs_nonneg. reflexivity.
Qed.

Lemma toNumber_opp (x : Z) : toNumber (- x) = - toNumber x.
Proof. unfold toNumber. rewrite Z.sgn_opp, Z.abs_opp. ring. Qed.

Lemma toNumber_pos (x : Z) : 0 < toNumber x <-> 0 < x.
Proof.
  pose proof (toNumber_signo x) as H.
  destruct (Z.sgn_spec x) as [[Hx E] | [[Hx E] | [Hx E]]];
    destruct (Z.sgn_spec (toNumber x)) as [[Hy E'] | [[Hy E'] | [Hy E']]]; lia.
Qed.

Lemma toNumber_le0 (x : Z) : toNumber x <= 0 <-> x <= 0.
Proof. pose proof (toNumber_pos x). lia. Qed.

Lemma toNumber_neg (x : Z) : toNumber x < 0 <-> x < 0.
Proof.
  pose proof (toNumber_signo x) as H.
  destruct (Z.sgn_spec x) as [[Hx E] | [[Hx E] | [Hx E]]];
    destruct (Z.sgn_spec (toNumber x)) as [[Hy E'] | [[Hy E'] | [Hy E']]]; lia.
Qed.

Lemma toNumber_ltb0 (x : Z) : (toNumber x <? 0) = (x <? 0).
Proof.
  pose proof (toNumber_neg x).
  destruct (Z.ltb_spec (toNumber x) 0); destruct (Z.ltb_spec x 0); lia.
Qed.

Lemma toNumber_min (x y : Z) : Z.min (toNumber x) (toNumber y) = toNumber (Z.min x y).
Proof.
  destruct (Z.le_ge_cases x y) as [H | H].
  - pose proof (toNumber_mono _ _ H). rewrite !Z.min_l; auto.
  - pose proof (toNumber_mono _ _ H). rewrite !Z.min_r; auto.
Qed.

(** A strict order of the doubles is the order of the numbers. *)
Lemma toNumber_lt (x y : Z) : toNumber x < toNumber y -> x < y.
Proof.
  intros H. destruct (Z.lt_ge_cases x y) as [| Hge]; [assumption |].
  pose proof (toNumber_mono _ _ Hge). lia.
Qed.

Lemma toNumber_no_negativo (x : Z) : 0 <= x -> toNumber x = redondear x.
Proof.
  intros H. unfold toNumber. rewrite (Z.abs_eq x H).
  destruct (Z.sgn_spec x) as [[Hx ->] | [[Hx ->] | [Hx ->]]]; try lia.
  subst x. reflexivity.
Qed.

Lemma toNumber_2_53 : toNumber (2 ^ 53) = 2 ^ 53.
Proof. reflexivity. Qed.

(** *** [new BigNumber(number)] *)

Lemma masCorto_vuelve (d : Z) (e : nat) : toNumber d = d -> toNumber (masCorto d e) = d.
Proof.
  intros Hd. induction e as [| e IH]; cbn [masCorto]; [assumption |].
  set (p := 10 ^ Z.of_nat (S e)).
  destruct (Z.eqb_spec (toNumber (d / p * p)) d) as [Hlo | _];
    destruct (Z.eqb_spec (toNumber (d / p * p + p)) d) as [Hhi | _];
    try assumption.
  destruct (_ <? _); [assumption |]. destruct (_ <? _); [assumption |].
  now destruct (Z.even _).
Qed.

Lemma masCorto_exacto (d : Z) (e : nat) :
  0 <= d <= MAX_SAFE_INTEGER -> masCorto d e = d.
Proof.
  intros Hd. unfold MAX_SAFE_INTEGER in Hd.
  induction e as [| e IH]; cbn [masCorto]; [reflexivity |].
  set (p := 10 ^ Z.of_nat (S e)).
  assert (Hp : 0 < p) by (apply Z.pow_pos_nonneg; lia).
  pose proof (Z.div_mod d p ltac:(lia)) as Hdm.
  pose proof (Z.mod_pos_bound d p Hp) as Hm.
  assert (Hlo : 0 <= d / p * p <= d).
  { split; [| lia]. apply Z.mul_nonneg_nonneg; [apply Z.div_pos |]; lia. }
  assert (Elo : toNumber (d / p * p) = d / p * p).
  { apply toNumber_exacto. unfold MAX_SAFE_INTEGER. lia. }
  assert (Nhi : toNumber (d / p * p + p) <> d).
  { destruct (Z.le_gt_cases (d / p * p + p) (2 ^ 53 - 1)) as [H | H].
    - rewrite toNumber_exacto by (unfold MAX_SAFE_INTEGER; lia). lia.
    - pose proof (toNumber_mono (2 ^ 53) (d / p * p + p) ltac:(lia)) as Hmono.
      rewrite toNumber_2_53 in Hmono. lia. }
  rewrite Elo.
  destruct (Z.eqb_spec (d / p * p) d) as [E | _];
    destruct (Z.eqb_spec (toNumber (d / p * p + p)) d) as [Hhi | _];
    try contradiction; auto.
Qed.

Lemma deNumber_vuelve (x : Z) : toNumber (deNumber (toNumber x)) = toNumber x.
Proof.
  unfold deNumber. rewrite toNumber_signo, toNumber_abs.
  set (c := masCorto _ _).
  assert (Hc : toNumber c = redondear (Z.abs x)).
  { apply masCorto_vuelve.
    rewrite toNumber_no_negativo by (apply redondear_no_negativo, Z.abs_nonneg).
    apply redondear_idem, Z.abs_nonneg. }
  unfold toNumber at 2.
  destruct (Z.sgn_spec x) as [[Hx ->] | [[Hx ->] | [Hx ->]]].
  - now rewrite !Z.mul_1_l.
  - reflexivity.
  - replace (-1 * c) with (- c) by lia. rewrite toNumber_opp, Hc. lia.
Qed.

Lemma deNumber_exacto (x : Z) : Z.abs x <= MAX_SAFE_INTEGER -> deNumber x = x.
Proof.
  intros H. unfold deNumber.
  rewrite masCorto_exacto by (split; [apply Z.abs_nonneg | assumption]).
  rewrite Z.mul_comm. apply Z.abs_sgn.
Qed.

(** The round trip of a number through a double and its decimal form. *)
Lemma deNumber_mono (x y : Z) :
  x <= y -> deNumber (toNumber x) <= deNumber (toNumber y).
Proof.
  intros H. pose proof (toNumber_mono _ _ H) as Hxy.
  destruct (Z.eq_dec (toNumber x) (toNumber y)) as [E | Ne]; [rewrite E; lia |].
  destruct (Z.le_gt_cases (deNumber (toNumber x)) (deNumber (toNumber y))) as [| Hgt];
    [assumption |].
  pose proof (toNumber_mono _ _ (Z.lt_le_incl _ _ Hgt)) as Hc.
  rewrite !deNumber_vuelve in Hc. lia.
Qed.

Lemma deNumber_signo (x : Z) : Z.sgn (deNumber (toNumber x)) = Z.sgn x.
Proof.
  rewrite <- (toNumber_signo (deNumber (toNumber x))), deNumber_vuelve.
  apply toNumber_signo.
Qed.

Example toNumber_ejemplo : toNumber 12345678901234567891 = 12345678901234567168.
Proof. reflexivity. Qed.

Example deNumber_ejemplo : deNumber 12345678901234567168 = 12345678901234567000.
Proof. vm_compute. reflexivity. Qed.

(** *** [parseInt] *)

Lemma parseInt_exacto (x : Z) : Z.abs x <= MAX_SAFE_INTEGER -> parseInt x = x.
Proof. apply toNumber_exacto. Qed.

(** A number below 10^21 goes through [parseInt] unchanged. *)
Lemma parseIntNumber_chico (d : Z) : Z.abs d < 10 ^ 21 -> parseIntNumber d = d.
Proof.
  intros H. unfold parseIntNumber.
  destruct (Z.ltb_spec (Z.abs d) (10 ^ 21)); [reflexivity | lia].
Qed.

Example parseIntNumber_ejemplo :
  parseIntNumber (parseInt 1) = 1 /\
  parseIntNumber (parseInt 12345678901234567891) = 12345678901234567168 /\
  parseIntNumber (parseInt (10 ^ 21)) = 1 /\
  parseIntNumber (parseInt (25 * 10 ^ 20 + 1)) = 2.
Proof. vm_compute. repeat split. Qed.

(** *** The quotient of [retirableBinario] *)

Lemma div_dp0_nearest (x d : Z) :
  0 < d ->
  2 * Z.abs (d * div_dp0 x d - x) <= d /\
  (2 * Z.abs (d * div_dp0 x d - x) = d -> Z.abs x < Z.abs (d * div_dp0 x d)).
Proof.
  intros Hd. unfold div_dp0.
  set (q := (2 * Z.abs x + d) / (2 * d)).
  assert (Hq : 2 * d * q <= 2 * Z.abs x + d < 2 * d * q + 2 * d).
  { pose proof (Z.div_mod (2 * Z.abs x + d) (2 * d)) as E.
    pose proof (Z.mod_pos_bound (2 * Z.abs x + d) (2 * d)) as B.
    fold q in E. lia. }
  assert (Hq0 : 0 <= q) by (apply Z.div_pos; lia).
  destruct (Z.lt_trichotomy x 0) as [Hx | [Hx | Hx]].
  - rewrite Z.sgn_neg by lia. split; intros; nia.
  - subst x. cbn [Z.sgn]. assert (q = 0) by (cbn [Z.abs] in Hq; nia). split; intros; nia.
  - rewrite Z.sgn_pos by lia. split; intros; nia.
Qed.

Lemma div_dp0_pos (x d : Z) : 0 < d -> 0 < div_dp0 x d -> 0 < x.
Proof.
  intros Hd. unfold div_dp0.
  assert (0 <= (2 * Z.abs x + d) / (2 * d)) by (apply Z.div_pos; lia).
  destruct (Z.lt_trichotomy x 0) as [Hx | [Hx | Hx]]; [| subst x; cbn [Z.sgn]; lia | lia].
  rewrite Z.sgn_neg by lia. lia.
Qed.


(** [retirableBinario] works on the smaller leg, taken through a double. *)
Lemma retirableBinario_min (a b : Z) :
  retirableBinario a b = div_dp0 (deNumber (toNumber (Z.min a b)) * 10) 100.
Proof.
  unfold retirableBinario. cbv zeta. rewrite <- toNumber_min.
  destruct (Z.leb_spec (toNumber a) (toNumber b)); do 3 f_equal; lia.
Qed.

Lemma retirableBinario_exacto (a b : Z) :
  Z.abs (Z.min a b) <= MAX_SAFE_INTEGER ->
  retirableBinario a b = div_dp0 (Z.min a b * 10) 100.
Proof.
  intros H. rewrite retirableBinario_min, toNumber_exacto, deNumber_exacto by assumption.
  reflexivity.
Qed.

Lemma retirableBinario_zero (a b : Z) : Z.min a b = 0 -> retirableBinario a b = 0.
Proof. intros H. rewrite retirableBinario_min, H. reflexivity. Qed.

Lemma deNumber_pos (x : Z) : 0 < deNumber (toNumber x) <-> 0 < x.
Proof.
  pose proof (deNumber_signo x) as H.
  destruct (Z.sgn_spec x) as [[Hx E] | [[Hx E] | [Hx E]]];
    destruct (Z.sgn_spec (deNumber (toNumber x))) as [[Hy E'] | [[Hy E'] | [Hy E']]]; lia.
Qed.

Lemma retirableBinario_pos (a b : Z) : 0 < retirableBinario a b -> 0 < Z.min a b.
Proof.
  rewrite retirableBinario_min. intros H.
  apply div_dp0_pos in H; [| lia]. apply deNumber_pos. lia.
Qed.


(** ** The collection *)

Lemma wallet_setCampo (c : Campo) (u : Binario) : wallet (setCampo c u) = wallet u.
Proof. destruct u, c; reflexivity. Qed.

Lemma wallet_aplicar (upd : Update) (u : Binario) : wallet (aplicar upd u) = wallet u.
Proof.
  unfold aplicar. revert u.
  induction upd as [| c upd IH]; intros u; cbn [fold_left]; [reflexivity |].
  rewrite IH. apply wallet_setCampo.
Qed.

Lemma find_es_wallet (w : string) (l : list Binario) (u : Binario) :
  find (es_wallet w) l = Some u -> wallet u = w.
Proof.
  intros H. apply find_some in H. destruct H as [_ H].
  unfold es_wallet in H. now apply String.eqb_eq in H.
Qed.

Lemma find_update_first (w : string) (upd : Update) (l : list Binario) (u : Binario) :
  find (es_wallet w) l = Some u ->
  find (es_wallet w) (update_first w upd l) = Some (aplicar upd u).
Proof.
  induction l as [| x l IH]; cbn [find update_first]; [discriminate |].
  destruct (es_wallet w x) eqn:E.
  - intros [= <-]. cbn [find]. unfold es_wallet in *.
    rewrite wallet_aplicar, E. reflexivity.
  - intros H. cbn [find]. rewrite E. auto.
Qed.

Lemma find_update_first_otro (w w' : string) (upd : Update) (l : list Binario) :
  w <> w' ->
  find (es_wallet w') (update_first w upd l) = find (es_wallet w') l.
Proof.
  intros Hne. induction l as [| x l IH]; cbn [find update_first]; [reflexivity |].
  destruct (es_wallet w x) eqn:E; cbn [find].
  - unfold es_wallet in *. rewrite wallet_aplicar.
    apply String.eqb_eq in E. rewrite E.
    destruct (String.eqb_spec w w'); [contradiction | reflexivity].
  - rewrite IH. reflexivity.
Qed.

Lemma update_first_nada (w : string) (l : list Binario) : update_first w [] l = l.
Proof.
  induction l as [| x l IH]; cbn [update_first]; [reflexivity |].
  destruct (es_wallet w x); [reflexivity | now rewrite IH].
Qed.

Lemma update_first_fijo (w : string) (upd : Update) (l : list Binario) (u : Binario) :
  find (es_wallet w) l = Some u -> aplicar upd u = u -> update_first w upd l = l.
Proof.
  induction l as [| x l IH]; cbn [find update_first]; [discriminate |].
  destruct (es_wallet w x).
  - intros [= <-] ->. reflexivity.
  - intros H1 H2. rewrite IH; auto.
Qed.

(** ** Reading a document that is present *)

Section Lecturas.

Variable contrato : methods.Contrato.

(** With [conectarUp] and [updateInfoBlockchain] unset, looking up a document
    that exists leaves the collection as it is. *)
Lemma consultarUsuario_presente (w : string) (ag : bool) (s : Estado) (u : Binario) :
  toLowerCase w = w ->
  find (es_wallet w) (binario s) = Some u ->
  exists r ix, consultarUsuario contrato w ag false false s = (Ok r, mkEstado (binario s) ix).
Proof.
  intros Hw Hu. destruct s as [b ix0]. cbn [binario] in *.
  unfold consultarUsuario, consultarUsuario0. rewrite Hw.
  destruct (String.eqb w "0x0000000000000000000000000000000000000000").
  - exists objeto_vacio, ix0. reflexivity.
  - unfold bind, ret, findOne, set_indexado. cbn. rewrite Hu. cbn.
    destruct ag; cbn; eexists; eexists; reflexivity.
Qed.

Lemma lecturaBinari_presente (w : string) (s : Estado) (u : Binario) :
  toLowerCase w = w ->
  find (es_wallet w) (binario s) = Some u ->
  exists lec ix,
    lecturaBinari contrato w s = (Ok (Some lec), mkEstado (binario s) ix) /\
    l_retirableBinario lec = claimable u.
Proof.
  intros Hw Hu.
  destruct (consultarUsuario_presente w true s u Hw Hu) as (r & ix & E).
  unfold lecturaBinari, bind. rewrite E. unfold findOne. cbn [binario]. rewrite Hu.
  unfold ret. eexists. exists ix. split; reflexivity.
Qed.

End Lecturas.

(** C1, as stated, fails.  With 12345678901234567891 effective points on both
    legs [lecturaBinari] reports 1234567890123456700, which is not the integer
    nearest to min(leftEffective, rightEffective) * 10 / 100, namely
    1234567890123456789: [retirableBinario] takes the smaller leg as a
    JavaScript number. *)
Lemma computeClaimable_exact_fails :
  exists lec s',
    lecturaBinari libro "0xaa"
      (mkEstado [cuenta "0xaa" 12345678901234567891 0 0 12345678901234567891 0 0] [])
    = (Ok (Some lec), s') /\
    matched (cuenta "0xaa" 12345678901234567891 0 0 12345678901234567891 0 0)
    = 12345678901234567891 /\
    l_retirableBinario lec = 1234567890123456700 /\
    ~ 2 * Z.abs (100 * l_retirableBinario lec - 12345678901234567891 * 10) <= 100.
Proof.
  eexists. eexists. split; [vm_compute; reflexivity |].
  split; [reflexivity |]. split; [reflexivity |].
  cbn [l_retirableBinario]. vm_compute. intros H. now apply H.
Qed.

(** C1, amended.  For an account of the collection, [lecturaBinari] answers
    and leaves the collection as it is; the amount it reports is the integer
    nearest to m * 10 / 100 (a tie going away from zero), and 0 whenever that
    amount is not positive, where m is min(leftEffective, rightEffective) as
    the code reads it back from a JavaScript number: m has the double of the
    minimum, and m is the minimum itself whenever the minimum is at most
    [MAX_SAFE_INTEGER] in magnitude.  Each leg's effective points are
    totalPoints - claimedPoints + extraPoints.  With 800 effective points on
    the left and 500 on the right the matched points are 500 and the amount 50. *)
Theorem computeClaimable_min_rate
    (contrato : methods.Contrato) (s : Estado) (w : string) (u : Binario) :
  toLowerCase w = w ->
  find (es_wallet w) (binario s) = Some u ->
  let leftEffective := lPuntos u - lReclamados u + lExtra u in
  let rightEffective := rPuntos u - rReclamados u + rExtra u in
  let matched := Z.min leftEffective rightEffective in
  exists lec s' m amount,
    lecturaBinari contrato w s = (Ok (Some lec), s') /\
    binario s' = binario s /\
    m = deNumber (toNumber matched) /\
    toNumber m = toNumber matched /\
    (Z.abs matched <= MAX_SAFE_INTEGER -> m = matched) /\
    2 * Z.abs (100 * amount - m * 10) <= 100 /\
    (2 * Z.abs (100 * amount - m * 10) = 100 ->
     Z.abs (m * 10) < Z.abs (100 * amount)) /\
    l_retirableBinario lec = (if amount <=? 0 then 0 else amount) /\
    (leftEffective = 800 -> rightEffective = 500 ->
     matched = 500 /\ l_retirableBinario lec = 50).
Proof.
  intros Hw Hu leftEffective rightEffective matched.
  destruct (lecturaBinari_presente contrato w s u Hw Hu) as (lec & ix & E & Hl).
  set (m := deNumber (toNumber matched)).
  exists lec, (mkEstado (binario s) ix), m, (div_dp0 (m * 10) 100).
  assert (Hc : claimable u = if div_dp0 (m * 10) 100 <=? 0 then 0
                             else div_dp0 (m * 10) 100).
  { unfold claimable. rewrite toNumber_ltb0, retirableBinario_min.
    change (Z.min (puntosLado izquierda u) (puntosLado derecha u)) with matched.
    fold m.
    destruct (Z.ltb_spec (div_dp0 (m * 10) 100) 0);
      destruct (Z.leb_spec (div_dp0 (m * 10) 100) 0); lia. }
  destruct (div_dp0_nearest (m * 10) 100 ltac:(lia)) as [N1 N2].
  split; [assumption |]. split; [reflexivity |]. split; [reflexivity |].
  split; [apply deNumber_vuelve |].
  split.
  { intros Hm. unfold m. now rewrite toNumber_exacto, deNumber_exacto. }
  split; [assumption |]. split; [assumption |]. split; [congruence |].
  intros HL HR.
  assert (Hm : matched = 500) by (subst matched; lia).
  split; [assumption |].
  rewrite Hl, Hc. unfold m. rewrite Hm. reflexivity.
Qed.

Lemma computeClaimable_min_rate_witness :
  exists lec s' m amount,
    lecturaBinari libro "0xaa" (mkEstado [cuenta "0xaa" 1000 200 0 500 0 0] []) = (Ok (Some lec), s') /\
    binario s' = [cuenta "0xaa" 1000 200 0 500 0 0] /\
    m = deNumber (toNumber 500) /\
    toNumber m = toNumber 500 /\
    (Z.abs 500 <= MAX_SAFE_INTEGER -> m = 500) /\
    2 * Z.abs (100 * amount - m * 10) <= 100 /\
    (2 * Z.abs (100 * amount - m * 10) = 100 -> Z.abs (m * 10) < Z.abs (100 * amount)) /\
    l_retirableBinario lec = (if amount <=? 0 then 0 else amount) /\
    (800 = 800 -> 500 = 500 -> 500 = 500 /\ l_retirableBinario lec = 50).
Proof.
  exact (computeClaimable_min_rate libro
           (mkEstado [cuenta "0xaa" 1000 200 0 500 0 0] []) "0xaa"
           (cuenta "0xaa" 1000 200 0 500 0 0) eq_refl eq_refl).
Defined.

(** ** Settling a claim *)

Section Cobro.

Variable contrato : methods.Contrato.

Lemma hacerTakeProfit_presente (w : string) (s : Estado) (u : Binario) (g : Z) :
  toLowerCase w = w ->
  find (es_wallet w) (binario s) = Some u ->
  methods.corteBinarioDo_estimateGas contrato w (montoCorte u) (rangoCorte u) 0 = Some g ->
  exists ix,
    hacerTakeProfit contrato w s =
    match methods.corteBinarioDo_send contrato w (montoCorte u) (rangoCorte u) 0 with
    | Minado h =>
        (Ok (mkResultado true (Some false) (Some h) None),
         mkEstado (update_first w (debito u) (binario s)) ix)
    | Rechazado e =>
        if includes "Transaction Hash: " e then
          (Ok (mkResultado true (Some false)
                 (Some "operation processing is in progress please be patient"%string) None),
           mkEstado (update_first w (debito u) (binario s)) ix)
        else (Ok (mkResultado false (Some true) None (Some e)), mkEstado (binario s) ix)
    end.
Proof.
  intros Hw Hu Hg.
  assert (Hfin : forall (res : Resultado) (s2 : Estado) (u2 : Binario),
             find (es_wallet w) (binario s2) = Some u2 ->
             exists ix,
               bind (sin_await (consultarUsuario contrato w true false false))
                    (fun _ => ret res) s2 = (Ok res, mkEstado (binario s2) ix)).
  { intros res s2 u2 H2.
    destruct (consultarUsuario_presente contrato w true s2 u2 Hw H2) as (r & ix & E).
    exists ix. unfold bind, sin_await, ret. rewrite E. reflexivity. }
  unfold hacerTakeProfit. rewrite Hw. unfold bind at 1. unfold findOne at 1.
  rewrite Hu. cbv zeta.
  change (if toNumber (puntosLado izquierda u) <=? toNumber (puntosLado derecha u)
          then puntosLado izquierda u else puntosLado derecha u)
    with (puntosReclamados u).
  change (if toNumber (retirableBinario (puntosLado izquierda u) (puntosLado derecha u))
             <=? 0
          then 0 else lReclamados u + puntosReclamados u) with (rangoCorte u).
  change (if toNumber (retirableBinario (puntosLado izquierda u) (puntosLado derecha u))
             <=? 0
          then 0 else retirableBinario (puntosLado izquierda u) (puntosLado derecha u))
    with (montoCorte u).
  change (if toNumber (retirableBinario (puntosLado izquierda u) (puntosLado derecha u))
             <=? 0
          then []
          else [c_lReclamados (lReclamados u + puntosReclamados u);
                c_rReclamados (rReclamados u + puntosReclamados u)]) with (debito u).
  unfold bind at 1. rewrite Hg. unfold call, ret at 1.
  destruct (methods.corteBinarioDo_send contrato w (montoCorte u) (rangoCorte u) 0)
    as [h | e].
  - unfold bind at 1. unfold bind at 1. unfold updateOne at 1. unfold ret at 1.
    apply (Hfin _ (mkEstado (update_first w (debito u) (binario s)) (binarioindexado s))
                (aplicar (debito u) u)).
    cbn [binario]. now apply find_update_first.
  - destruct (includes "Transaction Hash: " e).
    + unfold bind at 1. unfold bind at 1. unfold updateOne at 1. unfold ret at 1.
      apply (Hfin _ (mkEstado (update_first w (debito u) (binario s)) (binarioindexado s))
                  (aplicar (debito u) u)).
      cbn [binario]. now apply find_update_first.
    + unfold bind at 1. unfold ret at 1.
      apply (Hfin _ s u Hu).
Qed.

(** [hacerTakeProfit] throws before any write when the wallet has no document
    and when the gas estimate of the settlement rejects. *)
Lemma hacerTakeProfit_ausente (w : string) (s : Estado) :
  toLowerCase w = w ->
  find (es_wallet w) (binario s) = None ->
  hacerTakeProfit contrato w s = (Throw "TypeError: user is null", s).
Proof.
  intros Hw Hu. unfold hacerTakeProfit. rewrite Hw.
  unfold bind at 1. unfold findOne at 1. rewrite Hu. reflexivity.
Qed.

Lemma hacerTakeProfit_sin_gas (w : string) (s : Estado) (u : Binario) :
  toLowerCase w = w ->
  find (es_wallet w) (binario s) = Some u ->
  methods.corteBinarioDo_estimateGas contrato w (montoCorte u) (rangoCorte u) 0 = None ->
  hacerTakeProfit contrato w s = (Throw "call rejected", s).
Proof.
  intros Hw Hu Hg. unfold hacerTakeProfit. rewrite Hw.
  unfold bind at 1. unfold findOne at 1. rewrite Hu. cbv zeta.
  change (if toNumber (puntosLado izquierda u) <=? toNumber (puntosLado derecha u)
          then puntosLado izquierda u else puntosLado derecha u)
    with (puntosReclamados u).
  change (if toNumber (retirableBinario (puntosLado izquierda u) (puntosLado derecha u))
             <=? 0
          then 0 else lReclamados u + puntosReclamados u) with (rangoCorte u).
  change (if toNumber (retirableBinario (puntosLado izquierda u) (puntosLado derecha u))
             <=? 0
          then 0 else retirableBinario (puntosLado izquierda u) (puntosLado derecha u))
    with (montoCorte u).
  unfold bind at 1. rewrite Hg. reflexivity.
Qed.

(** The points [hacerTakeProfit] debits are those of one of the two legs, with
    the double of the smaller; they are the smaller leg's unless the left leg
    is the larger and the two share a double. *)
Lemma puntosReclamados_spec (u : Binario) :
  (puntosReclamados u = puntosLado izquierda u \/
   puntosReclamados u = puntosLado derecha u) /\
  matched u <= puntosReclamados u /\
  toNumber (puntosReclamados u) = toNumber (matched u) /\
  (puntosLado izquierda u <= puntosLado derecha u \/
   toNumber (puntosLado izquierda u) <> toNumber (puntosLado derecha u) ->
   puntosReclamados u = matched u).
Proof.
  unfold puntosReclamados, matched. rewrite <- toNumber_min.
  set (L := puntosLado izquierda u). set (R := puntosLado derecha u).
  destruct (Z.leb_spec (toNumber L) (toNumber R)) as [H | H].
  - split; [now left |]. split; [lia |]. split; [lia |].
    intros [Hle | Hne]; [lia |].
    assert (L < R) by (apply toNumber_lt; lia). lia.
  - assert (R < L) by now apply toNumber_lt.
    split; [now right |]. split; [lia |]. split; [lia |]. intros _. lia.
Qed.


Lemma claimable_pos (u : Binario) :
  0 < claimable u <->
  0 < retirableBinario (puntosLado izquierda u) (puntosLado derecha u).
Proof.
  unfold claimable. cbv zeta. rewrite toNumber_ltb0.
  destruct (Z.ltb_spec (retirableBinario (puntosLado izquierda u) (puntosLado derecha u)) 0);
    lia.
Qed.

(** The test [new BigNumber(retBin).toNumber() <= 0]. *)
Lemma cobra_claimable (u : Binario) :
  (toNumber (retirableBinario (puntosLado izquierda u) (puntosLado derecha u)) <=? 0)
  = negb (0 <? claimable u).
Proof.
  pose proof (claimable_pos u) as H.
  pose proof (toNumber_le0
                (retirableBinario (puntosLado izquierda u) (puntosLado derecha u))) as H0.
  destruct (Z.leb_spec
              (toNumber (retirableBinario (puntosLado izquierda u) (puntosLado derecha u)))
              0);
    destruct (Z.ltb_spec 0 (claimable u)); cbn [negb]; lia.
Qed.

(** What the debit does to a document. *)
Lemma aplicar_debito (u : Binario) :
  let u' := aplicar (debito u) u in
  let inc := if 0 <? claimable u then puntosReclamados u else 0 in
  lReclamados u' = lReclamados u + inc /\ rReclamados u' = rReclamados u + inc /\
  lPuntos u' = lPuntos u /\ rPuntos u' = rPuntos u /\
  lExtra u' = lExtra u /\ rExtra u' = rExtra u.
Proof.
  unfold debito. cbv zeta. rewrite cobra_claimable.
  destruct (0 <? claimable u); cbn [negb].
  - destruct u; cbn. lia.
  - cbn [aplicar fold_left]. lia.
Qed.


End Cobro.




(** C7.  When the settlement call fails with an error that carries
    "Transaction Hash: " (the transaction may already be in flight), the claim
    is answered as a success and the debit is stored once: the claimed points
    of both legs go up by the increment of the settlement, [puntosReclamados]
    (by nothing when nothing was claimable); for a claimable amount the
    increment is positive, so it is applied neither zero times nor twice.  The
    increment is what a settlement that succeeds stores: the points of one
    leg, with the double of matched, and matched itself whenever the left leg
    is not the larger one or the two legs differ as JavaScript numbers. *)
Theorem ambiguous_settlement_applied_once
    (contrato : methods.Contrato) (s : Estado) (w e : string) (u : Binario) (g : Z) :
  toLowerCase w = w ->
  find (es_wallet w) (binario s) = Some u ->
  methods.corteBinarioDo_estimateGas contrato w (montoCorte u) (rangoCorte u) 0 = Some g ->
  methods.corteBinarioDo_send contrato w (montoCorte u) (rangoCorte u) 0 = Rechazado e ->
  includes "Transaction Hash: " e = true ->
  exists res s' u',
    hacerTakeProfit contrato w s = (Ok res, s') /\
    result res = true /\ error res = Some false /\
    find (es_wallet w) (binario s') = Some u' /\
    let inc := if 0 <? claimable u then puntosReclamados u else 0 in
    lReclamados u' = lReclamados u + inc /\
    rReclamados u' = rReclamados u + inc /\
    (0 < claimable u ->
     0 < matched u <= inc /\ toNumber inc = toNumber (matched u) /\
     (puntosLado izquierda u <= puntosLado derecha u \/
      toNumber (puntosLado izquierda u) <> toNumber (puntosLado derecha u) ->
      inc = matched u) /\
     lReclamados u' <> lReclamados u /\ lReclamados u' <> lReclamados u + 2 * inc /\
     rReclamados u' <> rReclamados u /\ rReclamados u' <> rReclamados u + 2 * inc).
Proof.
  intros Hw Hu Hg Hsend Hinc.
  destruct (hacerTakeProfit_presente contrato w s u g Hw Hu Hg) as (ix & E).
  rewrite Hsend, Hinc in E.
  eexists. eexists. exists (aplicar (debito u) u).
  split; [exact E |]. cbn [result error binario].
  split; [reflexivity |]. split; [reflexivity |].
  split; [now apply find_update_first |].
  pose proof (aplicar_debito u) as H. cbv zeta in *.
  destruct H as (Hl & Hr & _).
  split; [exact Hl |]. split; [exact Hr |].
  intros Hpos.
  assert (Hm : 0 < matched u).
  { apply claimable_pos in Hpos. now apply retirableBinario_pos in Hpos. }
  destruct (puntosReclamados_spec u) as (_ & Hge & Hdbl & Hexact).
  destruct (Z.ltb_spec 0 (claimable u)); [| lia].
  split; [lia |]. split; [exact Hdbl |]. split; [exact Hexact |]. lia.
Qed.

Lemma ambiguous_settlement_applied_once_witness :
  exists res s' u',
    hacerTakeProfit
      (libroCon 0 (Rechazado "Error: Transaction was not mined. Transaction Hash: 0xf00d"))
      "0xaa" (mkEstado [cuenta "0xaa" 1000 200 0 500 0 0] []) = (Ok res, s') /\
    result res = true /\ error res = Some false /\
    find (es_wallet "0xaa") (binario s') = Some u' /\
    lReclamados u' = 200 + 500 /\
    rReclamados u' = 0 + 500 /\
    (0 < 50 ->
     0 < 500 <= 500 /\ toNumber 500 = toNumber 500 /\
     (1000 - 200 + 0 <= 500 - 0 + 0 \/
      toNumber (1000 - 200 + 0) <> toNumber (500 - 0 + 0) -> 500 = 500) /\
     lReclamados u' <> 200 /\ lReclamados u' <> 200 + 2 * 500 /\
     rReclamados u' <> 0 /\ rReclamados u' <> 0 + 2 * 500).
Proof.
  exact (ambiguous_settlement_applied_once
           (libroCon 0 (Rechazado "Error: Transaction was not mined. Transaction Hash: 0xf00d"))
           (mkEstado [cuenta "0xaa" 1000 200 0 500 0 0] []) "0xaa" _
           (cuenta "0xaa" 1000 200 0 500 0 0) 21000
           eq_refl eq_refl eq_refl eq_refl eq_refl).
Defined.

(** The send of the settlement that fails with any other error: the
    collection is left as it was, so the claimed points of both legs are
    unchanged, and the caller gets the failure with the error's text. *)
Lemma failed_send_rolls_back
    (contrato : methods.Contrato) (s : Estado) (w e : string) (u : Binario) (g : Z) :
  toLowerCase w = w ->
  find (es_wallet w) (binario s) = Some u ->
  methods.corteBinarioDo_estimateGas contrato w (montoCorte u) (rangoCorte u) 0 = Some g ->
  methods.corteBinarioDo_send contrato w (montoCorte u) (rangoCorte u) 0 = Rechazado e ->
  includes "Transaction Hash: " e = false ->
  exists s',
    hacerTakeProfit contrato w s = (Ok (mkResultado false (Some true) None (Some e)), s') /\
    binario s' = binario s /\
    (exists u', find (es_wallet w) (binario s') = Some u' /\
                lReclamados u' = lReclamados u /\ rReclamados u' = rReclamados u).
Proof.
  intros Hw Hu Hg Hsend Hinc.
  destruct (hacerTakeProfit_presente contrato w s u g Hw Hu Hg) as (ix & E).
  rewrite Hsend, Hinc in E.
  eexists. split; [exact E |]. cbn [binario]. split; [reflexivity |].
  exists u. auto.
Qed.

(** C8, on the code.  The ledger reverts the settlement of 0xaa: the revert
    shows in the gas estimate that precedes the send, which no handler
    catches.  The claimed points are as they were, but [hacerTakeProfit]
    throws: its caller gets no answer with [result] and [error], where a send
    that fails gets one. *)
Theorem failed_settlement_estimate_uncaught :
  hacerTakeProfit libroRevierte "0xaa" estadoCuenta = (Throw "call rejected", estadoCuenta) /\
  (forall e, includes "Transaction Hash: " e = false ->
     fst (hacerTakeProfit (libroCon 0 (Rechazado e)) "0xaa" estadoCuenta)
     = Ok (mkResultado false (Some true) None (Some e))).
Proof.
  split; [vm_compute; reflexivity |].
  intros e He.
  destruct (failed_send_rolls_back (libroCon 0 (Rechazado e)) estadoCuenta "0xaa" e
              (cuenta "0xaa" 1000 200 0 500 0 0) 21000 eq_refl eq_refl eq_refl eq_refl He)
    as (s' & E & _).
  now rewrite E.
Qed.

(** C10.  [consultarUsuario] on the zero address answers [{}] and leaves the
    collection and the index untouched, whatever its flags, the ledger and the
    state; so it does in whatever case the address is written. *)
Theorem consultarUsuario_zero_address
    (contrato : methods.Contrato) (ag upd con : bool) (s : Estado) :
  consultarUsuario contrato "0x0000000000000000000000000000000000000000" ag upd con s
  = (Ok objeto_vacio, s) /\
  forall from,
    toLowerCase from = "0x0000000000000000000000000000000000000000"%string ->
    consultarUsuario contrato from ag upd con s = (Ok objeto_vacio, s).
Proof.
  split; [reflexivity |].
  intros from H. unfold consultarUsuario, consultarUsuario0. rewrite H. reflexivity.
Qed.

(** ** Refreshing a document from the ledger *)

Lemma nucleo_setCampo (c : Campo) (u : Binario) :
  es_de_ledger c = true -> nucleo (setCampo c u) = nucleo u.
Proof. destruct u, c; cbn; intros H; try discriminate H; reflexivity. Qed.

Lemma nucleo_aplicar (upd : Update) (u : Binario) :
  forallb es_de_ledger upd = true -> nucleo (aplicar upd u) = nucleo u.
Proof.
  unfold aplicar. revert u.
  induction upd as [| c upd IH]; intros u H; cbn [fold_left]; [reflexivity |].
  cbn [forallb] in H. apply andb_prop in H. destruct H as [Hc Hupd].
  rewrite IH by assumption. now apply nucleo_setCampo.
Qed.

Lemma extiende_refl (b : list Binario) : extiende b b.
Proof. intros w u H. exists u. auto. Qed.

Lemma extiende_trans (b1 b2 b3 : list Binario) :
  extiende b1 b2 -> extiende b2 b3 -> extiende b1 b3.
Proof.
  intros H12 H23 w u H.
  destruct (H12 w u H) as (u2 & F2 & N2).
  destruct (H23 w u2 F2) as (u3 & F3 & N3).
  exists u3. split; [assumption | congruence].
Qed.

Lemma extiende_update_first (w : string) (upd : Update) (b : list Binario) :
  forallb es_de_ledger upd = true -> extiende b (update_first w upd b).
Proof.
  intros Hupd x u H.
  destruct (String.eqb_spec w x) as [-> | Hne].
  - exists (aplicar upd u). split; [now apply find_update_first | now apply nucleo_aplicar].
  - exists u. split; [| reflexivity]. now rewrite find_update_first_otro.
Qed.

Lemma extiende_save (x : Binario) (b : list Binario) : extiende b (b ++ [x]).
Proof.
  intros w u H. exists u. split; [| reflexivity].
  induction b as [| y b IH]; cbn [find app] in *; [discriminate |].
  destruct (es_wallet w y); auto.
Qed.

Lemma cambiosDe_ledger (c : methods.Contrato) (from : string) (u : Binario) (upd : Update) :
  cambiosDe c from u = Some upd -> forallb es_de_ledger upd = true.
Proof.
  unfold cambiosDe.
  destruct (methods.porcent c); [| discriminate].
  destruct (inv_registered (leerInvestor c from)).
  - destruct (methods.addressToId c from); [| discriminate].
    destruct (methods.upline c from); [| discriminate].
    destruct (methods.verListaDepositos c from); [| discriminate].
    destruct (methods.retirableA c from); [| discriminate].
    intros [= <-].
    destruct (andb _ _); reflexivity.
  - intros [= <-]. reflexivity.
Qed.

Section Refresco.

Variable contrato : methods.Contrato.

Lemma actualizarUsuario_run (from : string) (s : Estado) :
  actualizarUsuario contrato from s =
  match find (es_wallet (toLowerCase from)) (binario s) with
  | None => (Ok false, s)
  | Some userTemp =>
      match cambiosDe contrato (toLowerCase from) userTemp with
      | None => (Throw "call rejected", s)
      | Some upd =>
          (Ok true,
           mkEstado (update_first (toLowerCase from) upd (binario s)) (binarioindexado s))
      end
  end.
Proof.
  unfold actualizarUsuario, cambiosDe, bind at 1, findOne at 1.
  destruct (find (es_wallet (toLowerCase from)) (binario s)) as [userTemp |];
    [| reflexivity].
  unfold bind at 1.
  destruct (methods.porcent contrato); [| reflexivity]. cbn [call]. unfold ret at 1.
  destruct (inv_registered (leerInvestor contrato (toLowerCase from))).
  - unfold bind at 1. unfold bind at 1.
    destruct (methods.addressToId contrato (toLowerCase from)); [| reflexivity].
    cbn [call]. unfold ret at 1. unfold bind at 1.
    destruct (methods.upline contrato (toLowerCase from)); [| reflexivity].
    cbn [call]. unfold ret at 1. unfold bind at 1.
    destruct (methods.verListaDepositos contrato (toLowerCase from)); [| reflexivity].
    cbn [call]. unfold ret at 1. unfold bind at 1.
    destruct (methods.retirableA contrato (toLowerCase from)); reflexivity.
  - reflexivity.
Qed.

End Refresco.

(** ** Relations every step of a computation keeps *)

Section Conserva.

Variable R : list Binario -> list Binario -> Prop.
Hypothesis R_refl : forall b, R b b.
Hypothesis R_trans : forall b1 b2 b3, R b1 b2 -> R b2 b3 -> R b1 b3.

Lemma conserva_ret {A} (a : A) : conserva R (ret a).
Proof. intros s. apply R_refl. Qed.

Lemma conserva_throw {A} (e : string) : conserva R (@throw A e).
Proof. intros s. apply R_refl. Qed.

Lemma conserva_call {A} (r : option A) : conserva R (call r).
Proof. destruct r; [apply conserva_ret | apply conserva_throw]. Qed.

Lemma conserva_bind {A B} (m : M A) (k : A -> M B) :
  conserva R m -> (forall a, conserva R (k a)) -> conserva R (bind m k).
Proof.
  intros Hm Hk s. unfold bind.
  specialize (Hm s). destruct (m s) as [[a | e] s1]; cbn [snd] in *; [| assumption].
  eapply R_trans; [exact Hm | apply Hk].
Qed.

(** The same, when the continuation needs a fact [P] about the value. *)
Lemma conserva_bind_val {A B} (P : A -> Prop) (m : M A) (k : A -> M B) :
  (forall s a s', m s = (Ok a, s') -> P a) ->
  conserva R m -> (forall a, P a -> conserva R (k a)) -> conserva R (bind m k).
Proof.
  intros HP Hm Hk s. unfold bind.
  specialize (Hm s). specialize (HP s).
  destruct (m s) as [[a | e] s1]; cbn [snd] in *; [| assumption].
  eapply R_trans; [exact Hm | apply Hk; eapply HP; reflexivity].
Qed.

Lemma conserva_sin_await {A} (m : M A) : conserva R m -> conserva R (sin_await m).
Proof. intros Hm s. apply Hm. Qed.

Lemma conserva_findOne (w : string) : conserva R (findOne w).
Proof. intros s. apply R_refl. Qed.

Lemma conserva_find_por (campo : Binario -> string) (w : string) :
  conserva R (find_por campo w).
Proof. intros s. apply R_refl. Qed.

Lemma conserva_get_binario : conserva R get_binario.
Proof. intros s. apply R_refl. Qed.

Lemma conserva_set_indexado (w : string) (u : option Binario) :
  conserva R (set_indexado w u).
Proof. intros s. apply R_refl. Qed.

Lemma conserva_if {A} (c : bool) (m1 m2 : M A) :
  conserva R m1 -> conserva R m2 -> conserva R (if c then m1 else m2).
Proof. destruct c; auto. Qed.

End Conserva.

(** Breaks a goal [conserva R m] down along the binds and branches of [m];
    [Hr] and [Ht] are the reflexivity and transitivity of [R]. *)
Ltac conserva_paso Hr Ht :=
  match goal with
  | |- conserva _ (bind _ _) => apply (conserva_bind _ Ht); [| intros ?]
  | |- conserva _ (ret _) => apply (conserva_ret _ Hr)
  | |- conserva _ (throw _) => apply (conserva_throw _ Hr)
  | |- conserva _ (call _) => apply (conserva_call _ Hr)
  | |- conserva _ (findOne _) => apply (conserva_findOne _ Hr)
  | |- conserva _ (find_por _ _) => apply (conserva_find_por _ Hr)
  | |- conserva _ get_binario => apply (conserva_get_binario _ Hr)
  | |- conserva _ (set_indexado _ _) => apply (conserva_set_indexado _ Hr)
  | |- conserva _ (sin_await _) => apply conserva_sin_await
  | |- conserva _ (if ?c then _ else _) => destruct c
  | |- conserva _ (match ?x with _ => _ end) => destruct x
  end.

Ltac extiende_paso := conserva_paso extiende_refl extiende_trans.

Section RefrescoExtiende.

Variable contrato : methods.Contrato.

Lemma conserva_updateOne_ledger (w : string) (upd : Update) :
  forallb es_de_ledger upd = true -> conserva extiende (updateOne w upd).
Proof. intros H s. cbn. now apply extiende_update_first. Qed.

Lemma conserva_save_extiende (u : Binario) : conserva extiende (save u).
Proof. intros s. cbn. apply extiende_save. Qed.

Lemma actualizarUsuario_extiende (from : string) :
  conserva extiende (actualizarUsuario contrato from).
Proof.
  intros s. rewrite actualizarUsuario_run.
  destruct (find (es_wallet (toLowerCase from)) (binario s)) as [u |];
    [| apply extiende_refl].
  destruct (cambiosDe contrato (toLowerCase from) u) as [upd |] eqn:E;
    [| apply extiende_refl].
  cbn [snd binario]. apply extiende_update_first.
  eapply cambiosDe_ledger; eassumption.
Qed.

Lemma crearUsuario_extiende (from : string) :
  conserva extiende (crearUsuario contrato from).
Proof.
  unfold crearUsuario.
  repeat (extiende_paso
          || apply conserva_save_extiende
          || (apply conserva_updateOne_ledger; reflexivity)).
Qed.

Lemma consultarUsuario0_extiende (from : string) (ag upd : bool) :
  conserva extiende (consultarUsuario0 contrato from ag upd).
Proof.
  unfold consultarUsuario0.
  repeat (extiende_paso || apply actualizarUsuario_extiende || apply crearUsuario_extiende).
Qed.

End RefrescoExtiende.


(** ** Aggregation *)

Lemma aplicar_app (a b : Update) (x : Binario) :
  aplicar (a ++ b) x = aplicar b (aplicar a x).
Proof. unfold aplicar. apply fold_left_app. Qed.

Lemma puntos_aplicar (l : Lado) (upd : Update) (x : Binario) :
  puntos l (aplicar upd x) = leer_puntos l upd (puntos l x).
Proof.
  unfold aplicar. revert x.
  induction upd as [| c upd IH]; intros x; cbn [fold_left leer_puntos]; [reflexivity |].
  rewrite IH. destruct c, l, x; reflexivity.
Qed.

Lemma personas_aplicar (l : Lado) (upd : Update) (x : Binario) :
  personas l (aplicar upd x) = leer_personas l upd (personas l x).
Proof.
  unfold aplicar. revert x.
  induction upd as [| c upd IH]; intros x; cbn [fold_left leer_personas]; [reflexivity |].
  rewrite IH. destruct c, l, x; reflexivity.
Qed.

Lemma fijos_aplicar (l : Lado) (upd : Update) (x : Binario) :
  forallb es_de_puntos upd = true ->
  reclamados l (aplicar upd x) = reclamados l x /\
  extra l (aplicar upd x) = extra l x /\
  hijo l (aplicar upd x) = hijo l x.
Proof.
  unfold aplicar. revert x.
  induction upd as [| c upd IH]; intros x H; cbn [fold_left]; [auto |].
  cbn [forallb] in H. apply andb_prop in H. destruct H as [Hc Hupd].
  destruct (IH (setCampo c x) Hupd) as (-> & -> & ->).
  destruct c, l, x; cbn in Hc; try discriminate Hc; auto.
Qed.

Lemma forma_de_puntos (l : Lado) (u : Binario) (upd : Update) :
  forma l u upd -> forallb es_de_puntos upd = true.
Proof.
  intros [[_ ->] | [_ [-> | [ch ->]]]]; [destruct l; reflexivity | reflexivity |].
  unfold fusion.
  destruct (_ <? _), (_ <? _), l; reflexivity.
Qed.

Lemma leer_puntos_app (l : Lado) (a b : Update) (v : Z) :
  leer_puntos l (a ++ b) v = leer_puntos l b (leer_puntos l a v).
Proof.
  revert v. induction a as [| c a IH]; intros v; cbn [app leer_puntos]; [reflexivity |].
  destruct c; apply IH.
Qed.

Lemma leer_personas_app (l : Lado) (a b : Update) (v : Z) :
  leer_personas l (a ++ b) v = leer_personas l b (leer_personas l a v).
Proof.
  revert v. induction a as [| c a IH]; intros v; cbn [app leer_personas]; [reflexivity |].
  destruct c; apply IH.
Qed.

(** The part of [newUser] written for one leg says nothing of the other. *)
Lemma leer_otro (l : Lado) (u : Binario) (upd : Update) (v : Z) :
  forma (otro l) u upd ->
  leer_puntos l upd v = v /\ leer_personas l upd v = v.
Proof.
  intros [[_ ->] | [_ [-> | [ch ->]]]]; [destruct l; auto | auto |].
  unfold fusion.
  destruct (_ <? _), (_ <? _), l; auto.
Qed.

Lemma leer_lados (l : Lado) (u : Binario) (izq der : Update) (v : Z) :
  forma izquierda u izq -> forma derecha u der ->
  let upd := match l with izquierda => izq | derecha => der end in
  leer_puntos l (izq ++ der) v = leer_puntos l upd v /\
  leer_personas l (izq ++ der) v = leer_personas l upd v.
Proof.
  intros Fi Fd. cbv zeta. rewrite leer_puntos_app, leer_personas_app.
  destruct l.
  - destruct (leer_otro izquierda u der (leer_puntos izquierda izq v) Fd) as [-> _].
    destruct (leer_otro izquierda u der (leer_personas izquierda izq v) Fd) as [_ ->].
    auto.
  - destruct (leer_otro derecha u izq v Fi) as [-> ->]. auto.
Qed.

Lemma leer_vaciar (l : Lado) (v : Z) :
  leer_puntos l (vaciar l) v = 0 /\ leer_personas l (vaciar l) v = 0.
Proof. destruct l; auto. Qed.

Lemma leer_fusion (l : Lado) (u ch : Binario) :
  leer_puntos l (fusion l u ch) (puntos l u) = mezcla (puntos l u) (aporte ch) /\
  leer_personas l (fusion l u ch) (personas l u) = mezcla (personas l u) (cabezas ch).
Proof.
  unfold fusion, mezcla.
  destruct (toNumber (puntos l u) <? toNumber (aporte ch)),
           (toNumber (personas l u) <? toNumber (cabezas ch)), l;
    cbn [app leer_puntos leer_personas c_puntos c_personas]; auto.
Qed.

(** The merge keeps the stored value or takes the new one, never lowers the
    stored value and never goes above the larger of the two, whose double it
    has; it is the larger of the two unless the new value is the larger and
    the two share a double. *)
Lemma mezcla_spec (viejo nuevo : Z) :
  (mezcla viejo nuevo = viejo \/ mezcla viejo nuevo = nuevo) /\
  viejo <= mezcla viejo nuevo <= Z.max viejo nuevo /\
  toNumber (mezcla viejo nuevo) = toNumber (Z.max viejo nuevo) /\
  (nuevo <= viejo \/ toNumber viejo <> toNumber nuevo ->
   mezcla viejo nuevo = Z.max viejo nuevo).
Proof.
  unfold mezcla.
  destruct (Z.ltb_spec (toNumber viejo) (toNumber nuevo)) as [H | H].
  - assert (viejo < nuevo) by now apply toNumber_lt.
    rewrite Z.max_r by lia.
    split; [now right |]. split; [lia |]. split; [reflexivity |]. reflexivity.
  - split; [now left |]. split; [lia |].
    destruct (Z.le_gt_cases nuevo viejo) as [Hle | Hgt].
    + rewrite Z.max_l by lia. split; [reflexivity |]. reflexivity.
    + rewrite Z.max_r by lia.
      pose proof (toNumber_mono viejo nuevo ltac:(lia)).
      split; [lia |]. intros [Hc | Hc]; lia.
Qed.

Lemma mezcla_exacta (viejo nuevo : Z) :
  Z.abs viejo <= MAX_SAFE_INTEGER -> Z.abs nuevo <= MAX_SAFE_INTEGER ->
  mezcla viejo nuevo = Z.max viejo nuevo.
Proof.
  intros Hv Hn. apply mezcla_spec. rewrite !toNumber_exacto by assumption. lia.
Qed.

Lemma mezcla_quieta (viejo nuevo : Z) :
  (toNumber (mezcla viejo nuevo) <? toNumber nuevo) = false.
Proof.
  unfold mezcla.
  destruct (Z.ltb_spec (toNumber viejo) (toNumber nuevo)) as [H | H].
  - apply Z.ltb_irrefl.
  - apply Z.ltb_ge. assumption.
Qed.

Lemma mezcla_idem (viejo nuevo : Z) :
  mezcla (mezcla viejo nuevo) nuevo = mezcla viejo nuevo.
Proof.
  unfold mezcla.
  destruct (Z.ltb_spec (toNumber viejo) (toNumber nuevo)) as [H | H].
  - now rewrite Z.ltb_irrefl.
  - destruct (Z.ltb_spec (toNumber viejo) (toNumber nuevo)); [lia | reflexivity].
Qed.

Section Agregacion.

Variable contrato : methods.Contrato.

Lemma consultarUsuario_extiende (from : string) (ag upd : bool) :
  conserva extiende (consultarUsuario contrato from ag upd false).
Proof.
  unfold consultarUsuario.
  repeat (extiende_paso || apply consultarUsuario0_extiende).
Qed.

Lemma agregarLado_forma (l : Lado) (u : Binario) (s s1 : Estado) (upd : Update) :
  agregarLado contrato l u s = (Ok upd, s1) ->
  forma l u upd /\ extiende (binario s) (binario s1).
Proof.
  unfold agregarLado.
  destruct (String.eqb_spec (hijo l u) WalletVacia) as [E | E]; cbn [negb].
  - intros [= <- <-]. split; [left; auto | apply extiende_refl].
  - unfold bind at 1.
    pose proof (consultarUsuario_extiende (hijo l u) false true s) as Hx.
    destruct (consultarUsuario contrato (hijo l u) false true false s) as [[r | e] s2];
      [| discriminate].
    cbn [snd] in Hx. unfold bind, findOne, ret.
    destruct (find (es_wallet (hijo l u)) (binario s2)) as [ch |]; intros [= <- <-].
    + split; [| assumption]. right. split; [assumption |]. right. exists ch. reflexivity.
    + split; [| assumption]. right. split; [assumption |]. now left.
Qed.

(** The shape of every successful run of [binariV2] on a document that exists. *)
Lemma binariV2_forma (w : string) (s s' : Estado) (u : Binario) (b : bool) :
  toLowerCase w = w ->
  find (es_wallet w) (binario s) = Some u ->
  binariV2 contrato w s = (Ok b, s') ->
  exists izq der u2,
    forma izquierda u izq /\ forma derecha u der /\ nucleo u2 = nucleo u /\
    find (es_wallet w) (binario s') =
      Some (aplicar [c_puntosActivos (activos (aplicar (izq ++ der) u2))]
                    (aplicar (izq ++ der) u2)) /\
    forall x ux, x <> w -> find (es_wallet x) (binario s) = Some ux ->
                 exists ux', find (es_wallet x) (binario s') = Some ux' /\ nucleo ux' = nucleo ux.
Proof.
  intros Hw Hu. unfold binariV2 . rewrite Hw.
  unfold bind at 1. unfold findOne at 1. rewrite Hu.
  unfold bind at 1. unfold bind at 1.
  destruct (agregarLado contrato izquierda u s) as [[izq | e] s1] eqn:E1; [| discriminate].
  apply agregarLado_forma in E1. destruct E1 as [F1 X1].
  unfold bind at 1.
  destruct (agregarLado contrato derecha u s1) as [[der | e] s2] eqn:E2; [| discriminate].
  apply agregarLado_forma in E2. destruct E2 as [F2 X2].
  pose proof (extiende_trans _ _ _ X1 X2) as X.
  destruct (X w u Hu) as (u2 & Hu2 & N2).
  unfold ret at 1. unfold bind at 1. unfold updateOne at 1.
  unfold bind at 1. unfold bind at 1. unfold findOne at 1. cbn [binario].
  rewrite (find_update_first w (izq ++ der) (binario s2) u2 Hu2).
  unfold updateOne at 1. unfold bind, ret. intros [= _ <-]. cbn [binario].
  exists izq, der, u2. repeat split; try assumption.
  - apply find_update_first. now apply find_update_first.
  - intros x ux Hx Fx. destruct (X x ux Fx) as (ux' & Fx' & Nx').
    exists ux'. split; [| assumption].
    rewrite !find_update_first_otro by congruence. assumption.
Qed.

(** One leg of a successful run: what was written for it, and the document
    the run leaves. *)
Lemma binariV2_lado (l : Lado) (w : string) (s s' : Estado) (u : Binario) (b : bool) :
  toLowerCase w = w ->
  find (es_wallet w) (binario s) = Some u ->
  binariV2 contrato w s = (Ok b, s') ->
  exists upd u',
    forma l u upd /\
    find (es_wallet w) (binario s') = Some u' /\
    puntos l u' = leer_puntos l upd (puntos l u) /\
    personas l u' = leer_personas l upd (personas l u) /\
    reclamados l u' = reclamados l u /\ extra l u' = extra l u /\ hijo l u' = hijo l u.
Proof.
  intros Hw Hu Hrun.
  destruct (binariV2_forma w s s' u b Hw Hu Hrun) as (izq & der & u2 & Fi & Fd & N & Fu & _).
  exists (match l with izquierda => izq | derecha => der end). eexists.
  split; [destruct l; assumption |]. split; [exact Fu |].
  assert (Hp : forallb es_de_puntos (izq ++ der) = true).
  { rewrite forallb_app, (forma_de_puntos _ _ _ Fi), (forma_de_puntos _ _ _ Fd). reflexivity. }
  rewrite !puntos_aplicar, !personas_aplicar. cbn [leer_puntos leer_personas].
  destruct (leer_lados l u izq der (puntos l u2) Fi Fd) as [-> _].
  destruct (leer_lados l u izq der (personas l u2) Fi Fd) as [_ ->].
  destruct (fijos_aplicar l [c_puntosActivos (activos (aplicar (izq ++ der) u2))]
              (aplicar (izq ++ der) u2) eq_refl) as (-> & -> & ->).
  destruct (fijos_aplicar l (izq ++ der) u2 Hp) as (-> & -> & ->).
  unfold nucleo in N. injection N; intros.
  destruct l; cbn [puntos personas reclamados extra hijo]; repeat split; congruence.
Qed.

End Agregacion.

(** C4, as stated, fails.  The account 0xaa has no left child and 800 points on
    that leg; one aggregation leaves the leg with 0 points.  And the account
    0xpp, with 800 points on its left leg, loses its left child 0xaa when 0xaa
    is resolved to the right of 0xrr: the detachment itself writes 0 points,
    and the aggregation of 0xpp that follows leaves 0, not the 800 it had. *)
Lemma aggregate_empty_leg_drops_total :
  (exists s' u',
     find (es_wallet "0xaa") [cuenta "0xaa" 800 0 0 500 0 0]
       = Some (cuenta "0xaa" 800 0 0 500 0 0) /\
     left (cuenta "0xaa" 800 0 0 500 0 0) = WalletVacia /\
     lPuntos (cuenta "0xaa" 800 0 0 500 0 0) = 800 /\
     binariV2 libro "0xaa" (mkEstado [cuenta "0xaa" 800 0 0 500 0 0] []) = (Ok true, s') /\
     find (es_wallet "0xaa") (binario s') = Some u' /\
     lPuntos u' = 0 /\
     ~ lPuntos (cuenta "0xaa" 800 0 0 500 0 0) <= lPuntos u') /\
  (exists p s1 p1 s2 p2,
     find (es_wallet "0xpp") (binario estadoAdverso) = Some p /\
     left p = "0xaa"%string /\ lPuntos p = 800 /\
     conectarUpline ledgerDerecha "0xaa" estadoAdverso = (Ok false, s1) /\
     find (es_wallet "0xpp") (binario s1) = Some p1 /\
     left p1 = WalletVacia /\ lPuntos p1 = 0 /\
     binariV2 ledgerDerecha "0xpp" s1 = (Ok true, s2) /\
     find (es_wallet "0xpp") (binario s2) = Some p2 /\
     lPuntos p2 = 0 /\ ~ lPuntos p <= lPuntos p2).
Proof.
  split.
  - eexists. eexists.
    split; [reflexivity |]. split; [reflexivity |]. split; [reflexivity |].
    split; [vm_compute; reflexivity |].
    split; [vm_compute; reflexivity |].
    split; [reflexivity |]. cbn. lia.
  - eexists. eexists. eexists. eexists. eexists.
    split; [reflexivity |]. split; [reflexivity |]. split; [reflexivity |].
    split; [vm_compute; reflexivity |].
    split; [vm_compute; reflexivity |].
    split; [reflexivity |]. split; [reflexivity |].
    split; [vm_compute; reflexivity |].
    split; [vm_compute; reflexivity |].
    split; [reflexivity |]. cbn. lia.
Qed.

(** C4, amended.  For an account whose left (respectively right) child slot is
    empty, an aggregation that completes sets that leg's total points and head
    count to 0, whatever they were. *)
Theorem aggregate_empty_leg_zeroed
    (contrato : methods.Contrato) (l : Lado) (s s' : Estado) (w : string)
    (u : Binario) (b : bool) :
  toLowerCase w = w ->
  find (es_wallet w) (binario s) = Some u ->
  hijo l u = WalletVacia ->
  binariV2 contrato w s = (Ok b, s') ->
  exists u',
    find (es_wallet w) (binario s') = Some u' /\
    puntos l u' = 0 /\ personas l u' = 0.
Proof.
  intros Hw Hu Hh Hrun.
  destruct (binariV2_lado contrato l w s s' u b Hw Hu Hrun)
    as (upd & u' & F & Fu & Hp & Hq & _).
  exists u'. split; [assumption |].
  destruct F as [[_ ->] | [Hne _]]; [| contradiction].
  rewrite Hp, Hq.
  split; [apply (leer_vaciar l (puntos l u)) | apply (leer_vaciar l (personas l u))].
Qed.

Lemma aggregate_empty_leg_zeroed_witness :
  exists u',
    find (es_wallet "0xaa")
         (binario (snd (binariV2 libro "0xaa" (mkEstado [cuenta "0xaa" 800 0 0 500 0 0] []))))
      = Some u' /\
    puntos izquierda u' = 0 /\ personas izquierda u' = 0.
Proof.
  exact (aggregate_empty_leg_zeroed libro izquierda
           (mkEstado [cuenta "0xaa" 800 0 0 500 0 0] []) _ "0xaa"
           (cuenta "0xaa" 800 0 0 500 0 0) true eq_refl eq_refl eq_refl eq_refl).
Defined.

(** ** A refresh is idempotent *)

Lemma lower_ascii_idem (c : ascii) : lower_ascii (lower_ascii c) = lower_ascii c.
Proof.
  destruct c as [b0 b1 b2 b3 b4 b5 b6 b7].
  destruct b0, b1, b2, b3, b4, b5, b6, b7; reflexivity.
Qed.

Lemma toLowerCase_idem (x : string) : toLowerCase (toLowerCase x) = toLowerCase x.
Proof.
  induction x as [| c x IH]; cbn [toLowerCase]; [reflexivity |].
  now rewrite lower_ascii_idem, IH.
Qed.

Lemma cambiosDe_exito (c : methods.Contrato) (y : string) (d d' : Binario) (upd : Update) :
  cambiosDe c y d = Some upd -> exists upd', cambiosDe c y d' = Some upd'.
Proof.
  unfold cambiosDe.
  destruct (methods.porcent c); [| discriminate].
  destruct (inv_registered (leerInvestor c y)); [| eauto].
  destruct (methods.addressToId c y); [| discriminate].
  destruct (methods.upline c y); [| discriminate].
  destruct (methods.verListaDepositos c y); [| discriminate].
  destruct (methods.retirableA c y); [| discriminate].
  eauto.
Qed.

Lemma cambiosDe_idem (c : methods.Contrato) (y : string) (d : Binario) (upd : Update) :
  cambiosDe c y d = Some upd -> fresco c y (aplicar upd d).
Proof.
  unfold fresco, cambiosDe.
  destruct (methods.porcent c); [| discriminate].
  destruct (inv_registered (leerInvestor c y)).
  - destruct (methods.addressToId c y) as [id |]; [| discriminate].
    destruct (methods.upline c y) as [[r h] |]; [| discriminate].
    destruct (methods.verListaDepositos c y) as [deps |]; [| discriminate].
    destruct (methods.retirableA c y) as [ra |]; [| discriminate].
    cbn [fst snd]. intros [= <-] upd' [= <-].
    destruct d as [w rg iv il rf p lf lr le lp lt rt rr re rp rpt ib io pa hd rta].
    cbn [referer].
    destruct (parseInt h <=? 1); cbn [andb].
    + destruct (String.eqb rf WalletVacia) eqn:Hrf;
        cbn [aplicar fold_left app setCampo referer].
      * destruct (String.eqb (toLowerCase r) WalletVacia); reflexivity.
      * rewrite Hrf. reflexivity.
    + reflexivity.
  - intros [= <-] upd' [= <-]. destruct d; reflexivity.
Qed.

Lemma paso_trans (c : methods.Contrato) (y : string) (d1 d2 d3 : Binario) :
  paso c y d1 d2 -> paso c y d2 d3 -> paso c y d1 d3.
Proof.
  intros [-> | (upd & E & ->)] H23; [assumption |].
  destruct H23 as [-> | (upd' & E' & ->)].
  - right. eauto.
  - right. exists upd. split; [assumption |].
    now apply (cambiosDe_idem c y d1 upd E).
Qed.

Lemma paso_fresco (c : methods.Contrato) (y : string) (d d' : Binario) :
  fresco c y d -> paso c y d d' -> d' = d.
Proof. intros F [-> | (upd & E & ->)]; [reflexivity | now apply F]. Qed.

Lemma refresca_refl (c : methods.Contrato) (b : list Binario) : refresca c b b.
Proof. intros y d H. exists d. split; [assumption | now left]. Qed.

Lemma refresca_trans (c : methods.Contrato) (b1 b2 b3 : list Binario) :
  refresca c b1 b2 -> refresca c b2 b3 -> refresca c b1 b3.
Proof.
  intros H12 H23 y d H.
  destruct (H12 y d H) as (d2 & F2 & P2).
  destruct (H23 y d2 F2) as (d3 & F3 & P3).
  exists d3. split; [assumption | eapply paso_trans; eassumption].
Qed.

Lemma refresca_update_first (c : methods.Contrato) (y : string) (upd : Update)
    (b : list Binario) (d : Binario) :
  find (es_wallet y) b = Some d -> cambiosDe c y d = Some upd ->
  refresca c b (update_first y upd b).
Proof.
  intros F E x dx Fx.
  destruct (String.eqb_spec y x) as [<- | Hne].
  - assert (dx = d) as -> by congruence.
    exists (aplicar upd d). split; [now apply find_update_first | right; eauto].
  - exists dx. split; [now rewrite find_update_first_otro | now left].
Qed.

Lemma refresca_save (c : methods.Contrato) (x : Binario) (b : list Binario) :
  refresca c b (b ++ [x]).
Proof.
  intros y d H. exists d. split; [| now left].
  induction b as [| z b IH]; cbn [find app] in *; [discriminate |].
  destruct (es_wallet y z); auto.
Qed.

Section RefrescoPaso.

Variable contrato : methods.Contrato.

Lemma crearUsuario_ausente (from : string) (s : Estado) :
  find (es_wallet (toLowerCase from)) (binario s) = None ->
  refresca contrato (binario s) (binario (snd (crearUsuario contrato from s))).
Proof.
  intros F. unfold crearUsuario. unfold bind at 1.
  match goal with
  | |- context [match ?m s with _ => _ end] => destruct (m s) as [[montos | e] s1] eqn:E1
  end.
  - assert (s1 = s) as ->.
    { revert E1. destruct (inv_registered (leerInvestor contrato (toLowerCase from))).
      - unfold bind, call, ret, throw.
        destruct (methods.verListaDepositos contrato (toLowerCase from)); now intros [= _ <-].
      - now intros [= _ <-]. }
    unfold bind at 1, findOne at 1. rewrite F.
    unfold bind at 1.
    match goal with
    | |- context [match ?m s with _ => _ end] => destruct (m s) as [[nu | e] s2] eqn:E2
    end.
    + assert (s2 = s) as ->.
      { revert E2. destruct (inv_registered (leerInvestor contrato (toLowerCase from))).
        - unfold bind, call, ret, throw.
          destruct (methods.addressToId contrato (toLowerCase from)); [| now intros [= <-]].
          destruct (methods.upline contrato (toLowerCase from)); now intros [= _ <-].
        - now intros [= _ <-]. }
      unfold bind, findOne. rewrite F. unfold save, ret. cbn [snd binario].
      apply refresca_save.
    + assert (s2 = s) as ->.
      { revert E2. destruct (inv_registered (leerInvestor contrato (toLowerCase from))).
        - unfold bind, call, ret, throw.
          destruct (methods.addressToId contrato (toLowerCase from)); [| now intros [= _ <-]].
          destruct (methods.upline contrato (toLowerCase from)); now intros [= _ <-].
        - intros [=]. }
      cbn [snd]. apply refresca_refl.
  - assert (s1 = s) as ->.
    { revert E1. destruct (inv_registered (leerInvestor contrato (toLowerCase from))).
      - unfold bind, call, ret, throw.
        destruct (methods.verListaDepositos contrato (toLowerCase from)); now intros [= _ <-].
      - intros [=]. }
    cbn [snd]. apply refresca_refl.
Qed.

Lemma consultarUsuario0_refresca (from : string) (ag upd : bool) :
  conserva (refresca contrato) (consultarUsuario0 contrato from ag upd).
Proof.
  intros s. unfold consultarUsuario0.
  destruct (String.eqb (toLowerCase from) "0x0000000000000000000000000000000000000000");
    [apply refresca_refl |].
  assert (Hresto : forall s1,
             refresca contrato (binario s1)
               (binario (snd (bind (findOne (toLowerCase from))
                  (fun userTemp =>
                     bind (match userTemp with
                           | None => crearUsuario contrato (toLowerCase from)
                           | Some u => ret (Some u)
                           end)
                       (fun userTemp =>
                          bind (if ag then set_indexado (toLowerCase from) userTemp else ret tt)
                               (fun _ => ret (usuario userTemp)))) s1)))).
  { intros s1. unfold bind at 1, findOne at 1.
    destruct (find (es_wallet (toLowerCase from)) (binario s1)) as [d |] eqn:F.
    - unfold bind, ret. destruct ag; cbn; apply refresca_refl.
    - unfold bind at 1.
      pose proof (crearUsuario_ausente (toLowerCase from) s1) as Hc.
      rewrite toLowerCase_idem in Hc. specialize (Hc F).
      destruct (crearUsuario contrato (toLowerCase from) s1) as [[r | e] s2];
        cbn [snd] in *; [| assumption].
      unfold bind, ret. destruct ag; cbn; assumption. }
  destruct upd.
  - unfold bind at 1. unfold bind at 1.
    rewrite actualizarUsuario_run, toLowerCase_idem.
    destruct (find (es_wallet (toLowerCase from)) (binario s)) as [d |] eqn:F.
    + destruct (cambiosDe contrato (toLowerCase from) d) as [cs |] eqn:E;
        [| apply refresca_refl].
      unfold ret at 1.
      eapply refresca_trans; [| apply Hresto]. cbn [binario].
      eapply refresca_update_first; eassumption.
    + unfold ret at 1. apply Hresto.
  - unfold bind at 1. unfold ret at 1. apply Hresto.
Qed.

Lemma consultarUsuario_refresca (from : string) (ag upd : bool) :
  conserva (refresca contrato) (consultarUsuario contrato from ag upd false).
Proof.
  unfold consultarUsuario.
  apply (conserva_bind _ (refresca_trans contrato)); [apply consultarUsuario0_refresca |].
  intros [|]; apply (conserva_ret _ (refresca_refl contrato)).
Qed.

(** Refreshing, without any other flag, a child that has a document. *)
Lemma consultarUsuario_existente (x : string) (s : Estado) (d : Binario) :
  toLowerCase x = x -> x <> WalletVacia ->
  find (es_wallet x) (binario s) = Some d ->
  consultarUsuario contrato x false true false s =
  match cambiosDe contrato x d with
  | None => (Throw "call rejected", s)
  | Some upd =>
      (Ok (usuario (Some (aplicar upd d))),
       mkEstado (update_first x upd (binario s)) (binarioindexado s))
  end.
Proof.
  intros Hx Hne F. unfold consultarUsuario, consultarUsuario0. rewrite Hx.
  destruct (String.eqb_spec x "0x0000000000000000000000000000000000000000") as [E | _];
    [contradiction |].
  unfold bind at 1. unfold bind at 1. unfold bind at 1.
  rewrite actualizarUsuario_run, Hx, F.
  destruct (cambiosDe contrato x d) as [upd |]; [| reflexivity].
  unfold ret at 1. unfold bind at 1. unfold findOne at 1. cbn [binario].
  rewrite (find_update_first x upd (binario s) d F). reflexivity.
Qed.

Lemma agregarLado_refresca (l : Lado) (u : Binario) :
  conserva (refresca contrato) (agregarLado contrato l u).
Proof.
  unfold agregarLado.
  destruct (negb (String.eqb (hijo l u) WalletVacia));
    [| apply (conserva_ret _ (refresca_refl contrato))].
  apply (conserva_bind _ (refresca_trans contrato)); [apply consultarUsuario_refresca |].
  intros _.
  apply (conserva_bind _ (refresca_trans contrato));
    [apply (conserva_findOne _ (refresca_refl contrato)) |].
  intros [ch |]; apply (conserva_ret _ (refresca_refl contrato)).
Qed.

(** A leg whose child has a document: the child is refreshed and its refreshed
    document is merged. *)
Lemma agregarLado_existente (l : Lado) (u : Binario) (s : Estado) (d : Binario) :
  hijo l u <> WalletVacia -> toLowerCase (hijo l u) = hijo l u ->
  find (es_wallet (hijo l u)) (binario s) = Some d ->
  agregarLado contrato l u s =
  match cambiosDe contrato (hijo l u) d with
  | None => (Throw "call rejected", s)
  | Some upd =>
      (Ok (fusion l u (aplicar upd d)),
       mkEstado (update_first (hijo l u) upd (binario s)) (binarioindexado s))
  end.
Proof.
  intros Hne Hlow F. unfold agregarLado.
  destruct (String.eqb_spec (hijo l u) WalletVacia) as [E | _]; [contradiction |].
  cbn [negb]. unfold bind at 1.
  rewrite (consultarUsuario_existente (hijo l u) s d Hlow Hne F).
  destruct (cambiosDe contrato (hijo l u) d) as [upd |]; [| reflexivity].
  unfold bind, findOne, ret. cbn [binario].
  rewrite (find_update_first (hijo l u) upd (binario s) d F). reflexivity.
Qed.

Lemma agregarLado_vacio (l : Lado) (u : Binario) (s : Estado) :
  hijo l u = WalletVacia -> agregarLado contrato l u s = (Ok (vaciar l), s).
Proof.
  intros E. unfold agregarLado . rewrite E. reflexivity.
Qed.

End RefrescoPaso.

Section Pasos.

Variable contrato : methods.Contrato.

(** [binariV2] put together from its two legs. *)
Lemma binariV2_compone (w : string) (s s1 s2 : Estado) (u u2 : Binario) (izq der : Update) :
  toLowerCase w = w ->
  find (es_wallet w) (binario s) = Some u ->
  agregarLado contrato izquierda u s = (Ok izq, s1) ->
  agregarLado contrato derecha u s1 = (Ok der, s2) ->
  find (es_wallet w) (binario s2) = Some u2 ->
  binariV2 contrato w s =
  (Ok true,
   mkEstado (update_first w [c_puntosActivos (activos (aplicar (izq ++ der) u2))]
               (update_first w (izq ++ der) (binario s2)))
            (binarioindexado s2)).
Proof.
  intros Hw Hu E1 E2 Hu2. unfold binariV2 . rewrite Hw.
  unfold bind at 1. unfold findOne at 1. rewrite Hu.
  unfold bind at 1. unfold bind at 1. rewrite E1.
  unfold bind at 1. rewrite E2.
  unfold ret at 1. unfold bind at 1. unfold updateOne at 1.
  unfold bind at 1. unfold bind at 1. unfold findOne at 1. cbn [binario].
  rewrite (find_update_first w (izq ++ der) (binario s2) u2 Hu2).
  reflexivity.
Qed.

(** Every successful run of [binariV2] on a document that exists, taken apart. *)
Lemma binariV2_pasos (w : string) (s s' : Estado) (u : Binario) (b : bool) :
  toLowerCase w = w ->
  find (es_wallet w) (binario s) = Some u ->
  binariV2 contrato w s = (Ok b, s') ->
  exists izq der s1 s2 u2,
    agregarLado contrato izquierda u s = (Ok izq, s1) /\
    agregarLado contrato derecha u s1 = (Ok der, s2) /\
    find (es_wallet w) (binario s2) = Some u2 /\ nucleo u2 = nucleo u /\
    b = true /\
    s' = mkEstado (update_first w [c_puntosActivos (activos (aplicar (izq ++ der) u2))]
                     (update_first w (izq ++ der) (binario s2)))
                  (binarioindexado s2).
Proof.
  intros Hw Hu Hrun.
  destruct (agregarLado contrato izquierda u s) as [[izq | e] s1] eqn:E1.
  - destruct (agregarLado contrato derecha u s1) as [[der | e] s2] eqn:E2.
    + destruct (agregarLado_forma contrato _ _ _ _ _ E1) as [_ X1].
      destruct (agregarLado_forma contrato _ _ _ _ _ E2) as [_ X2].
      destruct (extiende_trans _ _ _ X1 X2 w u Hu) as (u2 & Hu2 & N2).
      rewrite (binariV2_compone w s s1 s2 u u2 izq der Hw Hu E1 E2 Hu2) in Hrun.
      injection Hrun as <- <-.
      exists izq, der, s1, s2, u2. auto 10.
    + exfalso. revert Hrun. unfold binariV2 . rewrite Hw.
      unfold bind at 1. unfold findOne at 1. rewrite Hu.
      unfold bind at 1. unfold bind at 1. rewrite E1.
      unfold bind at 1. rewrite E2. discriminate.
  - exfalso. revert Hrun. unfold binariV2 . rewrite Hw.
    unfold bind at 1. unfold findOne at 1. rewrite Hu.
    unfold bind at 1. unfold bind at 1. rewrite E1. discriminate.
Qed.

(** The child document a well-hung, non-empty leg was merged with: it is the
    one the collection holds once both legs are done, and it is fresh. *)
Lemma lado_leido (l : Lado) (w : string) (s s1 s2 : Estado) (u d : Binario)
    (izq der : Update) :
  agregarLado contrato izquierda u s = (Ok izq, s1) ->
  agregarLado contrato derecha u s1 = (Ok der, s2) ->
  hijo l u <> WalletVacia -> toLowerCase (hijo l u) = hijo l u ->
  find (es_wallet (hijo l u)) (binario s) = Some d ->
  exists ch,
    find (es_wallet (hijo l u)) (binario s2) = Some ch /\
    fresco contrato (hijo l u) ch /\
    (exists upd, cambiosDe contrato (hijo l u) ch = Some upd) /\
    match l with izquierda => izq | derecha => der end = fusion l u ch.
Proof.
  intros E1 E2 Hne Hlow F. destruct l.
  - pose proof (agregarLado_refresca contrato derecha u s1) as Hr.
    rewrite E2 in Hr. cbn [snd] in Hr.
    rewrite (agregarLado_existente contrato izquierda u s d Hne Hlow F) in E1.
    destruct (cambiosDe contrato (hijo izquierda u) d) as [upd |] eqn:Ec; [| discriminate].
    injection E1 as <- <-.
    pose proof (cambiosDe_idem _ _ _ _ Ec) as Hf.
    cbn [binario] in Hr.
    destruct (Hr (hijo izquierda u) (aplicar upd d)) as (ch & Fch & P);
      [now apply find_update_first |].
    apply (paso_fresco _ _ _ _ Hf) in P. subst ch.
    exists (aplicar upd d). repeat split; try assumption.
    eapply cambiosDe_exito; eassumption.
  - pose proof (agregarLado_refresca contrato izquierda u s) as Hr.
    rewrite E1 in Hr. cbn [snd] in Hr.
    destruct (Hr (hijo derecha u) d F) as (d1 & F1 & _).
    rewrite (agregarLado_existente contrato derecha u s1 d1 Hne Hlow F1) in E2.
    destruct (cambiosDe contrato (hijo derecha u) d1) as [upd |] eqn:Ec; [| discriminate].
    injection E2 as <- <-.
    exists (aplicar upd d1). cbn [binario]. repeat split.
    + now apply find_update_first.
    + eapply cambiosDe_idem; eassumption.
    + eapply cambiosDe_exito; eassumption.
Qed.

(** The fields of the document a run leaves, leg by leg. *)
Lemma final_lado (l : Lado) (u u2 : Binario) (izq der : Update) :
  forma izquierda u izq -> forma derecha u der -> nucleo u2 = nucleo u ->
  let u' := aplicar [c_puntosActivos (activos (aplicar (izq ++ der) u2))]
                    (aplicar (izq ++ der) u2) in
  let upd := match l with izquierda => izq | derecha => der end in
  puntos l u' = leer_puntos l upd (puntos l u) /\
  personas l u' = leer_personas l upd (personas l u) /\
  reclamados l u' = reclamados l u /\ extra l u' = extra l u /\ hijo l u' = hijo l u.
Proof.
  intros Fi Fd N. cbv zeta.
  assert (Hp : forallb es_de_puntos (izq ++ der) = true).
  { rewrite forallb_app, (forma_de_puntos _ _ _ Fi), (forma_de_puntos _ _ _ Fd). reflexivity. }
  rewrite !puntos_aplicar, !personas_aplicar. cbn [leer_puntos leer_personas].
  destruct (leer_lados l u izq der (puntos l u2) Fi Fd) as [-> _].
  destruct (leer_lados l u izq der (personas l u2) Fi Fd) as [_ ->].
  destruct (fijos_aplicar l [c_puntosActivos (activos (aplicar (izq ++ der) u2))]
              (aplicar (izq ++ der) u2) eq_refl) as (-> & -> & ->).
  destruct (fijos_aplicar l (izq ++ der) u2 Hp) as (-> & -> & ->).
  unfold nucleo in N. injection N; intros.
  destruct l; cbn [puntos personas reclamados extra hijo]; repeat split; congruence.
Qed.

End Pasos.

(** C5, as stated, fails.  0xaa holds 10^20 points on its left leg and its
    left child 0xbb, who has invested 10^20 + 1, hands up 10^20 + 1 points:
    the two are one and the same JavaScript number, and the aggregation leaves
    the leg at 10^20, not at the larger of the two. *)
Lemma aggregate_merge_not_max :
  exists u' child,
    find (es_wallet "0xaa")
      (binario (snd (binariV2 (libroCon 100000000000000000001 (Minado "0xf00d")) "0xaa"
                       (mkEstado [nodo "0xaa" "0xbb" WalletVacia 100000000000000000000 0;
                                  nodo "0xbb" WalletVacia WalletVacia 0 0] []))))
      = Some u' /\
    find (es_wallet "0xbb")
      (binario (snd (binariV2 (libroCon 100000000000000000001 (Minado "0xf00d")) "0xaa"
                       (mkEstado [nodo "0xaa" "0xbb" WalletVacia 100000000000000000000 0;
                                  nodo "0xbb" WalletVacia WalletVacia 0 0] []))))
      = Some child /\
    invested child * factorPuntos / 100 + lPuntos child + rPuntos child
    = 100000000000000000001 /\
    puntos izquierda u' = 100000000000000000000 /\
    puntos izquierda u' <>
      Z.max 100000000000000000000
            (invested child * factorPuntos / 100 + lPuntos child + rPuntos child).
Proof.
  eexists. eexists. split; [vm_compute; reflexivity |].
  split; [vm_compute; reflexivity |].
  split; [reflexivity |]. split; [reflexivity |]. discriminate.
Qed.

(** C5, amended.  For an account whose left (respectively right) slot names a
    child account of the collection, an aggregation that completes leaves that
    leg with the child's contribution, child.invested * factorPuntos / 100 +
    child.lPuntos + child.rPuntos, when that is above the current total points
    as a JavaScript number, and with the current total points otherwise; and
    likewise with the head count and 1 + child.lPersonas + child.rPersonas.
    So neither value is lowered, neither goes above the larger of the two, and
    each is max(current, contribution) whenever the contribution is not the
    larger one or the two differ as JavaScript numbers, so whenever both are
    at most [MAX_SAFE_INTEGER] in magnitude.  The child is the child's
    document once refreshed from the ledger, as the collection then holds it. *)
Theorem aggregate_max_merge
    (contrato : methods.Contrato) (l : Lado) (s s' : Estado) (w : string)
    (u d : Binario) (b : bool) :
  toLowerCase w = w ->
  find (es_wallet w) (binario s) = Some u ->
  hijo l u <> WalletVacia ->
  toLowerCase (hijo l u) = hijo l u ->
  hijo l u <> w ->
  find (es_wallet (hijo l u)) (binario s) = Some d ->
  binariV2 contrato w s = (Ok b, s') ->
  exists u' child,
    find (es_wallet w) (binario s') = Some u' /\
    find (es_wallet (hijo l u)) (binario s') = Some child /\
    let puntosH := invested child * factorPuntos / 100 + lPuntos child + rPuntos child in
    let personasH := 1 + lPersonas child + rPersonas child in
    puntos l u' =
      (if toNumber (puntos l u) <? toNumber puntosH then puntosH else puntos l u) /\
    personas l u' =
      (if toNumber (personas l u) <? toNumber personasH then personasH else personas l u) /\
    puntos l u <= puntos l u' <= Z.max (puntos l u) puntosH /\
    personas l u <= personas l u' <= Z.max (personas l u) personasH /\
    (puntosH <= puntos l u \/ toNumber (puntos l u) <> toNumber puntosH ->
     puntos l u' = Z.max (puntos l u) puntosH) /\
    (personasH <= personas l u \/ toNumber (personas l u) <> toNumber personasH ->
     personas l u' = Z.max (personas l u) personasH) /\
    (Z.abs (puntos l u) <= MAX_SAFE_INTEGER -> Z.abs puntosH <= MAX_SAFE_INTEGER ->
     puntos l u' = Z.max (puntos l u) puntosH) /\
    (Z.abs (personas l u) <= MAX_SAFE_INTEGER -> Z.abs personasH <= MAX_SAFE_INTEGER ->
     personas l u' = Z.max (personas l u) personasH).
Proof.
  intros Hw Hu Hne Hlow Hself Fd Hrun.
  destruct (binariV2_pasos contrato w s s' u b Hw Hu Hrun)
    as (izq & der & s1 & s2 & u2 & E1 & E2 & Hu2 & N & _ & ->).
  destruct (lado_leido contrato l w s s1 s2 u d izq der E1 E2 Hne Hlow Fd)
    as (ch & Fch & _ & _ & Hupd).
  destruct (agregarLado_forma contrato _ _ _ _ _ E1) as [Fi _].
  destruct (agregarLado_forma contrato _ _ _ _ _ E2) as [Fde _].
  destruct (final_lado l u u2 izq der Fi Fde N) as (Hp & Hq & _).
  cbv zeta in Hp, Hq. rewrite Hupd in Hp, Hq.
  destruct (leer_fusion l u ch) as [Lp Lq]. rewrite Lp in Hp. rewrite Lq in Hq.
  eexists. exists ch. cbn [binario].
  split; [apply find_update_first; apply find_update_first; exact Hu2 |].
  split; [rewrite !find_update_first_otro by congruence; exact Fch |].
  cbv zeta. fold (aporte ch). fold (cabezas ch). rewrite Hp, Hq.
  destruct (mezcla_spec (puntos l u) (aporte ch)) as (_ & P1 & _ & P2).
  destruct (mezcla_spec (personas l u) (cabezas ch)) as (_ & Q1 & _ & Q2).
  split; [reflexivity |]. split; [reflexivity |].
  split; [exact P1 |]. split; [exact Q1 |]. split; [exact P2 |]. split; [exact Q2 |].
  split; intros; now apply mezcla_exacta.
Qed.

Lemma aggregate_max_merge_witness :
  exists u' child,
    find (es_wallet "0xaa")
      (binario (snd (binariV2 (libroCon 100 (Minado "0xf00d")) "0xaa"
                       (mkEstado [nodo "0xaa" "0xbb" WalletVacia 50 0;
                                  nodo "0xbb" WalletVacia WalletVacia 30 20] []))))
      = Some u' /\
    find (es_wallet "0xbb")
      (binario (snd (binariV2 (libroCon 100 (Minado "0xf00d")) "0xaa"
                       (mkEstado [nodo "0xaa" "0xbb" WalletVacia 50 0;
                                  nodo "0xbb" WalletVacia WalletVacia 30 20] []))))
      = Some child /\
    let puntosH := invested child * factorPuntos / 100 + lPuntos child + rPuntos child in
    let personasH := 1 + lPersonas child + rPersonas child in
    puntos izquierda u' = (if toNumber 50 <? toNumber puntosH then puntosH else 50) /\
    personas izquierda u' = (if toNumber 0 <? toNumber personasH then personasH else 0) /\
    50 <= puntos izquierda u' <= Z.max 50 puntosH /\
    0 <= personas izquierda u' <= Z.max 0 personasH /\
    (puntosH <= 50 \/ toNumber 50 <> toNumber puntosH ->
     puntos izquierda u' = Z.max 50 puntosH) /\
    (personasH <= 0 \/ toNumber 0 <> toNumber personasH ->
     personas izquierda u' = Z.max 0 personasH) /\
    (Z.abs 50 <= MAX_SAFE_INTEGER -> Z.abs puntosH <= MAX_SAFE_INTEGER ->
     puntos izquierda u' = Z.max 50 puntosH) /\
    (Z.abs 0 <= MAX_SAFE_INTEGER -> Z.abs personasH <= MAX_SAFE_INTEGER ->
     personas izquierda u' = Z.max 0 personasH).
Proof.
  apply (aggregate_max_merge (libroCon 100 (Minado "0xf00d")) izquierda
           (mkEstado [nodo "0xaa" "0xbb" WalletVacia 50 0;
                      nodo "0xbb" WalletVacia WalletVacia 30 20] []) _ "0xaa"
           (nodo "0xaa" "0xbb" WalletVacia 50 0)
           (nodo "0xbb" WalletVacia WalletVacia 30 20) true);
    [reflexivity | reflexivity | discriminate | reflexivity | discriminate
    | reflexivity | vm_compute; reflexivity].
Defined.

(** ** Aggregating twice *)

Lemma aplicar_vaciar_fijo (l : Lado) (x : Binario) :
  puntos l x = 0 -> personas l x = 0 -> aplicar (vaciar l) x = x.
Proof. destruct l, x; cbn; intros -> ->; reflexivity. Qed.

Lemma aplicar_activos_fijo (v : Binario) :
  let x := aplicar [c_puntosActivos (activos v)] v in
  aplicar [c_puntosActivos (activos x)] x = x.
Proof. destruct v; reflexivity. Qed.

Section DosVeces.

Variable contrato : methods.Contrato.

(** A leg on the second run: nothing is refreshed anew and nothing is written. *)
Lemma lado_quieto (l : Lado) (s1 : Estado) (u u1 : Binario) (upd : Update) :
  hijo l u1 = hijo l u ->
  puntos l u1 = leer_puntos l upd (puntos l u) ->
  personas l u1 = leer_personas l upd (personas l u) ->
  (hijo l u = WalletVacia /\ upd = vaciar l) \/
  (hijo l u <> WalletVacia /\ toLowerCase (hijo l u) = hijo l u /\
   exists ch, find (es_wallet (hijo l u)) (binario s1) = Some ch /\
              fresco contrato (hijo l u) ch /\
              (exists cs, cambiosDe contrato (hijo l u) ch = Some cs) /\
              upd = fusion l u ch) ->
  exists upd', agregarLado contrato l u1 s1 = (Ok upd', s1) /\ aplicar upd' u1 = u1.
Proof.
  intros Hh Hp Hq [[He ->] | (Hne & Hlow & ch & Fch & Hf & (cs & Ec) & ->)].
  - exists (vaciar l). split.
    + apply agregarLado_vacio. congruence.
    + destruct (leer_vaciar l (puntos l u)) as [Ep _].
      destruct (leer_vaciar l (personas l u)) as [_ Eq].
      apply aplicar_vaciar_fijo; congruence.
  - exists []. split; [| reflexivity].
    rewrite <- Hh in Hne, Hlow, Fch.
    rewrite (agregarLado_existente contrato l u1 s1 ch Hne Hlow Fch).
    rewrite Hh. rewrite Ec. rewrite (Hf cs Ec).
    rewrite (update_first_fijo (hijo l u) cs (binario s1) ch); [| congruence | auto].
    destruct (leer_fusion l u ch) as [Lp Lq].
    rewrite Lp in Hp. rewrite Lq in Hq.
    unfold fusion. rewrite Hp, Hq, !mezcla_quieta.
    destruct s1; reflexivity.
Qed.

End DosVeces.

(** C6.  On an account of the collection whose non-empty child slots name other
    accounts of the collection, an aggregation run right after one that
    completed, the ledger being the same, completes and leaves the whole state
    as the first run left it: the account's point fields (total points and head
    count of each leg, active points) are the same after both runs. *)
Theorem aggregate_idempotent
    (contrato : methods.Contrato) (s s1 : Estado) (w : string) (u : Binario) (b : bool) :
  toLowerCase w = w ->
  find (es_wallet w) (binario s) = Some u ->
  bien_colgado (binario s) w u izquierda ->
  bien_colgado (binario s) w u derecha ->
  binariV2 contrato w s = (Ok b, s1) ->
  exists s2 u1 u2,
    binariV2 contrato w s1 = (Ok true, s2) /\
    find (es_wallet w) (binario s1) = Some u1 /\
    find (es_wallet w) (binario s2) = Some u2 /\
    (lPuntos u2, lPersonas u2, rPuntos u2, rPersonas u2, puntosActivos u2)
    = (lPuntos u1, lPersonas u1, rPuntos u1, rPersonas u1, puntosActivos u1) /\
    s2 = s1.
Proof.
  intros Hw Hu Bi Bd Hrun.
  destruct (binariV2_pasos contrato w s s1 u b Hw Hu Hrun)
    as (izq & der & sa & sb & u2 & E1 & E2 & Hu2 & N & _ & ->).
  destruct (agregarLado_forma contrato _ _ _ _ _ E1) as [Fi _].
  destruct (agregarLado_forma contrato _ _ _ _ _ E2) as [Fde _].
  set (v := aplicar (izq ++ der) u2).
  set (u1 := aplicar [c_puntosActivos (activos v)] v).
  set (B1 := update_first w [c_puntosActivos (activos v)]
               (update_first w (izq ++ der) (binario sb))).
  assert (Fu1 : find (es_wallet w) B1 = Some u1).
  { apply find_update_first. now apply find_update_first. }
  assert (Hleg : forall l, bien_colgado (binario s) w u l ->
             exists upd', agregarLado contrato l u1 (mkEstado B1 (binarioindexado sb))
                          = (Ok upd', mkEstado B1 (binarioindexado sb)) /\
                          aplicar upd' u1 = u1).
  { intros l Bl.
    destruct (final_lado l u u2 izq der Fi Fde N) as (Hp & Hq & _ & _ & Hh).
    fold v in Hp, Hq, Hh. fold u1 in Hp, Hq, Hh. cbv zeta in Hp, Hq.
    apply (lado_quieto contrato l _ u u1 _ Hh Hp Hq).
    destruct (String.eqb_spec (hijo l u) WalletVacia) as [He | Hne].
    - left. split; [assumption |].
      destruct l; [destruct Fi as [[_ ?] | [? _]] | destruct Fde as [[_ ?] | [? _]]];
        solve [assumption | contradiction].
    - destruct Bl as [He | (Hlow & Hself & d & Fd)]; [contradiction |].
      right. split; [assumption |]. split; [assumption |].
      destruct (lado_leido contrato l w s sa sb u d izq der E1 E2 Hne Hlow Fd)
        as (ch & Fch & Hf & Hc & Hupd).
      exists ch. cbn [binario]. unfold B1.
      rewrite !find_update_first_otro by congruence. auto. }
  destruct (Hleg izquierda Bi) as (izq' & Ei & Ai).
  destruct (Hleg derecha Bd) as (der' & Ed & Ad).
  exists (mkEstado B1 (binarioindexado sb)), u1, u1.
  split.
  - rewrite (binariV2_compone contrato w
               (mkEstado B1 (binarioindexado sb)) (mkEstado B1 (binarioindexado sb))
               (mkEstado B1 (binarioindexado sb)) u1 u1 izq' der' Hw Fu1 Ei Ed Fu1).
    cbn [binario binarioindexado]. rewrite aplicar_app, Ai, Ad.
    rewrite (update_first_fijo w (izq' ++ der') B1 u1 Fu1)
      by (now rewrite aplicar_app, Ai, Ad).
    rewrite (update_first_fijo w _ B1 u1 Fu1); [reflexivity |].
    apply (aplicar_activos_fijo v).
  - cbn [binario]. auto.
Qed.

Lemma aggregate_idempotent_witness :
  exists s2 u1 u2,
    binariV2 (libroCon 100 (Minado "0xf00d")) "0xaa"
      (snd (binariV2 (libroCon 100 (Minado "0xf00d")) "0xaa"
              (mkEstado [nodo "0xaa" "0xbb" WalletVacia 50 0;
                         nodo "0xbb" WalletVacia WalletVacia 30 20] [])))
    = (Ok true, s2) /\
    find (es_wallet "0xaa")
      (binario (snd (binariV2 (libroCon 100 (Minado "0xf00d")) "0xaa"
                       (mkEstado [nodo "0xaa" "0xbb" WalletVacia 50 0;
                                  nodo "0xbb" WalletVacia WalletVacia 30 20] []))))
      = Some u1 /\
    find (es_wallet "0xaa") (binario s2) = Some u2 /\
    (lPuntos u2, lPersonas u2, rPuntos u2, rPersonas u2, puntosActivos u2)
    = (lPuntos u1, lPersonas u1, rPuntos u1, rPersonas u1, puntosActivos u1) /\
    s2 = snd (binariV2 (libroCon 100 (Minado "0xf00d")) "0xaa"
                (mkEstado [nodo "0xaa" "0xbb" WalletVacia 50 0;
                           nodo "0xbb" WalletVacia WalletVacia 30 20] [])).
Proof.
  apply (aggregate_idempotent (libroCon 100 (Minado "0xf00d"))
           (mkEstado [nodo "0xaa" "0xbb" WalletVacia 50 0;
                      nodo "0xbb" WalletVacia WalletVacia 30 20] []) _ "0xaa"
           (nodo "0xaa" "0xbb" WalletVacia 50 0) true).
  - reflexivity.
  - reflexivity.
  - right. split; [reflexivity |]. split; [discriminate |].
    exists (nodo "0xbb" WalletVacia WalletVacia 30 20). reflexivity.
  - left. reflexivity.
  - vm_compute. reflexivity.
Defined.

(** Outside a tree the second run differs: an account that is its own left
    child adds its own points to its left leg on every run. *)
Remark aggregate_self_loop_grows :
  map (fun u => (wallet u, lPuntos u))
      (binario (snd (binariV2 (libroCon 100 (Minado "0xf00d")) "0xaa"
                       (mkEstado [nodo "0xaa" "0xaa" WalletVacia 0 0] []))))
  = [("0xaa"%string, 100)] /\
  map (fun u => (wallet u, lPuntos u))
      (binario (snd (binariV2 (libroCon 100 (Minado "0xf00d")) "0xaa"
                       (snd (binariV2 (libroCon 100 (Minado "0xf00d")) "0xaa"
                               (mkEstado [nodo "0xaa" "0xaa" WalletVacia 0 0] []))))))
  = [("0xaa"%string, 200)].
Proof. split; vm_compute; reflexivity. Qed.

(** ** Placement never touches the claimed points *)

Lemma ablandado_refl (d : Binario) : ablandado d d.
Proof. intros l. auto. Qed.

Lemma ablandado_trans (d1 d2 d3 : Binario) :
  ablandado d1 d2 -> ablandado d2 d3 -> ablandado d1 d3.
Proof.
  intros H12 H23 l. destruct (H12 l) as (R1 & X1 & P1). destruct (H23 l) as (R2 & X2 & P2).
  repeat split; try congruence. destruct P1, P2; [left | right | right | right]; congruence.
Qed.

Lemma ablandado_setCampo (c : Campo) (d : Binario) :
  es_blando c = true -> ablandado d (setCampo c d).
Proof.
  intros H l. destruct c, l, d; cbn in *; try discriminate H; auto;
    apply Z.eqb_eq in H; auto.
Qed.

Lemma ablandado_aplicar (upd : Update) (d : Binario) :
  forallb es_blando upd = true -> ablandado d (aplicar upd d).
Proof.
  unfold aplicar. revert d.
  induction upd as [| c upd IH]; intros d H; cbn [fold_left]; [apply ablandado_refl |].
  cbn [forallb] in H. apply andb_prop in H. destruct H as [Hc Hupd].
  eapply ablandado_trans; [apply ablandado_setCampo; eassumption | now apply IH].
Qed.

Lemma blanda_refl (b : list Binario) : blanda b b.
Proof. intros y d H. exists d. split; [assumption | apply ablandado_refl]. Qed.

Lemma blanda_trans (b1 b2 b3 : list Binario) : blanda b1 b2 -> blanda b2 b3 -> blanda b1 b3.
Proof.
  intros H12 H23 y d H.
  destruct (H12 y d H) as (d2 & F2 & A2). destruct (H23 y d2 F2) as (d3 & F3 & A3).
  exists d3. split; [assumption | eapply ablandado_trans; eassumption].
Qed.

Lemma extiende_blanda (b b' : list Binario) : extiende b b' -> blanda b b'.
Proof.
  intros H y d F. destruct (H y d F) as (d' & F' & N). exists d'. split; [assumption |].
  unfold nucleo in N. injection N; intros.
  intros l. destruct l; cbn [reclamados extra puntos]; auto.
Qed.

Lemma conserva_mono (R R' : list Binario -> list Binario -> Prop) {A} (m : M A) :
  (forall b b', R b b' -> R' b b') -> conserva R m -> conserva R' m.
Proof. intros H Hm s. apply H, Hm. Qed.

Lemma conserva_updateOne_blando (w : string) (upd : Update) :
  forallb es_blando upd = true -> conserva blanda (updateOne w upd).
Proof.
  intros H s y d F. cbn [updateOne snd binario].
  destruct (String.eqb_spec w y) as [-> | Hne].
  - exists (aplicar upd d). split; [now apply find_update_first | now apply ablandado_aplicar].
  - exists d. split; [now rewrite find_update_first_otro | apply ablandado_refl].
Qed.

Lemma soltar_blando (l : Lado) : forallb es_blando (soltar l) = true.
Proof. destruct l; reflexivity. Qed.

Ltac blanda_paso := conserva_paso blanda_refl blanda_trans.

Section Ubicacion.

Variable contrato : methods.Contrato.

Lemma consultarUsuario0_blanda (from : string) (ag upd : bool) :
  conserva blanda (consultarUsuario0 contrato from ag upd).
Proof.
  apply (conserva_mono extiende); [apply extiende_blanda | apply consultarUsuario0_extiende].
Qed.

Lemma ubicar_blanda (l : Lado) (fuel : nat) (from buscando : string) (lista : list string) :
  conserva blanda (ubicar contrato l fuel from buscando lista).
Proof.
  revert buscando lista.
  induction fuel as [| fuel IH]; intros buscando lista; cbn [ubicar].
  - apply (conserva_throw _ blanda_refl).
  - repeat (blanda_paso
            || apply consultarUsuario0_blanda
            || apply IH
            || (apply conserva_updateOne_blando;
                solve [reflexivity | apply soltar_blando | destruct l; reflexivity])).
Qed.

Lemma soltarOtros_blanda (l : Lado) (ubication : list Binario) (index ganador : nat)
    (wganador : string) :
  conserva blanda (soltarOtros l ubication index ganador wganador).
Proof.
  revert index. induction ubication as [| x r IH]; intros index; cbn [soltarOtros].
  - apply (conserva_ret _ blanda_refl).
  - repeat (blanda_paso || apply IH
            || (apply conserva_updateOne_blando; apply soltar_blando)).
Qed.

Lemma soltarAdversos_blanda (l : Lado) (adverso : list Binario) :
  conserva blanda (soltarAdversos l adverso).
Proof.
  induction adverso as [| x r IH]; cbn [soltarAdversos].
  - apply (conserva_ret _ blanda_refl).
  - repeat (blanda_paso || apply IH
            || (apply conserva_updateOne_blando; apply soltar_blando)).
Qed.

Lemma conectarLado_blanda (l : Lado) (from referer_ : string) (userTemp : Binario) :
  conserva blanda (conectarLado contrato l from referer_ userTemp).
Proof.
  unfold conectarLado.
  repeat (blanda_paso
          || apply ubicar_blanda || apply soltarOtros_blanda || apply soltarAdversos_blanda
          || (apply conserva_updateOne_blando; reflexivity)).
Qed.

Lemma conectarUpline_blanda (from : string) :
  conserva blanda (conectarUpline contrato from).
Proof.
  unfold conectarUpline.
  repeat (match goal with
          | |- conserva _ (bind _ (fun x => bind (updateOne _ x) _)) =>
              apply (conserva_bind_val _ blanda_trans
                       (fun a => forallb es_blando a = true));
              [ intros s0 a0 s0' Hnu | | intros newUser HnewUser ]
          | |- conserva _ (updateOne _ ?a) =>
              apply conserva_updateOne_blando; assumption
          end
          || blanda_paso
          || apply conectarLado_blanda || apply consultarUsuario0_blanda).
  match goal with
  | H : (if ?c then _ else _) _ = _ |- _ => destruct c
  end.
  - unfold bind, ret in Hnu.
    match goal with
    | H : match ?x with _ => _ end = _ |- _ => destruct x as [[? | ?] ?]
    end; [| discriminate].
    injection Hnu as <- _.
    match goal with |- context [if ?c then _ else _] => destruct c end; reflexivity.
  - injection Hnu as <- _. reflexivity.
Qed.

End Ubicacion.

(** ** The claimed points stay covered, unless a leg is reset *)



Section Cubierto.

Variable contrato : methods.Contrato.

Lemma hacerTakeProfit_lower (w : string) (s : Estado) :
  hacerTakeProfit contrato w s = hacerTakeProfit contrato (toLowerCase w) s.
Proof. unfold hacerTakeProfit. now rewrite toLowerCase_idem. Qed.

Lemma binariV2_lower (w : string) (s : Estado) :
  binariV2 contrato w s = binariV2 contrato (toLowerCase w) s.
Proof. unfold binariV2. now rewrite toLowerCase_idem. Qed.

(** The collection after [hacerTakeProfit], whatever it answers. *)
Lemma hacerTakeProfit_estado (w : string) (s : Estado) :
  toLowerCase w = w ->
  binario (snd (hacerTakeProfit contrato w s)) = binario s \/
  exists u, find (es_wallet w) (binario s) = Some u /\
            binario (snd (hacerTakeProfit contrato w s))
            = update_first w (debito u) (binario s).
Proof.
  intros Hw.
  destruct (find (es_wallet w) (binario s)) as [u |] eqn:Hu.
  - destruct (methods.corteBinarioDo_estimateGas contrato w (montoCorte u) (rangoCorte u) 0)
      as [g |] eqn:Hg.
    + destruct (hacerTakeProfit_presente contrato w s u g Hw Hu Hg) as (ix & E).
      rewrite E.
      destruct (methods.corteBinarioDo_send contrato w (montoCorte u) (rangoCorte u) 0)
        as [h | e]; [right; eauto |].
      destruct (includes "Transaction Hash: " e); [right; eauto | left; reflexivity].
    + left. now rewrite (hacerTakeProfit_sin_gas contrato w s u Hw Hu Hg).
  - left. now rewrite (hacerTakeProfit_ausente contrato w s Hw Hu).
Qed.


Lemma agregarLado_extiende (l : Lado) (u : Binario) :
  conserva extiende (agregarLado contrato l u).
Proof.
  unfold agregarLado.
  repeat (extiende_paso || apply consultarUsuario_extiende).
Qed.

(** A run of [binariV2] that throws has written no points. *)
Lemma binariV2_throw (w : string) (s s' : Estado) (u : Binario) (e : string) :
  toLowerCase w = w ->
  find (es_wallet w) (binario s) = Some u ->
  binariV2 contrato w s = (Throw e, s') ->
  extiende (binario s) (binario s').
Proof.
  intros Hw Hu Hrun.
  pose proof (agregarLado_extiende izquierda u s) as X1.
  destruct (agregarLado contrato izquierda u s) as [[izq | e1] s1] eqn:E1; cbn [snd] in X1.
  - pose proof (agregarLado_extiende derecha u s1) as X2.
    destruct (agregarLado contrato derecha u s1) as [[der | e2] s2] eqn:E2; cbn [snd] in X2.
    + destruct (extiende_trans _ _ _ X1 X2 w u Hu) as (u2 & Hu2 & _).
      rewrite (binariV2_compone contrato w s s1 s2 u u2 izq der Hw Hu E1 E2 Hu2) in Hrun.
      discriminate.
    + revert Hrun. unfold binariV2 . rewrite Hw.
      unfold bind at 1. unfold findOne at 1. rewrite Hu.
      unfold bind at 1. unfold bind at 1. rewrite E1.
      unfold bind at 1. rewrite E2. intros [= _ <-].
      eapply extiende_trans; eassumption.
  - revert Hrun. unfold binariV2 . rewrite Hw.
    unfold bind at 1. unfold findOne at 1. rewrite Hu.
    unfold bind at 1. unfold bind at 1. rewrite E1. intros [= _ <-]. assumption.
Qed.



End Cubierto.

Section CubiertoTodo.

Variable contrato : methods.Contrato.




End CubiertoTodo.


(** A settlement too can leave a leg uncovered: with 10^21 + 1 effective
    points on the left and 10^21 on the right, one and the same JavaScript
    number, it debits 10^21 + 1 on both legs and the right leg is left with
    10^21 + 1 points claimed out of 10^21. *)
Remark claimed_bound_broken_by_settlement :
  exists res s' u',
    cubierto derecha (cuenta "0xaa" 1000000000000000000001 0 0 1000000000000000000000 0 0) /\
    hacerTakeProfit libro "0xaa"
      (mkEstado [cuenta "0xaa" 1000000000000000000001 0 0 1000000000000000000000 0 0] [])
    = (Ok res, s') /\
    find (es_wallet "0xaa") (binario s') = Some u' /\
    rReclamados u' = 1000000000000000000001 /\ rPuntos u' = 1000000000000000000000 /\
    rExtra u' = 0 /\ ~ cubierto derecha u'.
Proof.
  eexists. eexists. eexists.
  split; [unfold cubierto; cbn; lia |].
  split; [vm_compute; reflexivity |].
  split; [vm_compute; reflexivity |].
  repeat (split; [reflexivity |]).
  unfold cubierto. cbn. lia.
Qed.



(** C3, on the code.  0xp9 (idBlock 9) and 0xp5 (idBlock 5) both hold 0xaa as
    their left child.  Resolving 0xaa picks 0xp5, the lower idBlock, as its
    upline, and then clears the left slot and left points of 0xp5 itself,
    while 0xp9 still holds 0xaa: the winner loses the slot and the other keeps
    its pointer.  A whole pass of [escalarRedV2] ends the same way. *)
Theorem conflict_tiebreak_clears_winner :
  (exists s',
     conectarUpline ledgerIzquierda "0xaa" estadoConflicto = (Ok false, s') /\
     map (fun u => (wallet u, idBlock u, left u, lPuntos u, up u)) (binario s')
     = [("0xp9"%string, 9, "0xaa"%string, 70, WalletVacia);
        ("0xp5"%string, 5, WalletVacia, 0, WalletVacia);
        ("0xaa"%string, 1, WalletVacia, 0, "0xp5"%string);
        ("0xrr"%string, 1, WalletVacia, 0, WalletVacia)]) /\
  (exists s',
     escalarRedV2 ledgerIzquierda estadoConflicto = (Ok tt, s') /\
     map (fun u => (wallet u, idBlock u, left u, up u)) (binario s')
     = [("0xp9"%string, 9, "0xaa"%string, WalletVacia);
        ("0xp5"%string, 5, WalletVacia, WalletVacia);
        ("0xaa"%string, 1, WalletVacia, "0xp5"%string);
        ("0xrr"%string, 1, WalletVacia, WalletVacia)]).
Proof.
  split; eexists; split; vm_compute; reflexivity.
Qed.

(** ** The walk of [conectarUpline] ends *)

Lemma find_wallet_in (w : string) (b : list Binario) (u : Binario) :
  find (es_wallet w) b = Some u -> In w (map wallet b).
Proof.
  intros H. pose proof (find_es_wallet w b u H) as <-.
  apply find_some in H. apply in_map. tauto.
Qed.

(** The fuel [conectarLado] gives the walk is never used up: each further step
    has put one more wallet of the collection on [lista]. *)
Lemma ubicar_fuel (contrato : methods.Contrato) (l : Lado) (fuel : nat)
    (from buscando : string) (lista : list string) (s s' : Estado) (e : string) :
  NoDup lista ->
  incl lista (map wallet (binario s)) ->
  (List.length (binario s) < fuel + List.length lista)%nat ->
  ubicar contrato l fuel from buscando lista s = (Throw e, s') ->
  e <> "fuel"%string.
Proof.
  revert buscando lista.
  induction fuel as [| fuel IH]; intros buscando lista Hnd Hin Hlen.
  - exfalso. pose proof (NoDup_incl_length Hnd Hin) as H.
    rewrite length_map in H. cbn in Hlen. lia.
  - cbn [ubicar]. unfold bind at 1. unfold findOne at 1.
    destruct (find (es_wallet buscando) (binario s)) as [userRef |] eqn:F.
    + destruct (String.eqb (hijo l userRef) from).
      { unfold bind, updateOne, ret. discriminate. }
      destruct (andb _ _).
      { unfold bind, updateOne, ret. discriminate. }
      set (visto := match l with izquierda => wallet userRef | derecha => buscando end).
      assert (Hv : visto = buscando).
      { unfold visto. destruct l; [eapply find_es_wallet; eassumption | reflexivity]. }
      destruct (existsb (String.eqb visto) lista) eqn:Ex; cbn [negb].
      * unfold bind, updateOne, ret. discriminate.
      * apply IH.
        -- apply NoDup_app; [assumption | repeat constructor; auto | ].
           intros x Hx [<- | []].
           assert (existsb (String.eqb visto) lista = true); [| congruence].
           apply existsb_exists. exists visto. split; [assumption | apply String.eqb_refl].
        -- intros x Hx. apply in_app_or in Hx. destruct Hx as [Hx | [<- | []]]; [auto |].
           rewrite Hv. eapply find_wallet_in; eassumption.
        -- rewrite length_app. cbn [List.length]. lia.
    + destruct l.
      * unfold throw. intros [= <- _]. discriminate.
      * unfold bind, sin_await, ret. discriminate.
Qed.

Lemma soltarOtros_ok (l : Lado) (ubication : list Binario) (index ganador : nat)
    (wganador : string) (s : Estado) :
  fst (soltarOtros l ubication index ganador wganador s) = Ok tt.
Proof.
  revert index s. induction ubication as [| x r IH]; intros index s; cbn [soltarOtros].
  - reflexivity.
  - unfold bind at 1. destruct (negb (Nat.eqb index ganador)); cbn; apply IH.
Qed.

Lemma soltarAdversos_ok (l : Lado) (adverso : list Binario) (s : Estado) :
  fst (soltarAdversos l adverso s) = Ok tt.
Proof.
  revert s. induction adverso as [| x r IH]; intros s; cbn [soltarAdversos].
  - reflexivity.
  - unfold bind at 1. cbn. apply IH.
Qed.

(** So [conectarLado] never fails for want of fuel. *)
Lemma conectarLado_fuel (contrato : methods.Contrato) (l : Lado) (from referer_ : string)
    (userTemp : Binario) (s s' : Estado) (e : string) :
  conectarLado contrato l from referer_ userTemp s = (Throw e, s') ->
  e <> "fuel"%string.
Proof.
  unfold conectarLado. unfold bind at 1. unfold find_por at 1.
  set (ubication := filter (fun u => String.eqb (hijo l u) from) (binario s)).
  assert (Hresto : forall s1 e1 s1',
             bind (find_por (hijo (otro l)) from)
                  (fun adverso => soltarAdversos (otro l) adverso) s1 = (Throw e1, s1') ->
             False).
  { intros s1 e1 s1'. unfold bind, find_por.
    intros H. pose proof (soltarAdversos_ok (otro l)
      (filter (fun u => String.eqb (hijo (otro l) u) from) (binario s1)) s1) as Hok.
    rewrite H in Hok. discriminate. }
  destruct ubication as [| u0 [| u1 r]].
  - unfold bind at 1. unfold bind at 1. unfold get_binario at 1. unfold bind at 1.
    destruct (ubicar contrato l (S (List.length (binario s))) from referer_ [] s)
      as [[a | e0] s0] eqn:E.
    + unfold ret at 1. intros H. now apply Hresto in H.
    + intros [= <- _]. eapply ubicar_fuel; [constructor | | | exact E].
      * intros x [].
      * cbn. lia.
  - unfold bind at 1.
    destruct (negb (String.eqb (up userTemp) (wallet u0)));
      cbv beta iota delta [updateOne ret];
      intros H; now apply Hresto in H.
  - unfold bind at 1. unfold bind at 1. unfold updateOne at 1.
    match goal with
    | |- context [soltarOtros ?a ?b ?c ?d ?e ?st] =>
        pose proof (soltarOtros_ok a b c d e st) as Hok;
        destruct (soltarOtros a b c d e st) as [[[] | e0] s0]
    end; [| discriminate Hok].
    intros H. now apply Hresto in H.
Qed.

(** * Further properties of the engine *)

(** ** The claimable amount *)

Lemma div_dp0_mono (x y d : Z) : 0 < d -> x <= y -> div_dp0 x d <= div_dp0 y d.
Proof.
  intros Hd Hxy. unfold div_dp0.
  set (qx := (2 * Z.abs x + d) / (2 * d)). set (qy := (2 * Z.abs y + d) / (2 * d)).
  assert (Hx : 0 <= qx) by (apply Z.div_pos; lia).
  assert (Hy : 0 <= qy) by (apply Z.div_pos; lia).
  assert (F1 : Z.abs x <= Z.abs y -> qx <= qy)
    by (intros; apply Z.div_le_mono; lia).
  assert (F2 : Z.abs y <= Z.abs x -> qy <= qx)
    by (intros; apply Z.div_le_mono; lia).
  assert (Z0 : x = 0 -> qx = 0).
  { intros ->. unfold qx. cbn [Z.abs]. apply Z.div_small. lia. }
  assert (Z1 : y = 0 -> qy = 0).
  { intros ->. unfold qy. cbn [Z.abs]. apply Z.div_small. lia. }
  destruct (Z.sgn_spec x) as [[X ->] | [[X ->] | [X ->]]];
    destruct (Z.sgn_spec y) as [[Y ->] | [[Y ->] | [Y ->]]]; try lia.
Qed.

Lemma div_dp0_cinco (v : Z) : 0 < div_dp0 (v * 10) 100 <-> 5 <= v.
Proof.
  destruct (div_dp0_nearest (v * 10) 100 ltac:(lia)) as [N T].
  split; intros H.
  - pose proof (div_dp0_pos (v * 10) 100 ltac:(lia) H). lia.
  - destruct (Z.lt_trichotomy (div_dp0 (v * 10) 100) 0) as [L | [L | L]]; lia.
Qed.

(** The smaller leg passes 5 exactly when its double, read back, does: the
    round trip is monotone and leaves 4 and 5 as they are. *)
Lemma retirableBinario_cinco (a b : Z) :
  0 < retirableBinario a b <-> 5 <= Z.min a b.
Proof.
  rewrite retirableBinario_min, div_dp0_cinco.
  split; intros H.
  - destruct (Z.le_gt_cases 5 (Z.min a b)) as [| Hlt]; [assumption |].
    pose proof (deNumber_mono (Z.min a b) 4 ltac:(lia)) as Hm.
    change (deNumber (toNumber 4)) with 4 in Hm. lia.
  - pose proof (deNumber_mono 5 (Z.min a b) H) as Hm.
    change (deNumber (toNumber 5)) with 5 in Hm. lia.
Qed.

(** X1.  [retirableBinario] pays something exactly when the smaller of the two
    legs has at least 5 points: 5 points round up to 1, 4 round down to 0. *)
Theorem retirableBinario_pays_from_five (a b : Z) :
  0 < retirableBinario a b <-> 5 <= Z.min a b.
Proof. apply retirableBinario_cinco. Qed.

(** X2.  [retirableBinario] does not depend on the order of its two legs, and
    more points on the legs never give a smaller amount. *)
Theorem retirableBinario_monotone (a a' b b' : Z) :
  a <= a' -> b <= b' ->
  retirableBinario a b <= retirableBinario a' b' /\
  retirableBinario a b = retirableBinario b a.
Proof.
  intros Ha Hb. rewrite !retirableBinario_min. split.
  - apply div_dp0_mono; [lia |].
    apply Z.mul_le_mono_nonneg_r; [lia |]. apply deNumber_mono. lia.
  - now rewrite Z.min_comm.
Qed.

Lemma retirableBinario_monotone_witness :
  retirableBinario 800 500 <= retirableBinario 900 504 /\
  retirableBinario 800 500 = retirableBinario 500 800.
Proof.
  apply (retirableBinario_monotone 800 900 500 504); lia.
Defined.

(** ** Settlement, further *)

Section CobroMas.

Variable contrato : methods.Contrato.

Lemma claimable_cero_debito (u : Binario) :
  matched u < 5 -> debito u = [] /\ montoCorte u = 0 /\ rangoCorte u = 0.
Proof.
  intros H. unfold debito, montoCorte, rangoCorte.
  assert (R : retirableBinario (puntosLado izquierda u) (puntosLado derecha u) <= 0).
  { pose proof (retirableBinario_cinco
                  (puntosLado izquierda u) (puntosLado derecha u)) as T.
    unfold matched in H. lia. }
  apply toNumber_le0, Z.leb_le in R.
  cbv zeta. rewrite R. auto.
Qed.

End CobroMas.

(** X3.  When the smaller leg has fewer than 5 effective points, the amount
    rounds to 0: [hacerTakeProfit] still calls the settlement, with amount 0
    and used points 0, and whatever the ledger answers it stores nothing. *)
Theorem settlement_below_five_stores_nothing
    (contrato : methods.Contrato) (s : Estado) (w : string) (u : Binario) (g : Z) :
  toLowerCase w = w ->
  find (es_wallet w) (binario s) = Some u ->
  matched u < 5 ->
  methods.corteBinarioDo_estimateGas contrato w 0 0 0 = Some g ->
  exists res s',
    hacerTakeProfit contrato w s = (Ok res, s') /\
    binario s' = binario s /\
    result res =
      match methods.corteBinarioDo_send contrato w 0 0 0 with
      | Minado _ => true
      | Rechazado e => includes "Transaction Hash: " e
      end.
Proof.
  intros Hw Hu Hm Hg.
  destruct (claimable_cero_debito u Hm) as (Hd & Hmc & Hrc).
  assert (Hg' : methods.corteBinarioDo_estimateGas contrato w (montoCorte u) (rangoCorte u) 0
                = Some g) by (now rewrite Hmc, Hrc).
  destruct (hacerTakeProfit_presente contrato w s u g Hw Hu Hg') as (ix & E).
  rewrite Hd, update_first_nada, Hmc, Hrc in E. rewrite E.
  destruct (methods.corteBinarioDo_send contrato w 0 0 0) as [h | e];
    [| destruct (includes "Transaction Hash: " e)];
    eexists; eexists; repeat split.
Qed.

Lemma settlement_below_five_stores_nothing_witness :
  exists res s',
    hacerTakeProfit libro "0xaa" (mkEstado [cuenta "0xaa" 804 800 0 500 0 0] [])
    = (Ok res, s') /\
    binario s' = [cuenta "0xaa" 804 800 0 500 0 0] /\
    result res = true.
Proof.
  exact (settlement_below_five_stores_nothing libro
           (mkEstado [cuenta "0xaa" 804 800 0 500 0 0] []) "0xaa"
           (cuenta "0xaa" 804 800 0 500 0 0) 21000
           eq_refl eq_refl eq_refl eq_refl).
Defined.

Lemma debito_lugar (u : Binario) :
  up (aplicar (debito u) u) = up u /\
  forall l, hijo l (aplicar (debito u) u) = hijo l u.
Proof.
  unfold debito.
  destruct (toNumber (retirableBinario (puntosLado izquierda u) (puntosLado derecha u))
            <=? 0).
  - split; [reflexivity | intros l; reflexivity].
  - destruct u. split; [reflexivity | intros []; reflexivity].
Qed.

Lemma claimable_matched (u : Binario) : 0 < claimable u -> 5 <= matched u.
Proof.
  unfold claimable. rewrite toNumber_ltb0. intros H.
  apply (retirableBinario_cinco (puntosLado izquierda u) (puntosLado derecha u)).
  destruct (retirableBinario (puntosLado izquierda u) (puntosLado derecha u) <? 0); lia.
Qed.

(** A settlement that answers a success has stored the debit. *)
Lemma hacerTakeProfit_exito (contrato : methods.Contrato) (w : string) (s s1 : Estado)
    (u : Binario) (res : Resultado) :
  toLowerCase w = w ->
  find (es_wallet w) (binario s) = Some u ->
  hacerTakeProfit contrato w s = (Ok res, s1) ->
  result res = true ->
  binario s1 = update_first w (debito u) (binario s).
Proof.
  intros Hw Hu Hrun Hres.
  destruct (hacerTakeProfit_estado contrato w s Hw) as [E | (u' & Hu' & E)].
  - (* nothing stored: the answer was a failure or an error *)
    destruct (methods.corteBinarioDo_estimateGas contrato w (montoCorte u) (rangoCorte u) 0)
      as [g |] eqn:Hg.
    + destruct (hacerTakeProfit_presente contrato w s u g Hw Hu Hg) as (ix & E').
      rewrite E' in Hrun.
      destruct (methods.corteBinarioDo_send contrato w (montoCorte u) (rangoCorte u) 0)
        as [h | e].
      * now injection Hrun as _ <-.
      * destruct (includes "Transaction Hash: " e); injection Hrun as <- <-;
          [reflexivity | discriminate Hres].
    + rewrite (hacerTakeProfit_sin_gas contrato w s u Hw Hu Hg) in Hrun. discriminate.
  - rewrite Hrun in E. cbn [snd] in E. congruence.
Qed.

(** X4.  Whatever it answers, [hacerTakeProfit] keeps every document: those of
    other wallets exactly as they were, and the claimant's with the same
    upline, child slots, total and extra points, its claimed points never
    lower than before. *)
Theorem settlement_touches_only_claimed
    (contrato : methods.Contrato) (s : Estado) (w y : string) (d : Binario) :
  find (es_wallet y) (binario s) = Some d ->
  exists d',
    find (es_wallet y) (binario (snd (hacerTakeProfit contrato w s))) = Some d' /\
    (y <> toLowerCase w -> d' = d) /\
    up d' = up d /\
    forall l, hijo l d' = hijo l d /\ puntos l d' = puntos l d /\
              extra l d' = extra l d /\ reclamados l d <= reclamados l d'.
Proof.
  intros F. rewrite hacerTakeProfit_lower.
  assert (Hsame : forall l, hijo l d = hijo l d /\ puntos l d = puntos l d /\
                            extra l d = extra l d /\ reclamados l d <= reclamados l d)
    by (intros l; repeat split; lia).
  destruct (hacerTakeProfit_estado contrato (toLowerCase w) s (toLowerCase_idem w))
    as [-> | (u & Hu & ->)]; [exists d; auto |].
  destruct (String.eqb_spec (toLowerCase w) y) as [E | Hne].
  - rewrite E in *. assert (d = u) as -> by congruence.
    exists (aplicar (debito u) u). split; [now apply find_update_first |].
    split; [intros H; now destruct H |].
    destruct (debito_lugar u) as [Hup Hh]. split; [assumption |].
    intros l. pose proof (aplicar_debito u) as D. cbv zeta in D.
    destruct D as (Hl & Hr & Hlp & Hrp & Hle & Hre).
    assert (Hinc : 0 <= (if 0 <? claimable u then puntosReclamados u else 0)).
    { destruct (Z.ltb_spec 0 (claimable u)); [| lia].
      pose proof (claimable_matched u ltac:(assumption)).
      destruct (puntosReclamados_spec u) as (_ & Hge & _). lia. }
    split; [apply Hh |].
    destruct l; cbn [puntos extra reclamados]; repeat split; lia.
  - exists d. split; [now rewrite find_update_first_otro |]. auto.
Qed.

Lemma settlement_touches_only_claimed_witness :
  exists d',
    find (es_wallet "0xpp") (binario (snd (hacerTakeProfit libro "0xaa" estadoAdverso)))
      = Some d' /\
    ("0xpp"%string <> toLowerCase "0xaa" ->
     d' = aplicar [c_left "0xaa"] (cuenta "0xpp" 800 500 0 500 500 0)) /\
    up d' = up (aplicar [c_left "0xaa"] (cuenta "0xpp" 800 500 0 500 500 0)) /\
    forall l,
      hijo l d' = hijo l (aplicar [c_left "0xaa"] (cuenta "0xpp" 800 500 0 500 500 0)) /\
      puntos l d' = puntos l (aplicar [c_left "0xaa"] (cuenta "0xpp" 800 500 0 500 500 0)) /\
      extra l d' = extra l (aplicar [c_left "0xaa"] (cuenta "0xpp" 800 500 0 500 500 0)) /\
      reclamados l (aplicar [c_left "0xaa"] (cuenta "0xpp" 800 500 0 500 500 0))
      <= reclamados l d'.
Proof.
  exact (settlement_touches_only_claimed libro estadoAdverso "0xaa" "0xpp"
           (aplicar [c_left "0xaa"] (cuenta "0xpp" 800 500 0 500 500 0)) eq_refl).
Defined.

(** X5.  After a settlement that succeeded on a positive amount, a second
    settlement of the same account finds nothing to claim: it hands the ledger
    amount 0 and used points 0 and, whatever the answer, stores nothing. *)
Theorem second_settlement_debits_nothing
    (contrato : methods.Contrato) (s s1 : Estado) (w : string) (u : Binario)
    (res : Resultado) :
  toLowerCase w = w ->
  find (es_wallet w) (binario s) = Some u ->
  0 < claimable u ->
  hacerTakeProfit contrato w s = (Ok res, s1) ->
  result res = true ->
  exists u1,
    find (es_wallet w) (binario s1) = Some u1 /\
    montoCorte u1 = 0 /\ rangoCorte u1 = 0 /\
    binario (snd (hacerTakeProfit contrato w s1)) = binario s1.
Proof.
  intros Hw Hu Hpos Hrun Hres.
  pose proof (hacerTakeProfit_exito contrato w s s1 u res Hw Hu Hrun Hres) as E1.
  assert (F1 : find (es_wallet w) (binario s1) = Some (aplicar (debito u) u))
    by (rewrite E1; now apply find_update_first).
  assert (Hm : matched (aplicar (debito u) u) < 5).
  { pose proof (aplicar_debito u) as D. cbv zeta in D.
    destruct (Z.ltb_spec 0 (claimable u)); [| lia].
    destruct D as (Hl & Hr & Hlp & Hrp & Hle & Hre).
    destruct (puntosReclamados_spec u) as (_ & Hge & _).
    unfold matched, puntosLado, puntos, reclamados, extra.
    rewrite Hl, Hr, Hlp, Hrp, Hle, Hre.
    unfold matched, puntosLado, puntos, reclamados, extra in Hge. lia. }
  destruct (claimable_cero_debito (aplicar (debito u) u) Hm) as (Hd & Hmc & Hrc).
  exists (aplicar (debito u) u). repeat split; try assumption.
  destruct (hacerTakeProfit_estado contrato w s1 Hw) as [E | (u' & Hu' & E)];
    [assumption |].
  rewrite E. assert (u' = aplicar (debito u) u) as -> by congruence.
  rewrite Hd. apply update_first_nada.
Qed.

Lemma second_settlement_debits_nothing_witness :
  exists u1,
    find (es_wallet "0xaa") (binario (snd (hacerTakeProfit libro "0xaa" estadoCuenta)))
      = Some u1 /\
    montoCorte u1 = 0 /\ rangoCorte u1 = 0 /\
    binario (snd (hacerTakeProfit libro "0xaa" (snd (hacerTakeProfit libro "0xaa" estadoCuenta))))
    = binario (snd (hacerTakeProfit libro "0xaa" estadoCuenta)).
Proof.
  exact (second_settlement_debits_nothing libro estadoCuenta _ "0xaa"
           (cuenta "0xaa" 1000 200 0 500 0 0) _ eq_refl eq_refl eq_refl eq_refl eq_refl).
Defined.

(** X6.  [hacerTakeProfit] throws, with nothing stored and the state as it
    was, when the wallet has no document and when the gas estimate of the
    settlement rejects. *)
Theorem settlement_throws_without_writing
    (contrato : methods.Contrato) (s : Estado) (w : string) :
  (find (es_wallet (toLowerCase w)) (binario s) = None ->
   exists e, hacerTakeProfit contrato w s = (Throw e, s)) /\
  (forall u,
     find (es_wallet (toLowerCase w)) (binario s) = Some u ->
     methods.corteBinarioDo_estimateGas contrato (toLowerCase w)
       (montoCorte u) (rangoCorte u) 0 = None ->
     exists e, hacerTakeProfit contrato w s = (Throw e, s)).
Proof.
  split.
  - intros Hu. eexists. rewrite hacerTakeProfit_lower.
    apply hacerTakeProfit_ausente; [apply toLowerCase_idem | assumption].
  - intros u Hu Hg. eexists. rewrite hacerTakeProfit_lower.
    apply (hacerTakeProfit_sin_gas contrato _ s u);
      [apply toLowerCase_idem | assumption | assumption].
Qed.

(** ** Aggregation, further *)

Lemma lugar_nucleo (d d' : Binario) : nucleo d' = nucleo d -> lugar d' = lugar d.
Proof. unfold nucleo, lugar. intros N. injection N; intros. congruence. Qed.

Lemma lugar_aplicar (upd : Update) (x : Binario) :
  forallb es_de_puntos upd = true -> lugar (aplicar upd x) = lugar x.
Proof.
  unfold aplicar. revert x.
  induction upd as [| c upd IH]; intros x H; cbn [fold_left]; [reflexivity |].
  cbn [forallb] in H. apply andb_prop in H. destruct H as [Hc Hupd].
  rewrite IH by assumption.
  destruct c, x; cbn in Hc; try discriminate Hc; reflexivity.
Qed.

(** The choice [pL.toNumber() < pR.toNumber() ? pL : pR]: one of the two, never
    below the smaller, with the double of the smaller; the smaller itself
    unless the right one is the larger and the two share a double. *)
Lemma menor_doble (pL pR : Z) :
  let m := if toNumber pL <? toNumber pR then pL else pR in
  Z.min pL pR <= m /\
  toNumber m = toNumber (Z.min pL pR) /\
  (pR <= pL \/ toNumber pL <> toNumber pR -> m = Z.min pL pR) /\
  (Z.abs pL <= MAX_SAFE_INTEGER -> Z.abs pR <= MAX_SAFE_INTEGER -> m = Z.min pL pR).
Proof.
  cbv zeta. rewrite <- toNumber_min.
  assert (G : pR <= pL \/ toNumber pL <> toNumber pR ->
              (if toNumber pL <? toNumber pR then pL else pR) = Z.min pL pR).
  { destruct (Z.ltb_spec (toNumber pL) (toNumber pR)) as [H | H].
    - apply toNumber_lt in H. lia.
    - intros [Hle | Hne]; [lia |].
      assert (pR < pL) by (apply toNumber_lt; lia). lia. }
  split; [| split; [| split]].
  - destruct (Z.ltb_spec (toNumber pL) (toNumber pR)); lia.
  - destruct (Z.ltb_spec (toNumber pL) (toNumber pR)); lia.
  - exact G.
  - intros HL HR. apply G. rewrite !toNumber_exacto by assumption. lia.
Qed.

(** X7.  After an aggregation that completes, the stored active points are
    those of one leg's effective points, total + extra - claimed, as the
    document then has them: the left leg's when its double is below the
    double of the right leg's, else the right leg's.  They are never below
    the smaller of the two and have its double; they are the smaller of the
    two when the right leg's are not the larger or the doubles differ, so
    whenever both are within [MAX_SAFE_INTEGER]. *)
Theorem aggregate_stores_min_effective
    (contrato : methods.Contrato) (s s' : Estado) (w : string) (u : Binario) (b : bool) :
  toLowerCase w = w ->
  find (es_wallet w) (binario s) = Some u ->
  binariV2 contrato w s = (Ok b, s') ->
  exists u',
    find (es_wallet w) (binario s') = Some u' /\
    let pL := lPuntos u' + lExtra u' - lReclamados u' in
    let pR := rPuntos u' + rExtra u' - rReclamados u' in
    puntosActivos u' = (if toNumber pL <? toNumber pR then pL else pR) /\
    Z.min pL pR <= puntosActivos u' /\
    toNumber (puntosActivos u') = toNumber (Z.min pL pR) /\
    (pR <= pL \/ toNumber pL <> toNumber pR -> puntosActivos u' = Z.min pL pR) /\
    (Z.abs pL <= MAX_SAFE_INTEGER -> Z.abs pR <= MAX_SAFE_INTEGER ->
     puntosActivos u' = Z.min pL pR).
Proof.
  intros Hw Hu Hrun.
  destruct (binariV2_pasos contrato w s s' u b Hw Hu Hrun)
    as (izq & der & s1 & s2 & u2 & _ & _ & Hu2 & _ & _ & ->).
  eexists. cbn [binario].
  split; [apply find_update_first; apply find_update_first; exact Hu2 |].
  generalize (aplicar (izq ++ der) u2). intros v.
  set (v' := aplicar [c_puntosActivos (activos v)] v).
  assert (E : puntosActivos v'
              = (if toNumber (lPuntos v + lExtra v - lReclamados v)
                    <? toNumber (rPuntos v + rExtra v - rReclamados v)
                 then lPuntos v + lExtra v - lReclamados v
                 else rPuntos v + rExtra v - rReclamados v))
    by (destruct v; reflexivity).
  assert (E1 : lPuntos v' = lPuntos v) by (destruct v; reflexivity).
  assert (E2 : lExtra v' = lExtra v) by (destruct v; reflexivity).
  assert (E3 : lReclamados v' = lReclamados v) by (destruct v; reflexivity).
  assert (E4 : rPuntos v' = rPuntos v) by (destruct v; reflexivity).
  assert (E5 : rExtra v' = rExtra v) by (destruct v; reflexivity).
  assert (E6 : rReclamados v' = rReclamados v) by (destruct v; reflexivity).
  cbv zeta. rewrite E1, E2, E3, E4, E5, E6.
  rewrite E. split; [reflexivity |].
  apply (menor_doble (lPuntos v + lExtra v - lReclamados v)
                     (rPuntos v + rExtra v - rReclamados v)).
Qed.

Lemma aggregate_stores_min_effective_witness :
  exists u',
    find (es_wallet "0xaa")
      (binario (snd (binariV2 libro "0xaa" (mkEstado [cuenta "0xaa" 0 0 800 0 0 500] []))))
      = Some u' /\
    let pL := lPuntos u' + lExtra u' - lReclamados u' in
    let pR := rPuntos u' + rExtra u' - rReclamados u' in
    puntosActivos u' = (if toNumber pL <? toNumber pR then pL else pR) /\
    Z.min pL pR <= puntosActivos u' /\
    toNumber (puntosActivos u') = toNumber (Z.min pL pR) /\
    (pR <= pL \/ toNumber pL <> toNumber pR -> puntosActivos u' = Z.min pL pR) /\
    (Z.abs pL <= MAX_SAFE_INTEGER -> Z.abs pR <= MAX_SAFE_INTEGER ->
     puntosActivos u' = Z.min pL pR).
Proof.
  exact (aggregate_stores_min_effective libro
           (mkEstado [cuenta "0xaa" 0 0 800 0 0 500] []) _ "0xaa"
           (cuenta "0xaa" 0 0 800 0 0 500) true eq_refl eq_refl eq_refl).
Defined.

(** With extra points 10^21 on the left and 10^21 + 1 on the right, which
    share a double, the stored active points are the right leg's. *)
Example aggregate_stores_larger_leg :
  exists u',
    find (es_wallet "0xaa")
      (binario (snd (binariV2 libro "0xaa"
                       (mkEstado [cuenta "0xaa" 0 0 (10 ^ 21) 0 0 (10 ^ 21 + 1)] []))))
      = Some u' /\
    puntosActivos u' = 10 ^ 21 + 1.
Proof. eexists. split; vm_compute; reflexivity. Qed.

(** X8.  On a leg whose child slot is not empty, an aggregation that completes
    never lowers the total points or the head count, whatever the child's
    document holds. *)
Theorem aggregate_never_lowers_filled_leg
    (contrato : methods.Contrato) (l : Lado) (s s' : Estado) (w : string)
    (u : Binario) (b : bool) :
  toLowerCase w = w ->
  find (es_wallet w) (binario s) = Some u ->
  hijo l u <> WalletVacia ->
  binariV2 contrato w s = (Ok b, s') ->
  exists u',
    find (es_wallet w) (binario s') = Some u' /\
    puntos l u <= puntos l u' /\ personas l u <= personas l u'.
Proof.
  intros Hw Hu Hne Hrun.
  destruct (binariV2_lado contrato l w s s' u b Hw Hu Hrun)
    as (upd & u' & F & Fu & Hp & Hq & _).
  exists u'. split; [assumption |].
  destruct F as [[He _] | [_ [-> | [ch ->]]]]; [contradiction | |].
  - cbn [leer_puntos leer_personas] in Hp, Hq. lia.
  - destruct (leer_fusion l u ch) as [Ep Eq].
    rewrite Ep in Hp. rewrite Eq in Hq.
    pose proof (mezcla_spec (puntos l u) (aporte ch)) as Mp.
    pose proof (mezcla_spec (personas l u) (cabezas ch)) as Mq.
    lia.
Qed.

Lemma aggregate_never_lowers_filled_leg_witness :
  exists u',
    find (es_wallet "0xaa")
      (binario (snd (binariV2 libro "0xaa"
                       (mkEstado [nodo "0xaa" "0xbb" WalletVacia 50 0;
                                  nodo "0xbb" WalletVacia WalletVacia 30 20] []))))
      = Some u' /\
    50 <= puntos izquierda u' /\ 0 <= personas izquierda u'.
Proof.
  apply (aggregate_never_lowers_filled_leg libro izquierda
           (mkEstado [nodo "0xaa" "0xbb" WalletVacia 50 0;
                      nodo "0xbb" WalletVacia WalletVacia 30 20] []) _ "0xaa"
           (nodo "0xaa" "0xbb" WalletVacia 50 0) true);
    [reflexivity | reflexivity | discriminate | vm_compute; reflexivity].
Defined.

(** X9.  The aggregation of an account that has a document, whatever it
    answers, removes no document and leaves every document's wallet, upline,
    child slots, claimed and extra points as they were; the documents of the
    other wallets keep their points too. *)
Theorem aggregate_keeps_tree_and_claims
    (contrato : methods.Contrato) (s : Estado) (w y : string) (u d : Binario) :
  find (es_wallet (toLowerCase w)) (binario s) = Some u ->
  find (es_wallet y) (binario s) = Some d ->
  exists d',
    find (es_wallet y) (binario (snd (binariV2 contrato w s))) = Some d' /\
    lugar d' = lugar d /\
    (y <> toLowerCase w -> nucleo d' = nucleo d).
Proof.
  intros Hu F. rewrite binariV2_lower.
  pose proof (toLowerCase_idem w) as Hw. set (w' := toLowerCase w) in *.
  destruct (binariV2 contrato w' s) as [[b | e] s'] eqn:Hrun; cbn [snd].
  - destruct (binariV2_pasos contrato w' s s' u b Hw Hu Hrun)
      as (izq & der & s1 & s2 & u2 & E1 & E2 & Hu2 & N & _ & ->).
    destruct (agregarLado_forma contrato _ _ _ _ _ E1) as [Fi X1].
    destruct (agregarLado_forma contrato _ _ _ _ _ E2) as [Fde X2].
    cbn [binario].
    destruct (String.eqb_spec w' y) as [E | Hne].
    + rewrite <- E in *. assert (d = u) as -> by congruence.
      eexists. split; [apply find_update_first; apply find_update_first; exact Hu2 |].
      split; [| intros H; now destruct H].
      rewrite !lugar_aplicar; [now apply lugar_nucleo | | reflexivity].
      rewrite forallb_app, (forma_de_puntos _ _ _ Fi), (forma_de_puntos _ _ _ Fde).
      reflexivity.
    + destruct (extiende_trans _ _ _ X1 X2 y d F) as (d2 & F2 & N2).
      exists d2. split; [now rewrite !find_update_first_otro by assumption |].
      split; [now apply lugar_nucleo | auto].
  - destruct (binariV2_throw contrato w' s s' u e Hw Hu Hrun y d F) as (d' & F' & N').
    exists d'. split; [assumption |]. split; [now apply lugar_nucleo | auto].
Qed.

Lemma aggregate_keeps_tree_and_claims_witness :
  exists d',
    find (es_wallet "0xbb")
      (binario (snd (binariV2 libro "0xaa"
                       (mkEstado [nodo "0xaa" "0xbb" WalletVacia 50 0;
                                  nodo "0xbb" WalletVacia WalletVacia 30 20] []))))
      = Some d' /\
    lugar d' = lugar (nodo "0xbb" WalletVacia WalletVacia 30 20) /\
    ("0xbb"%string <> toLowerCase "0xaa" ->
     nucleo d' = nucleo (nodo "0xbb" WalletVacia WalletVacia 30 20)).
Proof.
  exact (aggregate_keeps_tree_and_claims libro
           (mkEstado [nodo "0xaa" "0xbb" WalletVacia 50 0;
                      nodo "0xbb" WalletVacia WalletVacia 30 20] []) "0xaa" "0xbb"
           (nodo "0xaa" "0xbb" WalletVacia 50 0)
           (nodo "0xbb" WalletVacia WalletVacia 30 20) eq_refl eq_refl).
Defined.

(** ** Refreshing, further *)

(** X10.  Refreshing a document from the ledger a second time, the ledger being
    the same, completes as the first time and changes nothing more. *)
Theorem refresh_idempotent
    (contrato : methods.Contrato) (from : string) (s s1 : Estado) (b : bool) :
  actualizarUsuario contrato from s = (Ok b, s1) ->
  actualizarUsuario contrato from s1 = (Ok b, s1).
Proof.
  rewrite !actualizarUsuario_run.
  destruct (find (es_wallet (toLowerCase from)) (binario s)) as [d |] eqn:F.
  - destruct (cambiosDe contrato (toLowerCase from) d) as [upd |] eqn:E; [| discriminate].
    intros [= <- <-]. cbn [binario binarioindexado].
    rewrite (find_update_first _ upd _ d F).
    destruct (cambiosDe_exito _ _ _ (aplicar upd d) _ E) as (upd' & E').
    rewrite E'.
    rewrite (update_first_fijo _ upd' _ (aplicar upd d));
      [reflexivity | now apply find_update_first |].
    now apply (cambiosDe_idem _ _ _ _ E).
  - intros [= <- <-]. now rewrite F.
Qed.

Lemma refresh_idempotent_witness :
  actualizarUsuario (libroCon 100 (Minado "0xf00d")) "0xAA"
    (snd (actualizarUsuario (libroCon 100 (Minado "0xf00d")) "0xAA" estadoCuenta))
  = (Ok true, snd (actualizarUsuario (libroCon 100 (Minado "0xf00d")) "0xAA" estadoCuenta)).
Proof.
  exact (refresh_idempotent (libroCon 100 (Minado "0xf00d")) "0xAA" estadoCuenta _ true
           eq_refl).
Defined.

(** ** Creating and looking up a document *)

Lemma find_app_nuevo (w : string) (b : list Binario) (x : Binario) :
  find (es_wallet w) b = None -> wallet x = w ->
  find (es_wallet w) (b ++ [x]) = Some x.
Proof.
  intros F E. induction b as [| y b IH]; cbn [find app] in *.
  - unfold es_wallet. rewrite E, String.eqb_refl. reflexivity.
  - destruct (es_wallet w y); [discriminate | auto].
Qed.

Lemma leer_indexar (w : string) (v : option Binario) (ix : list (string * option Binario)) :
  leerIndexado w (indexar w v ix) = Some v.
Proof.
  induction ix as [| [k x] ix IH]; cbn [indexar leerIndexado].
  - now rewrite String.eqb_refl.
  - destruct (String.eqb k w) eqn:E; cbn [leerIndexado].
    + now rewrite String.eqb_refl.
    + now rewrite E.
Qed.

Section Creacion.

Variable contrato : methods.Contrato.

(** [crearUsuario] on a wallet without a document, when it completes. *)
Lemma crearUsuario_nuevo (from : string) (s s' : Estado) (r : option Binario) :
  find (es_wallet (toLowerCase from)) (binario s) = None ->
  crearUsuario contrato from s = (Ok r, s') ->
  exists nu,
    r = Some nu /\
    s' = mkEstado (binario s ++ [nu]) (binarioindexado s) /\
    nucleo nu = (toLowerCase from, WalletVacia, WalletVacia, WalletVacia,
                 (0, 0, 0, 0), (0, 0, 0, 0), 0) /\
    registered nu = inv_registered (leerInvestor contrato (toLowerCase from)).
Proof.
  intros F. unfold crearUsuario . unfold bind at 1.
  match goal with
  | |- context [match ?m s with _ => _ end] => destruct (m s) as [[montos | e] s1] eqn:E1
  end; [| discriminate].
  assert (s1 = s) as ->.
  { revert E1. destruct (inv_registered (leerInvestor contrato (toLowerCase from))).
    - unfold bind, call, ret, throw.
      destruct (methods.verListaDepositos contrato (toLowerCase from)); now intros [= _ <-].
    - now intros [= _ <-]. }
  unfold bind at 1, findOne at 1. rewrite F. unfold bind at 1.
  match goal with
  | |- context [match ?m s with _ => _ end] => destruct (m s) as [[nu | e] s2] eqn:E2
  end; [| discriminate].
  assert (Hnu : s2 = s /\
                nucleo nu = (toLowerCase from, WalletVacia, WalletVacia, WalletVacia,
                             (0, 0, 0, 0), (0, 0, 0, 0), 0) /\
                registered nu = inv_registered (leerInvestor contrato (toLowerCase from))).
  { revert E2. destruct (inv_registered (leerInvestor contrato (toLowerCase from))).
    - unfold bind, call, ret, throw.
      destruct (methods.addressToId contrato (toLowerCase from)); [| discriminate].
      destruct (methods.upline contrato (toLowerCase from)); [| discriminate].
      intros [= <- <-]. auto.
    - intros [= <- <-]. auto. }
  destruct Hnu as (-> & Hn & Hr).
  unfold bind, findOne. rewrite F. unfold save, ret. intros [= <- <-].
  exists nu. auto.
Qed.

(** [consultarUsuario] up to [conectarUp], step by step. *)
Lemma consultarUsuario0_run (from : string) (ag upd : bool) (s : Estado) :
  toLowerCase from <> "0x0000000000000000000000000000000000000000"%string ->
  consultarUsuario0 contrato from ag upd s =
  match (if upd then actualizarUsuario contrato (toLowerCase from) s else (Ok false, s)) with
  | (Throw e, s1) => (Throw e, s1)
  | (Ok _, s1) =>
      match find (es_wallet (toLowerCase from)) (binario s1) with
      | Some d =>
          (Ok (usuario (Some d)),
           mkEstado (binario s1)
             (if ag then indexar (toLowerCase from) (Some d) (binarioindexado s1)
              else binarioindexado s1))
      | None =>
          match crearUsuario contrato (toLowerCase from) s1 with
          | (Ok r0, s2) =>
              (Ok (usuario r0),
               mkEstado (binario s2)
                 (if ag then indexar (toLowerCase from) r0 (binarioindexado s2)
                  else binarioindexado s2))
          | (Throw e, s2) => (Throw e, s2)
          end
      end
  end.
Proof.
  intros Hz. unfold consultarUsuario0.
  destruct (String.eqb_spec (toLowerCase from)
              "0x0000000000000000000000000000000000000000") as [E | _]; [contradiction |].
  unfold bind at 1. unfold bind at 1.
  assert (Hresto : forall s1,
    bind (findOne (toLowerCase from))
      (fun userTemp =>
         bind (match userTemp with
               | None => crearUsuario contrato (toLowerCase from)
               | Some u => ret (Some u)
               end)
           (fun userTemp =>
              bind (if ag then set_indexado (toLowerCase from) userTemp else ret tt)
                   (fun _ => ret (usuario userTemp)))) s1 =
    match find (es_wallet (toLowerCase from)) (binario s1) with
    | Some d =>
        (Ok (usuario (Some d)),
         mkEstado (binario s1)
           (if ag then indexar (toLowerCase from) (Some d) (binarioindexado s1)
            else binarioindexado s1))
    | None =>
        match crearUsuario contrato (toLowerCase from) s1 with
        | (Ok r0, s2) =>
            (Ok (usuario r0),
             mkEstado (binario s2)
               (if ag then indexar (toLowerCase from) r0 (binarioindexado s2)
                else binarioindexado s2))
        | (Throw e, s2) => (Throw e, s2)
        end
    end).
  { intros s1. unfold bind at 1. unfold findOne at 1.
    destruct (find (es_wallet (toLowerCase from)) (binario s1)) as [d |].
    - destruct s1, ag; reflexivity.
    - unfold bind at 1.
      destruct (crearUsuario contrato (toLowerCase from) s1) as [[r0 | e] [b2 ix2]];
        [| reflexivity].
      destruct ag; reflexivity. }
  destruct upd.
  - destruct (actualizarUsuario contrato (toLowerCase from) s) as [[b1 | e] s1];
      [| reflexivity].
    unfold ret at 1. apply Hresto.
  - unfold ret at 1. apply Hresto.
Qed.

(** [consultarUsuario] without [conectarUp], when it completes on an address
    other than the zero address. *)
Lemma consultarUsuario_guardado (from : string) (ag upd : bool) (s s' : Estado)
    (r : Consulta) :
  toLowerCase from <> "0x0000000000000000000000000000000000000000"%string ->
  consultarUsuario contrato from ag upd false s = (Ok r, s') ->
  exists u,
    r = usuario (Some u) /\
    find (es_wallet (toLowerCase from)) (binario s') = Some u /\
    (ag = true -> leerIndexado (toLowerCase from) (binarioindexado s') = Some (Some u)) /\
    (find (es_wallet (toLowerCase from)) (binario s) = None ->
     binario s' = binario s ++ [u] /\
     nucleo u = (toLowerCase from, WalletVacia, WalletVacia, WalletVacia,
                 (0, 0, 0, 0), (0, 0, 0, 0), 0)).
Proof.
  intros Hz. unfold consultarUsuario. unfold bind.
  rewrite (consultarUsuario0_run from ag upd s Hz).
  set (w := toLowerCase from) in *.
  assert (Hw : toLowerCase w = w) by (unfold w; apply toLowerCase_idem).
  assert (Hix : forall v ix, ag = true ->
            leerIndexado w (if ag then indexar w v ix else ix) = Some v).
  { intros v ix ->. apply leer_indexar. }
  destruct upd.
  - rewrite actualizarUsuario_run, Hw.
    destruct (find (es_wallet w) (binario s)) as [d |] eqn:F.
    + destruct (cambiosDe contrato w d) as [cs |]; [| discriminate].
      cbn [binario binarioindexado].
      rewrite (find_update_first w cs _ d F). unfold ret. intros [= <- <-].
      exists (aplicar cs d). cbn [binario binarioindexado].
      split; [reflexivity |]. split; [now apply find_update_first |].
      split; [apply Hix | discriminate].
    + rewrite F.
      pose proof (crearUsuario_nuevo w s) as Hc. rewrite Hw in Hc.
      destruct (crearUsuario contrato w s) as [[r0 | e] s2]; [| discriminate].
      destruct (Hc s2 r0 F eq_refl) as (nu & -> & -> & Hn & _).
      unfold ret. intros [= <- <-]. exists nu. cbn [binario binarioindexado].
      split; [reflexivity |].
      split; [apply find_app_nuevo; [assumption | unfold nucleo in Hn; now injection Hn] |].
      split; [apply Hix | auto].
  - destruct (find (es_wallet w) (binario s)) as [d |] eqn:F.
    + unfold ret. intros [= <- <-]. exists d. cbn [binario binarioindexado].
      split; [reflexivity |]. split; [assumption |].
      split; [apply Hix | discriminate].
    + pose proof (crearUsuario_nuevo w s) as Hc. rewrite Hw in Hc.
      destruct (crearUsuario contrato w s) as [[r0 | e] s2]; [| discriminate].
      destruct (Hc s2 r0 F eq_refl) as (nu & -> & -> & Hn & _).
      unfold ret. intros [= <- <-]. exists nu. cbn [binario binarioindexado].
      split; [reflexivity |].
      split; [apply find_app_nuevo; [assumption | unfold nucleo in Hn; now injection Hn] |].
      split; [apply Hix | auto].
Qed.

End Creacion.

(** X11.  [crearUsuario], when it completes on a wallet that has no document,
    adds exactly one document at the end of the collection and answers with it:
    the document is the one now found under the wallet in lower case, it has no
    upline, no children and no points of any kind, and it is registered exactly
    when the ledger says the wallet is; the cache is not written. *)
Theorem crearUsuario_appends_zeroed_document
    (contrato : methods.Contrato) (from : string) (s s' : Estado) (r : option Binario) :
  find (es_wallet (toLowerCase from)) (binario s) = None ->
  crearUsuario contrato from s = (Ok r, s') ->
  exists nu,
    r = Some nu /\
    binario s' = binario s ++ [nu] /\
    binarioindexado s' = binarioindexado s /\
    find (es_wallet (toLowerCase from)) (binario s') = Some nu /\
    nucleo nu = (toLowerCase from, WalletVacia, WalletVacia, WalletVacia,
                 (0, 0, 0, 0), (0, 0, 0, 0), 0) /\
    registered nu = inv_registered (leerInvestor contrato (toLowerCase from)).
Proof.
  intros F E.
  destruct (crearUsuario_nuevo contrato from s s' r F E) as (nu & -> & -> & Hn & Hr).
  exists nu. cbn [binario binarioindexado].
  repeat split; try assumption.
  apply find_app_nuevo; [assumption |]. unfold nucleo in Hn. now injection Hn.
Qed.

Lemma crearUsuario_appends_zeroed_document_witness :
  exists nu,
    binario (snd (crearUsuario libro "0xBB" estadoCuenta)) = binario estadoCuenta ++ [nu] /\
    find (es_wallet "0xbb") (binario (snd (crearUsuario libro "0xBB" estadoCuenta)))
      = Some nu /\
    registered nu = true.
Proof.
  destruct (crearUsuario_appends_zeroed_document libro "0xBB" estadoCuenta _ _
              eq_refl eq_refl) as (nu & _ & Hb & _ & Hf & _ & Hr).
  exists nu. split; [exact Hb |]. split; [exact Hf | exact Hr].
Defined.

(** X12.  [consultarUsuario], when it completes on an address other than the
    zero address, answers with the document the collection then holds for the
    address in lower case, whatever its flags.  Without [conectarUp]: a caller
    that asked for it finds that same document in the cache, and an address
    that had no document has got a new one, the last of the collection, with
    no upline, no children and no points. *)
Theorem lookup_returns_stored_document
    (contrato : methods.Contrato) (from : string) (ag upd con : bool)
    (s s' : Estado) (r : Consulta) :
  toLowerCase from <> "0x0000000000000000000000000000000000000000"%string ->
  consultarUsuario contrato from ag upd con s = (Ok r, s') ->
  exists u,
    r = usuario (Some u) /\
    find (es_wallet (toLowerCase from)) (binario s') = Some u /\
    (con = false -> ag = true ->
     leerIndexado (toLowerCase from) (binarioindexado s') = Some (Some u)) /\
    (con = false -> find (es_wallet (toLowerCase from)) (binario s) = None ->
     binario s' = binario s ++ [u] /\
     nucleo u = (toLowerCase from, WalletVacia, WalletVacia, WalletVacia,
                 (0, 0, 0, 0), (0, 0, 0, 0), 0)).
Proof.
  intros Hz. destruct con.
  - unfold consultarUsuario. unfold bind at 1.
    destruct (consultarUsuario0 contrato from ag upd s) as [[r0 | e] s1] eqn:E0;
      [| discriminate].
    assert (E1 : consultarUsuario contrato from ag upd false s = (Ok r0, s1)).
    { unfold consultarUsuario, bind. rewrite E0. now destruct r0. }
    destruct (consultarUsuario_guardado contrato from ag upd s s1 r0 Hz E1)
      as (u1 & -> & F1 & _).
    unfold bind at 1.
    pose proof (conectarUpline_blanda contrato (toLowerCase from) s1) as Hb.
    destruct (conectarUpline contrato (toLowerCase from) s1) as [[b | e] s2];
      [| discriminate].
    cbn [snd] in Hb. destruct (Hb _ _ F1) as (d' & F' & _).
    unfold bind, findOne, ret. rewrite F'. intros [= <- <-].
    exists d'. repeat split; try assumption; discriminate.
  - intros E.
    destruct (consultarUsuario_guardado contrato from ag upd s s' r Hz E)
      as (u & Hr & F & Hix & Hnew).
    exists u. auto.
Qed.

Lemma lookup_returns_stored_document_witness :
  exists u,
    find (es_wallet "0xbb")
      (binario (snd (consultarUsuario libro "0xBB" true true false estadoCuenta))) = Some u /\
    leerIndexado "0xbb"
      (binarioindexado (snd (consultarUsuario libro "0xBB" true true false estadoCuenta)))
      = Some (Some u) /\
    binario (snd (consultarUsuario libro "0xBB" true true false estadoCuenta))
      = binario estadoCuenta ++ [u].
Proof.
  destruct (lookup_returns_stored_document libro "0xBB" true true false estadoCuenta _ _
              ltac:(discriminate) eq_refl) as (u & _ & F & Hix & Hnew).
  exists u. split; [exact F |]. split; [exact (Hix eq_refl eq_refl) |].
  exact (proj1 (Hnew eq_refl eq_refl)).
Defined.

(** X13.  [lecturaBinari], when it completes on an address in lower case,
    other than the zero address, that had no document, has created the
    document and reads it: nothing to claim, no upline, and on both legs no
    child, no points, none used and nobody. *)
Theorem reading_unknown_wallet_is_zero
    (contrato : methods.Contrato) (w : string) (s s' : Estado) (r : option Lectura) :
  toLowerCase w = w ->
  w <> "0x0000000000000000000000000000000000000000"%string ->
  find (es_wallet w) (binario s) = None ->
  lecturaBinari contrato w s = (Ok r, s') ->
  exists u lec,
    r = Some lec /\
    binario s' = binario s ++ [u] /\ wallet u = w /\
    l_retirableBinario lec = 0 /\ l_upline lec = WalletVacia /\
    l_left lec = mkMano WalletVacia 0 0 0 0 /\
    l_right lec = mkMano WalletVacia 0 0 0 0.
Proof.
  intros Hw Hz F. unfold lecturaBinari. unfold bind at 1.
  destruct (consultarUsuario contrato w true false false s) as [[r0 | e] s1] eqn:E;
    [| discriminate].
  rewrite <- Hw in Hz.
  destruct (consultarUsuario_guardado contrato w true false s s1 r0 Hz E)
    as (u & _ & F1 & _ & Hnew).
  rewrite Hw in *. destruct (Hnew F) as (Hb & Hn).
  unfold bind, findOne, ret. rewrite F1. intros [= <- <-].
  unfold nucleo in Hn. injection Hn; intros.
  exists u. eexists. split; [reflexivity |].
  split; [assumption |]. split; [assumption |].
  cbn [l_retirableBinario l_upline l_left l_right].
  unfold puntosLado, puntos, reclamados, extra.
  repeat match goal with H : _ u = _ |- _ => rewrite H end.
  repeat split; reflexivity.
Qed.

Lemma reading_unknown_wallet_is_zero_witness :
  exists u lec,
    fst (lecturaBinari libro "0xbb" estadoCuenta) = Ok (Some lec) /\
    binario (snd (lecturaBinari libro "0xbb" estadoCuenta)) = binario estadoCuenta ++ [u] /\
    l_retirableBinario lec = 0.
Proof.
  destruct (reading_unknown_wallet_is_zero libro "0xbb" estadoCuenta _ _
              eq_refl ltac:(discriminate) eq_refl eq_refl)
    as (u & lec & Hr & Hb & _ & Hc & _).
  exists u, lec. split; [now rewrite <- Hr |]. split; [exact Hb | exact Hc].
Defined.

(** ** Refreshing from the ledger *)

(** The deposit loop of [actualizarUsuario] adds every deposit to [invertido]:
    its [leader] stays at 0. *)
Lemma sumarDepositosTodos_leader (depositos : list Deposito) :
  snd (sumarDepositosTodos depositos) = 0.
Proof.
  unfold sumarDepositosTodos.
  assert (H : forall acc,
             snd (fold_left (fun acc d =>
                               if orb (pasivo d) true then (fst acc + valor d, snd acc)
                               else (fst acc, snd acc + valor d)) depositos acc) = snd acc).
  { induction depositos as [| d r IH]; intros acc; cbn [fold_left]; [reflexivity |].
    rewrite IH. now rewrite orb_true_r. }
  apply H.
Qed.

Lemma length_update_first (w : string) (upd : Update) (b : list Binario) :
  List.length (update_first w upd b) = List.length b.
Proof.
  induction b as [| x b IH]; cbn [update_first List.length]; [reflexivity |].
  destruct (es_wallet w x); cbn [List.length]; congruence.
Qed.

(** What the update of a refresh leaves in the ledger's fields. *)
Lemma cambiosDe_campos (c : methods.Contrato) (y : string) (d : Binario) (upd : Update) :
  cambiosDe c y d = Some upd ->
  registered (aplicar upd d) = inv_registered (leerInvestor c y) /\
  invested (aplicar upd d) =
    (if inv_registered (leerInvestor c y) then inv_invested (leerInvestor c y) else 0) /\
  invested_leader (aplicar upd d) = 0 /\
  (inv_registered (leerInvestor c y) = true ->
   exists id consulta ra,
     methods.addressToId c y = Some id /\
     methods.upline c y = Some consulta /\
     methods.retirableA c y = Some ra /\
     idBlock (aplicar upd d) = parseInt id /\
     hand (aplicar upd d) = Some (parseInt (snd consulta)) /\
     retirableA (aplicar upd d) = Some (toNumber ra)) /\
  (referer d <> WalletVacia -> referer (aplicar upd d) = referer d).
Proof.
  unfold cambiosDe.
  destruct (methods.porcent c); [| discriminate].
  destruct (inv_registered (leerInvestor c y)).
  - destruct (methods.addressToId c y) as [id |]; [| discriminate].
    destruct (methods.upline c y) as [consulta |]; [| discriminate].
    destruct (methods.verListaDepositos c y) as [depositos |]; [| discriminate].
    destruct (methods.retirableA c y) as [ra |]; [| discriminate].
    rewrite sumarDepositosTodos_leader.
    change (0 <? toNumber 0) with false. cbv iota zeta.
    intros [= <-].
    destruct (String.eqb_spec (referer d) WalletVacia) as [E | E].
    + rewrite andb_true_r. destruct d, (parseInt (snd consulta) <=? 1); cbn.
      all: split; [reflexivity |]; split; [reflexivity |]; split; [reflexivity |].
      all: split; [intros _; exists id, consulta, ra; repeat split |].
      all: intros H; now destruct H.
    + rewrite andb_false_r. destruct d; cbn.
      split; [reflexivity |]; split; [reflexivity |]; split; [reflexivity |].
      split; [intros _; exists id, consulta, ra; repeat split | reflexivity].
  - intros [= <-]. destruct d; cbn.
    split; [reflexivity |]; split; [reflexivity |]; split; [reflexivity |].
    split; [discriminate | reflexivity].
Qed.

(** X14.  A refresh that completes on an account with a document leaves the
    document agreeing with the ledger: registered as the ledger says; the
    invested amount the ledger's one, whatever the account's deposits are,
    and 0 for an account the ledger does not know; the leader amount 0; and,
    for a registered account, the id, the hand and [retirableA] are the
    doubles of the ledger's, so the ledger's own values wherever those are
    within [MAX_SAFE_INTEGER]. *)
Theorem refresh_mirrors_ledger
    (contrato : methods.Contrato) (from : string) (s s' : Estado) (u : Binario) (b : bool) :
  find (es_wallet (toLowerCase from)) (binario s) = Some u ->
  actualizarUsuario contrato from s = (Ok b, s') ->
  exists u',
    find (es_wallet (toLowerCase from)) (binario s') = Some u' /\
    registered u' = inv_registered (leerInvestor contrato (toLowerCase from)) /\
    invested u' =
      (if inv_registered (leerInvestor contrato (toLowerCase from))
       then inv_invested (leerInvestor contrato (toLowerCase from)) else 0) /\
    invested_leader u' = 0 /\
    (inv_registered (leerInvestor contrato (toLowerCase from)) = true ->
     exists id consulta ra,
       methods.addressToId contrato (toLowerCase from) = Some id /\
       methods.upline contrato (toLowerCase from) = Some consulta /\
       methods.retirableA contrato (toLowerCase from) = Some ra /\
       idBlock u' = parseInt id /\
       hand u' = Some (parseInt (snd consulta)) /\
       retirableA u' = Some (toNumber ra) /\
       (Z.abs id <= MAX_SAFE_INTEGER -> idBlock u' = id) /\
       (Z.abs (snd consulta) <= MAX_SAFE_INTEGER -> hand u' = Some (snd consulta)) /\
       (Z.abs ra <= MAX_SAFE_INTEGER -> retirableA u' = Some ra)).
Proof.
  intros F. rewrite actualizarUsuario_run, F.
  destruct (cambiosDe contrato (toLowerCase from) u) as [upd |] eqn:E; [| discriminate].
  intros [= _ <-]. cbn [binario].
  exists (aplicar upd u). split; [now apply find_update_first |].
  destruct (cambiosDe_campos _ _ _ _ E) as (H1 & H2 & H3 & H4 & _).
  split; [exact H1 |]. split; [exact H2 |]. split; [exact H3 |].
  intros Hreg. destruct (H4 Hreg) as (id & consulta & ra & Ei & Ec & Er & Pi & Ph & Pr).
  exists id, consulta, ra.
  split; [exact Ei |]. split; [exact Ec |]. split; [exact Er |].
  split; [exact Pi |]. split; [exact Ph |]. split; [exact Pr |].
  unfold parseInt in *.
  split; [| split]; intros Hs.
  - now rewrite Pi, toNumber_exacto.
  - now rewrite Ph, toNumber_exacto.
  - now rewrite Pr, toNumber_exacto.
Qed.

Lemma refresh_mirrors_ledger_witness :
  exists u',
    find (es_wallet "0xaa")
      (binario (snd (actualizarUsuario libroGrande "0xAA" estadoCuenta))) = Some u' /\
    registered u' = true /\ invested u' = 100 /\ invested_leader u' = 0 /\
    idBlock u' = 7 /\ hand u' = Some 1 /\
    retirableA u' = Some 12345678901234567168.
Proof.
  destruct (refresh_mirrors_ledger libroGrande "0xAA" estadoCuenta _ _ _
              eq_refl eq_refl) as (u' & F & Hr & Hi & Hl & H).
  destruct (H eq_refl) as (id & consulta & ra & Ei & Ec & Er & Pi & Ph & Pr & _).
  injection Ei as <-. injection Ec as <-. injection Er as <-.
  exists u'. split; [exact F |]. split; [exact Hr |]. split; [exact Hi |].
  split; [exact Hl |]. split; [exact Pi |]. split; [exact Ph | exact Pr].
Defined.

(** X15.  A refresh never replaces a referer: the document of an account
    whose referer is set has the same referer afterwards, whatever the ledger
    answers and whether the refresh completes or not. *)
Theorem refresh_keeps_set_referer
    (contrato : methods.Contrato) (from : string) (s : Estado) (u : Binario) :
  find (es_wallet (toLowerCase from)) (binario s) = Some u ->
  referer u <> WalletVacia ->
  exists u',
    find (es_wallet (toLowerCase from))
      (binario (snd (actualizarUsuario contrato from s))) = Some u' /\
    referer u' = referer u.
Proof.
  intros F Hr. rewrite actualizarUsuario_run, F.
  destruct (cambiosDe contrato (toLowerCase from) u) as [upd |] eqn:E; cbn [snd binario].
  - exists (aplicar upd u). split; [now apply find_update_first |].
    now apply (cambiosDe_campos _ _ _ _ E).
  - exists u. auto.
Qed.

Lemma refresh_keeps_set_referer_witness :
  exists u',
    find (es_wallet "0xaa")
      (binario (snd (actualizarUsuario ledgerDerecha "0xAA" estadoAdverso))) = Some u' /\
    referer u' = "0xrr"%string.
Proof.
  exact (refresh_keeps_set_referer ledgerDerecha "0xAA" estadoAdverso _ eq_refl
           ltac:(discriminate)).
Defined.

(** X16.  A refresh that does not answer [true] has written nothing, and it
    answers [false] exactly when the account has no document: with a document,
    it fails only by a rejected ledger call, before any write. *)
Theorem refresh_not_done_writes_nothing
    (contrato : methods.Contrato) (from : string) (s s' : Estado) (r : Res bool) :
  actualizarUsuario contrato from s = (r, s') ->
  r <> Ok true ->
  s' = s /\
  (r = Ok false <-> find (es_wallet (toLowerCase from)) (binario s) = None).
Proof.
  rewrite actualizarUsuario_run.
  destruct (find (es_wallet (toLowerCase from)) (binario s)) as [u |].
  - destruct (cambiosDe contrato (toLowerCase from) u) as [upd |].
    + intros [= <- <-] H. now destruct H.
    + intros [= <- <-] _. split; [reflexivity |]. split; discriminate.
  - intros [= <- <-] _. split; [reflexivity |]. split; reflexivity.
Qed.

Lemma refresh_not_done_writes_nothing_witness :
  snd (actualizarUsuario libro "0xZZ" estadoCuenta) = estadoCuenta /\
  (fst (actualizarUsuario libro "0xZZ" estadoCuenta) = Ok false <->
   find (es_wallet (toLowerCase "0xZZ")) (binario estadoCuenta) = None).
Proof.
  exact (refresh_not_done_writes_nothing libro "0xZZ" estadoCuenta _ _ eq_refl
           ltac:(discriminate)).
Defined.

(** X17.  A refresh, whatever it answers, adds and removes no document,
    leaves the documents of the other wallets exactly as they were, and leaves
    the refreshed one its place in the tree and all its points. *)
Theorem refresh_touches_one_document
    (contrato : methods.Contrato) (from : string) (s : Estado) (y : string) (d : Binario) :
  find (es_wallet y) (binario s) = Some d ->
  List.length (binario (snd (actualizarUsuario contrato from s))) = List.length (binario s) /\
  exists d',
    find (es_wallet y) (binario (snd (actualizarUsuario contrato from s))) = Some d' /\
    nucleo d' = nucleo d /\
    (y <> toLowerCase from -> d' = d).
Proof.
  intros F. rewrite actualizarUsuario_run.
  destruct (find (es_wallet (toLowerCase from)) (binario s)) as [u |] eqn:Fu;
    cbn [snd]; [| split; [reflexivity | exists d; auto]].
  destruct (cambiosDe contrato (toLowerCase from) u) as [upd |] eqn:E;
    cbn [snd binario]; [| split; [reflexivity | exists d; auto]].
  split; [apply length_update_first |].
  destruct (String.eqb_spec (toLowerCase from) y) as [Ey | Hne].
  - rewrite <- Ey in *. assert (d = u) as -> by congruence.
    exists (aplicar upd u). split; [now apply find_update_first |].
    split; [apply nucleo_aplicar; eapply cambiosDe_ledger; eassumption |].
    intros H. now destruct H.
  - exists d. split; [now rewrite find_update_first_otro |]. auto.
Qed.

Lemma refresh_touches_one_document_witness :
  List.length (binario (snd (actualizarUsuario ledgerDerecha "0xAA" estadoAdverso)))
    = List.length (binario estadoAdverso) /\
  exists d',
    find (es_wallet "0xpp")
      (binario (snd (actualizarUsuario ledgerDerecha "0xAA" estadoAdverso))) = Some d' /\
    nucleo d' = nucleo (aplicar [c_left "0xaa"] (cuenta "0xpp" 800 500 0 500 500 0)) /\
    ("0xpp"%string <> toLowerCase "0xAA" ->
     d' = aplicar [c_left "0xaa"] (cuenta "0xpp" 800 500 0 500 500 0)).
Proof.
  exact (refresh_touches_one_document ledgerDerecha "0xAA" estadoAdverso "0xpp" _ eq_refl).
Defined.

(** ** Choosing among several holders *)

(** The loop over [ubication], from any point on: [pre] is the part already
    seen, [menor] the [idBlock] of the holder at [ganador]. *)
Lemma elegirGanador_inv (r pre : list Binario) (menor : Z) (ganador : nat) (u0 : Binario) :
  (ganador < List.length pre)%nat ->
  idBlock (nth ganador (pre ++ r) u0) = menor ->
  let g := elegirGanador r (List.length pre) menor ganador in
  (g < List.length (pre ++ r))%nat /\
  idBlock (nth g (pre ++ r) u0) <= menor /\
  (forall u, In u r -> idBlock u <> 0 -> idBlock (nth g (pre ++ r) u0) <= idBlock u) /\
  (g = ganador \/
   (idBlock (nth g (pre ++ r) u0) <> 0 /\ idBlock (nth g (pre ++ r) u0) < menor)).
Proof.
  revert pre menor ganador.
  induction r as [| u r IH]; intros pre menor ganador Hg Hm; cbn [elegirGanador].
  - cbn zeta. rewrite app_nil_r in *.
    split; [lia |]. split; [lia |]. split; [intros u [] | now left].
  - assert (Hpre : pre ++ u :: r = (pre ++ [u]) ++ r) by now rewrite <- app_assoc.
    assert (Hlen : S (List.length pre) = List.length (pre ++ [u])).
    { rewrite length_app. cbn. lia. }
    destruct (andb (negb (idBlock u =? 0)) (idBlock u <? menor)) eqn:C.
    + apply andb_prop in C. destruct C as [C0 C1].
      apply negb_true_iff, Z.eqb_neq in C0. apply Z.ltb_lt in C1.
      rewrite Hpre, Hlen.
      destruct (IH (pre ++ [u]) (idBlock u) (List.length pre)) as (G1 & G2 & G3 & G4).
      { rewrite length_app. cbn. lia. }
      { rewrite <- Hpre. now rewrite nth_middle. }
      cbn zeta in *. split; [assumption |]. split; [lia |]. split.
      * intros x [<- | Hx] Hx0; [assumption | now apply G3].
      * right. destruct G4 as [-> | [? ?]].
        -- rewrite <- Hpre, nth_middle. split; assumption.
        -- split; [assumption | lia].
    + rewrite Hpre, Hlen.
      destruct (IH (pre ++ [u]) menor ganador) as (G1 & G2 & G3 & G4).
      { rewrite length_app. cbn. lia. }
      { now rewrite <- Hpre. }
      cbn zeta in *. split; [assumption |]. split; [assumption |]. split; [| assumption].
      intros x [<- | Hx] Hx0; [| now apply G3].
      apply andb_false_iff in C. destruct C as [C | C].
      * apply negb_false_iff, Z.eqb_eq in C. contradiction.
      * apply Z.ltb_ge in C. lia.
Qed.

(** X18.  Among several holders of one child, the first loop of the conflict
    branch picks a holder of the list, whose [idBlock] is at most that of the
    first holder and at most every [idBlock] of the list other than 0; and it
    leaves the first holder only for one whose [idBlock] is not 0 and strictly
    lower. *)
Theorem elegirGanador_picks_lowest_id (u0 : Binario) (r : list Binario) :
  let ubication := u0 :: r in
  let ganador := elegirGanador ubication 0 (idBlock u0) 0 in
  let elegido := nth ganador ubication u0 in
  (ganador < List.length ubication)%nat /\
  idBlock elegido <= idBlock u0 /\
  (forall u, In u ubication -> idBlock u <> 0 -> idBlock elegido <= idBlock u) /\
  (ganador <> 0%nat -> idBlock elegido <> 0 /\ idBlock elegido < idBlock u0).
Proof.
  cbn zeta. cbn [elegirGanador].
  replace (andb (negb (idBlock u0 =? 0)) (idBlock u0 <? idBlock u0)) with false
    by (rewrite Z.ltb_irrefl; now rewrite andb_false_r).
  destruct (elegirGanador_inv r [u0] (idBlock u0) 0 u0) as (G1 & G2 & G3 & G4);
    [cbn; lia | reflexivity |].
  cbn [List.length app] in *. cbn zeta in *.
  split; [assumption |]. split; [assumption |]. split.
  - intros u [<- | Hu] H0; [assumption | now apply G3].
  - intros Hne. destruct G4 as [E | H]; [contradiction | assumption].
Qed.

(** ** Placing an account below its referer *)

Lemma mantiene_refl (l : Lado) (b : list Binario) : mantiene l b b.
Proof. intros y d H. exists d. auto. Qed.

Lemma mantiene_trans (l : Lado) (b1 b2 b3 : list Binario) :
  mantiene l b1 b2 -> mantiene l b2 b3 -> mantiene l b1 b3.
Proof.
  intros H12 H23 y d H.
  destruct (H12 y d H) as (d2 & F2 & U2 & C2).
  destruct (H23 y d2 F2) as (d3 & F3 & U3 & C3).
  exists d3. repeat split; congruence.
Qed.

Lemma ajeno_setCampo (l : Lado) (c : Campo) (d : Binario) :
  es_ajeno l c = true -> up (setCampo c d) = up d /\ hijo l (setCampo c d) = hijo l d.
Proof. destruct c, l, d; cbn; intros H; try discriminate H; auto. Qed.

Lemma ajeno_aplicar (l : Lado) (upd : Update) (d : Binario) :
  forallb (es_ajeno l) upd = true ->
  up (aplicar upd d) = up d /\ hijo l (aplicar upd d) = hijo l d.
Proof.
  unfold aplicar. revert d.
  induction upd as [| c upd IH]; intros d H; cbn [fold_left]; [auto |].
  cbn [forallb] in H. apply andb_prop in H. destruct H as [Hc Hupd].
  destruct (IH (setCampo c d) Hupd) as [-> ->]. now apply ajeno_setCampo.
Qed.

Lemma mantiene_update_first (l : Lado) (w : string) (upd : Update) (b : list Binario) :
  forallb (es_ajeno l) upd = true -> mantiene l b (update_first w upd b).
Proof.
  intros Hupd y d H.
  destruct (String.eqb_spec w y) as [-> | Hne].
  - exists (aplicar upd d). split; [now apply find_update_first | now apply ajeno_aplicar].
  - exists d. split; [now rewrite find_update_first_otro | auto].
Qed.

Lemma extiende_mantiene (l : Lado) (b b' : list Binario) : extiende b b' -> mantiene l b b'.
Proof.
  intros H y d F. destruct (H y d F) as (d' & F' & N). exists d'. split; [assumption |].
  unfold nucleo in N. injection N; intros. destruct l; cbn [hijo]; auto.
Qed.

Lemma soltarAdversos_mantiene (l : Lado) (adverso : list Binario) :
  conserva (mantiene l) (soltarAdversos (otro l) adverso).
Proof.
  induction adverso as [| x r IH]; cbn [soltarAdversos].
  - apply (conserva_ret _ (mantiene_refl l)).
  - apply (conserva_bind _ (mantiene_trans l)); [| intros _; exact IH].
    intros s. cbn [updateOne snd binario]. apply mantiene_update_first.
    destruct l; reflexivity.
Qed.

(** *** Chains of filled slots *)

Lemma camino_det (b : list Binario) (l : Lado) (from : string) (r1 r2 : list string)
    (n f1 f2 : string) :
  camino b l from n r1 f1 -> camino b l from n r2 f2 -> r1 = r2.
Proof.
  revert n r2. induction r1 as [| a r1 IH]; intros n [| m r2]; cbn [camino].
  - reflexivity.
  - intros (_ & _ & d & F & H) (Hm & _ & (d' & F' & H') & _). congruence.
  - intros (Hm & _ & (d' & F' & H') & _) (_ & _ & d & F & H). congruence.
  - intros (_ & _ & (d & F & H) & C1) (_ & _ & (d' & F' & H') & C2).
    assert (a = m) as -> by congruence. f_equal. eapply IH; eassumption.
Qed.

Lemma camino_sufijo (b : list Binario) (l : Lado) (from : string) (resto : list string)
    (n fin x : string) :
  camino b l from n resto fin -> In x resto ->
  exists r', camino b l from x r' fin /\ (List.length r' < List.length resto)%nat.
Proof.
  revert n. induction resto as [| m r IH]; intros n; cbn [camino]; [intros _ [] |].
  intros (_ & _ & _ & C) [<- | Hx].
  - exists r. split; [assumption | cbn; lia].
  - destruct (IH m C Hx) as (r' & C' & Hl). exists r'. split; [assumption | cbn; lia].
Qed.

Lemma camino_nodup (b : list Binario) (l : Lado) (from : string) (resto : list string)
    (n fin : string) :
  camino b l from n resto fin -> NoDup (n :: resto).
Proof.
  revert n. induction resto as [| m r IH]; intros n C.
  - repeat constructor. intros [].
  - constructor.
    + intros Hin. destruct (camino_sufijo _ _ _ _ _ _ _ C Hin) as (r' & C' & Hl).
      rewrite (camino_det _ _ _ _ _ _ _ _ C' C) in Hl. lia.
    + apply IH. cbn [camino] in C. tauto.
Qed.

Lemma camino_incl (b : list Binario) (l : Lado) (from : string) (resto : list string)
    (n fin : string) :
  camino b l from n resto fin -> incl (n :: resto) (map wallet b).
Proof.
  revert n. induction resto as [| m r IH]; intros n; cbn [camino].
  - intros (_ & _ & d & F & _) x [<- | []]. eapply find_wallet_in; eassumption.
  - intros (_ & _ & (d & F & _) & C) x [<- | Hx].
    + eapply find_wallet_in; eassumption.
    + now apply (IH m C).
Qed.

Lemma camino_largo (b : list Binario) (l : Lado) (from : string) (resto : list string)
    (n fin : string) :
  camino b l from n resto fin -> (List.length resto < List.length b)%nat.
Proof.
  intros C.
  pose proof (NoDup_incl_length (camino_nodup _ _ _ _ _ _ C) (camino_incl _ _ _ _ _ _ C)) as H.
  rewrite length_map in H. cbn [List.length] in H. lia.
Qed.

Lemma camino_fin (b : list Binario) (l : Lado) (from : string) (resto : list string)
    (n fin : string) :
  camino b l from n resto fin ->
  fin <> from /\ exists d, find (es_wallet fin) b = Some d /\ hijo l d = WalletVacia.
Proof.
  revert n. induction resto as [| m r IH]; intros n; cbn [camino].
  - intros (<- & Hn & H). auto.
  - intros (_ & _ & _ & C). now apply (IH m).
Qed.

(** The walk along a chain: it ends at the chain's end, where it fills the
    empty slot and sets the upline. *)
Lemma ubicar_camino (contrato : methods.Contrato) (l : Lado) (from fin : string)
    (s : Estado) (resto : list string) (n : string) (lista : list string) (fuel : nat) :
  from <> WalletVacia ->
  camino (binario s) l from n resto fin ->
  (forall x, In x lista -> ~ In x (n :: resto)) ->
  (List.length resto < fuel)%nat ->
  ubicar contrato l fuel from n lista s =
  (Ok 2, mkEstado (update_first from [c_up fin]
                     (update_first fin [c_hijo l from] (binario s)))
                  (binarioindexado s)).
Proof.
  intros Hfrom. revert n lista fuel.
  induction resto as [| m r IH]; intros n lista fuel C Hl Hfuel;
    (destruct fuel as [| fuel]; [cbn in Hfuel; lia |]); cbn [ubicar];
    unfold bind at 1, findOne at 1.
  - cbn [camino] in C. destruct C as (-> & Hn & d & F & H). rewrite F, H.
    pose proof (find_es_wallet _ _ _ F) as Hw. rewrite Hw.
    destruct (String.eqb_spec WalletVacia from) as [E | _]; [now destruct Hfrom |].
    destruct (String.eqb_spec fin from) as [E | _]; [contradiction |].
    rewrite String.eqb_refl. cbn [andb negb]. reflexivity.
  - pose proof (camino_nodup _ _ _ _ _ _ C) as Hnd.
    cbn [camino] in C. destruct C as (Hm & Hmf & (d & F & H) & C). rewrite F, H.
    pose proof (find_es_wallet _ _ _ F) as Hw.
    destruct (String.eqb_spec m from) as [E | _]; [contradiction |].
    destruct (String.eqb_spec m WalletVacia) as [E | _]; [contradiction |].
    cbn [andb].
    replace (match l with izquierda => wallet d | derecha => n end) with n
      by (destruct l; auto).
    assert (Ex : existsb (String.eqb n) lista = false).
    { destruct (existsb (String.eqb n) lista) eqn:Ex; [| reflexivity].
      apply existsb_exists in Ex. destruct Ex as (x & Hx & E).
      apply String.eqb_eq in E. subst x. destruct (Hl n Hx). now left. }
    rewrite Ex. cbn [negb].
    apply IH; [assumption | | cbn in Hfuel; lia].
    intros x Hx. apply in_app_or in Hx. destruct Hx as [Hx | [<- | []]].
    + intros Hin. apply (Hl x Hx). now right.
    + now inversion Hnd.
Qed.

(** *** Running a bind whose first part is known *)

Lemma bind_ok {A B} (m : M A) (k : A -> M B) (s s1 : Estado) (a : A) :
  m s = (Ok a, s1) -> bind m k s = k a s1.
Proof. intros H. unfold bind. now rewrite H. Qed.

Lemma bind_bind_ok {A B C} (m : M A) (k1 : A -> M B) (k2 : B -> M C) (s s1 : Estado) (a : A) :
  m s = (Ok a, s1) -> bind (bind m k1) k2 s = bind (k1 a) k2 s1.
Proof. intros H. unfold bind. now rewrite H. Qed.

(** [conectarLado] when nobody holds [from] on leg [l] and a chain leads from
    the referer to an empty slot. *)
Lemma conectarLado_camino (contrato : methods.Contrato) (l : Lado) (from referer_ : string)
    (userTemp : Binario) (s : Estado) (resto : list string) (fin : string) :
  from <> WalletVacia ->
  filter (fun u => String.eqb (hijo l u) from) (binario s) = [] ->
  camino (binario s) l from referer_ resto fin ->
  exists s2,
    conectarLado contrato l from referer_ userTemp s = (Ok tt, s2) /\
    mantiene l (update_first from [c_up fin] (update_first fin [c_hijo l from] (binario s)))
               (binario s2).
Proof.
  intros Hfrom Hnadie C. unfold conectarLado.
  unfold bind at 1, find_por at 1. rewrite Hnadie.
  rewrite (bind_bind_ok _ _ _ s s (binario s)) by reflexivity.
  rewrite (bind_bind_ok _ _ _ _ _ _
             (ubicar_camino contrato l from fin s resto referer_ [] _ Hfrom C
                (fun x H => match H with end)
                (Nat.lt_lt_succ_r _ _ (camino_largo _ _ _ _ _ _ C)))).
  rewrite (bind_ok (ret tt) _ _ _ tt) by reflexivity.
  match goal with
  | |- context [bind _ _ ?s1] => set (st := s1)
  end.
  unfold bind, find_por.
  pose proof (soltarAdversos_ok (otro l)
                (filter (fun u => String.eqb (hijo (otro l) u) from) (binario st)) st) as Hok.
  pose proof (soltarAdversos_mantiene l
                (filter (fun u => String.eqb (hijo (otro l) u) from) (binario st)) st) as Hm.
  destruct (soltarAdversos (otro l)
              (filter (fun u => String.eqb (hijo (otro l) u) from) (binario st)) st)
    as [r s2].
  cbn [fst snd] in *. subst r. exists s2. split; [reflexivity | exact Hm].
Qed.

(** [conectarUpline] on an account with a referer and no upline yet, whose
    ledger referer has a document, once the side the ledger names is done. *)
Lemma conectarUpline_tras_lado (contrato : methods.Contrato) (l : Lado) (from ref : string)
    (hand : Z) (s s2 : Estado) (d0 dr d2 : Binario) :
  toLowerCase from = from ->
  from <> WalletVacia ->
  find (es_wallet from) (binario s) = Some d0 ->
  referer d0 <> WalletVacia ->
  up d0 = WalletVacia ->
  methods.upline contrato from = Some (ref, hand) ->
  hand = match l with izquierda => 0 | derecha => 1 end ->
  toLowerCase ref <> WalletVacia ->
  find (es_wallet (toLowerCase ref)) (binario s) = Some dr ->
  conectarLado contrato l from (toLowerCase ref) d0 s = (Ok tt, s2) ->
  find (es_wallet from) (binario s2) = Some d2 ->
  exists ix,
    conectarUpline contrato from s =
    (Ok false,
     mkEstado (update_first from [c_referer (toLowerCase ref)] (binario s2)) ix).
Proof.
  intros Hlow Hfrom F0 Hr Hu Hup Hh Hrf Fr E2 F2.
  unfold conectarUpline. rewrite Hlow.
  unfold bind at 1, findOne at 1. rewrite F0, Hup. cbn [fst snd].
  unfold bind at 1, findOne at 1. rewrite Fr.
  destruct (String.eqb_spec (toLowerCase ref) WalletVacia) as [E | _]; [contradiction |].
  destruct (String.eqb_spec (referer d0) WalletVacia) as [E | _]; [contradiction |].
  rewrite Hu. rewrite String.eqb_refl. cbn [negb andb].
  pose proof (find_es_wallet _ _ _ F0) as Hw. rewrite Hw.
  destruct (String.eqb_spec WalletVacia from) as [E | _]; [now destruct Hfrom |].
  cbn [app].
  assert (Hlado :
    bind (bind (if parseIntNumber (parseInt hand) =? 0
                then conectarLado contrato izquierda from (toLowerCase ref) d0
                else ret tt)
               (fun _ => if parseIntNumber (parseInt hand) =? 1
                         then conectarLado contrato derecha from (toLowerCase ref) d0
                         else ret tt))
         (fun _ => ret [c_referer (toLowerCase ref)]) s
    = (Ok [c_referer (toLowerCase ref)], s2)).
  { subst hand. destruct l.
    - change (parseIntNumber (parseInt 0) =? 0) with true.
      change (parseIntNumber (parseInt 0) =? 1) with false.
      unfold bind, ret. rewrite E2. reflexivity.
    - change (parseIntNumber (parseInt 1) =? 0) with false.
      change (parseIntNumber (parseInt 1) =? 1) with true.
      unfold bind, ret. rewrite E2. reflexivity. }
  rewrite (bind_bind_ok _ _ _ _ _ _ Hlado).
  rewrite (bind_bind_ok _ _ _ s2
             (mkEstado (update_first from [c_referer (toLowerCase ref)] (binario s2))
                       (binarioindexado s2)) tt) by reflexivity.
  assert (F3 : find (es_wallet from)
                 (update_first from [c_referer (toLowerCase ref)] (binario s2))
               = Some (aplicar [c_referer (toLowerCase ref)] d2)).
  { now apply find_update_first. }
  assert (Hz : toLowerCase from <> "0x0000000000000000000000000000000000000000"%string).
  { rewrite Hlow. exact Hfrom. }
  pose proof (consultarUsuario0_run contrato from true false
                (mkEstado (update_first from [c_referer (toLowerCase ref)] (binario s2))
                          (binarioindexado s2)) Hz) as Hrun.
  rewrite Hlow in Hrun. cbn [binario binarioindexado] in Hrun. rewrite F3 in Hrun.
  rewrite (bind_bind_ok _ _ _ _ _ _ Hrun).
  rewrite (bind_ok (ret false) _ _ _ false) by reflexivity.
  unfold bind, findOne, ret. cbn [binario]. rewrite F3.
  eexists. reflexivity.
Qed.

(** X19.  Placement at the end of a chain.  The account [from] has a document
    with a referer and no upline; the ledger names its referer and a side;
    nobody holds [from] on that side; and from the referer's document the
    slots of that side lead, through documents, to a document [fin] whose slot
    is empty.  Then [conectarUpline] answers [false] and leaves [from] with
    upline [fin] and the ledger's referer, and [fin] holding [from] in that
    slot. *)
Theorem placement_fills_end_of_chain
    (contrato : methods.Contrato) (l : Lado) (from ref : string)
    (hand : Z) (s : Estado) (d0 : Binario) (resto : list string) (fin : string) :
  toLowerCase from = from ->
  from <> WalletVacia ->
  find (es_wallet from) (binario s) = Some d0 ->
  referer d0 <> WalletVacia ->
  up d0 = WalletVacia ->
  methods.upline contrato from = Some (ref, hand) ->
  hand = match l with izquierda => 0 | derecha => 1 end ->
  toLowerCase ref <> WalletVacia ->
  filter (fun u => String.eqb (hijo l u) from) (binario s) = [] ->
  camino (binario s) l from (toLowerCase ref) resto fin ->
  exists s' d' f',
    conectarUpline contrato from s = (Ok false, s') /\
    find (es_wallet from) (binario s') = Some d' /\
    up d' = fin /\ referer d' = toLowerCase ref /\
    find (es_wallet fin) (binario s') = Some f' /\ hijo l f' = from.
Proof.
  intros Hlow Hfrom F0 Hr Hu Hup Hh Hrf Hnadie C.
  assert (Fr : exists dr, find (es_wallet (toLowerCase ref)) (binario s) = Some dr).
  { destruct resto; cbn [camino] in C.
    - destruct C as (_ & _ & d & F & _). now exists d.
    - destruct C as (_ & _ & (d & F & _) & _). now exists d. }
  destruct Fr as (dr & Fr).
  destruct (conectarLado_camino contrato l from (toLowerCase ref) d0 s resto fin
              Hfrom Hnadie C) as (s2 & E2 & M2).
  destruct (camino_fin _ _ _ _ _ _ C) as (Hfin & df & Ff & _).
  destruct (M2 from (aplicar [c_up fin] d0)) as (d2 & F2 & U2 & _).
  { apply find_update_first. now rewrite find_update_first_otro. }
  destruct (M2 fin (aplicar [c_hijo l from] df)) as (f2 & Ff2 & _ & H2).
  { rewrite find_update_first_otro by auto. now apply find_update_first. }
  destruct (conectarUpline_tras_lado contrato l from ref hand s s2 d0 dr d2
              Hlow Hfrom F0 Hr Hu Hup Hh Hrf Fr E2 F2) as (ix & ->).
  eexists. exists (aplicar [c_referer (toLowerCase ref)] d2), f2.
  split; [reflexivity |]. cbn [binario].
  split; [now apply find_update_first |].
  split.
  { rewrite (proj1 (ajeno_aplicar l [c_referer (toLowerCase ref)] d2 eq_refl)), U2.
    now destruct d0. }
  split; [now destruct d2 |].
  split; [now rewrite find_update_first_otro by auto |].
  rewrite H2. now destruct l, df.
Qed.

Lemma placement_fills_end_of_chain_witness :
  exists s' d' f',
    conectarUpline ledgerIzquierda "0xaa" estadoCadena = (Ok false, s') /\
    find (es_wallet "0xaa") (binario s') = Some d' /\
    up d' = "0xmm"%string /\ referer d' = toLowerCase "0xrr" /\
    find (es_wallet "0xmm") (binario s') = Some f' /\ hijo izquierda f' = "0xaa"%string.
Proof.
  refine (placement_fills_end_of_chain ledgerIzquierda izquierda "0xaa" "0xrr" 0
            estadoCadena _ ["0xmm"%string] "0xmm" eq_refl _ eq_refl _ eq_refl eq_refl
            eq_refl _ eq_refl _); try discriminate.
  cbn. repeat split; try discriminate; eexists; split; reflexivity.
Defined.

(** [conectarLado] when exactly one document holds [from] on leg [l]. *)
Lemma conectarLado_unico (contrato : methods.Contrato) (l : Lado) (from referer_ : string)
    (userTemp p : Binario) (s : Estado) :
  filter (fun u => String.eqb (hijo l u) from) (binario s) = [p] ->
  exists s2,
    conectarLado contrato l from referer_ userTemp s = (Ok tt, s2) /\
    mantiene l (if negb (String.eqb (up userTemp) (wallet p))
                then update_first from [c_up (wallet p)] (binario s) else binario s)
               (binario s2).
Proof.
  intros Hp. unfold conectarLado.
  unfold bind at 1, find_por at 1. rewrite Hp.
  set (st := if negb (String.eqb (up userTemp) (wallet p))
             then mkEstado (update_first from [c_up (wallet p)] (binario s))
                           (binarioindexado s)
             else s).
  rewrite (bind_ok _ _ s st tt) by (unfold st; now destruct (negb _)).
  replace (if negb (String.eqb (up userTemp) (wallet p))
           then update_first from [c_up (wallet p)] (binario s) else binario s)
    with (binario st) by (unfold st; now destruct (negb _)).
  unfold bind, find_por.
  pose proof (soltarAdversos_ok (otro l)
                (filter (fun u => String.eqb (hijo (otro l) u) from) (binario st)) st) as Hok.
  pose proof (soltarAdversos_mantiene l
                (filter (fun u => String.eqb (hijo (otro l) u) from) (binario st)) st) as Hm.
  destruct (soltarAdversos (otro l)
              (filter (fun u => String.eqb (hijo (otro l) u) from) (binario st)) st)
    as [r s2].
  cbn [fst snd] in *. subst r. exists s2. split; [reflexivity | exact Hm].
Qed.

(** X20.  Repair of the upline.  The account [from] has a document with a
    referer and no upline; the ledger names its referer, who has a document,
    and a side; and exactly one document [p] holds [from] on that side.  Then
    [conectarUpline] answers [false] and leaves [from] with
    the wallet of [p] as upline and the ledger's referer; every document
    keeps its child on that side. *)
Theorem single_holder_becomes_upline
    (contrato : methods.Contrato) (l : Lado) (from ref : string)
    (hand : Z) (s : Estado) (d0 dr p : Binario) :
  toLowerCase from = from ->
  from <> WalletVacia ->
  find (es_wallet from) (binario s) = Some d0 ->
  referer d0 <> WalletVacia ->
  up d0 = WalletVacia ->
  methods.upline contrato from = Some (ref, hand) ->
  hand = match l with izquierda => 0 | derecha => 1 end ->
  toLowerCase ref <> WalletVacia ->
  find (es_wallet (toLowerCase ref)) (binario s) = Some dr ->
  filter (fun u => String.eqb (hijo l u) from) (binario s) = [p] ->
  exists s' d',
    conectarUpline contrato from s = (Ok false, s') /\
    find (es_wallet from) (binario s') = Some d' /\
    up d' = wallet p /\ referer d' = toLowerCase ref /\
    (forall y d, find (es_wallet y) (binario s) = Some d ->
                 exists d2, find (es_wallet y) (binario s') = Some d2 /\
                            hijo l d2 = hijo l d).
Proof.
  intros Hlow Hfrom F0 Hr Hu Hup Hh Hrf Fr Hp.
  destruct (conectarLado_unico contrato l from (toLowerCase ref) d0 p s Hp)
    as (s2 & E2 & M2).
  set (b1 := if negb (String.eqb (up d0) (wallet p))
             then update_first from [c_up (wallet p)] (binario s) else binario s) in M2.
  assert (M1 : forall y d, find (es_wallet y) (binario s) = Some d ->
                 exists d1, find (es_wallet y) b1 = Some d1 /\ hijo l d1 = hijo l d /\
                            (y = from -> up d1 = wallet p)).
  { intros y d F. unfold b1.
    destruct (String.eqb_spec (up d0) (wallet p)) as [E | _]; cbn [negb].
    - exists d. repeat split; auto. intros ->. congruence.
    - destruct (String.eqb_spec from y) as [<- | Hne].
      + exists (aplicar [c_up (wallet p)] d).
        split; [now apply find_update_first |].
        split; now destruct l, d.
      + exists d. split; [now rewrite find_update_first_otro |]. split; congruence. }
  destruct (M1 from d0 F0) as (d1 & F1 & _ & U1).
  destruct (M2 from d1 F1) as (d2 & F2 & U2 & _).
  destruct (conectarUpline_tras_lado contrato l from ref hand s s2 d0 dr d2
              Hlow Hfrom F0 Hr Hu Hup Hh Hrf Fr E2 F2) as (ix & ->).
  eexists. exists (aplicar [c_referer (toLowerCase ref)] d2).
  split; [reflexivity |]. cbn [binario].
  split; [now apply find_update_first |].
  split.
  { rewrite (proj1 (ajeno_aplicar l [c_referer (toLowerCase ref)] d2 eq_refl)), U2.
    now apply U1. }
  split; [now destruct d2 |].
  intros y d F.
  destruct (M1 y d F) as (y1 & Fy1 & Hy1 & _).
  destruct (M2 y y1 Fy1) as (y2 & Fy2 & _ & Hy2).
  destruct (mantiene_update_first l from [c_referer (toLowerCase ref)] (binario s2)
              eq_refl y y2 Fy2) as (y3 & Fy3 & _ & Hy3).
  exists y3. split; [assumption | congruence].
Qed.

Lemma single_holder_becomes_upline_witness :
  exists s' d',
    conectarUpline ledgerIzquierda "0xaa" estadoAdverso = (Ok false, s') /\
    find (es_wallet "0xaa") (binario s') = Some d' /\
    up d' = "0xpp"%string /\ referer d' = toLowerCase "0xrr" /\
    (forall y d, find (es_wallet y) (binario estadoAdverso) = Some d ->
                 exists d2, find (es_wallet y) (binario s') = Some d2 /\
                            hijo izquierda d2 = hijo izquierda d).
Proof.
  refine (single_holder_becomes_upline ledgerIzquierda izquierda "0xaa" "0xrr" 0
            estadoAdverso _ _ _ eq_refl _ eq_refl _ eq_refl eq_refl eq_refl _
            eq_refl eq_refl); discriminate.
Defined.

(** ** What [conectarUpline] does when it places nothing *)

(** The collection [crearUsuario] leaves: the one it found with one document
    updated, or, for a wallet without a document, with one document more. *)
Lemma crearUsuario_forma (contrato : methods.Contrato) (from : string) (s : Estado) :
  (exists upd, forallb es_de_ledger upd = true /\
               binario (snd (crearUsuario contrato from s))
               = update_first (toLowerCase from) upd (binario s)) \/
  (find (es_wallet (toLowerCase from)) (binario s) = None /\
   exists nu, wallet nu = toLowerCase from /\
              binario (snd (crearUsuario contrato from s)) = binario s ++ [nu]).
Proof.
  cut (forall b', binario (snd (crearUsuario contrato from s)) = b' ->
         (exists upd, forallb es_de_ledger upd = true /\
                      b' = update_first (toLowerCase from) upd (binario s)) \/
         (find (es_wallet (toLowerCase from)) (binario s) = None /\
          exists nu, wallet nu = toLowerCase from /\ b' = binario s ++ [nu])).
  { intros H. exact (H _ eq_refl). }
  intros b'.
  assert (Hnada : binario s = b' ->
            (exists upd, forallb es_de_ledger upd = true /\
                      b' = update_first (toLowerCase from) upd (binario s)) \/
            (find (es_wallet (toLowerCase from)) (binario s) = None /\
             exists nu, wallet nu = toLowerCase from /\ b' = binario s ++ [nu])).
  { intros <-. left. exists []. split; [reflexivity | now rewrite update_first_nada]. }
  unfold crearUsuario. unfold bind at 1.
  match goal with
  | |- context [match ?m s with _ => _ end] => destruct (m s) as [[montos | e] s1] eqn:E1
  end.
  2: { assert (s1 = s) as ->.
       { revert E1. destruct (inv_registered (leerInvestor contrato (toLowerCase from))).
         - unfold bind, call, ret, throw.
           destruct (methods.verListaDepositos contrato (toLowerCase from));
             now intros [= _ <-].
         - intros [=]. }
       exact Hnada. }
  assert (s1 = s) as ->.
  { revert E1. destruct (inv_registered (leerInvestor contrato (toLowerCase from))).
    - unfold bind, call, ret, throw.
      destruct (methods.verListaDepositos contrato (toLowerCase from)); now intros [= _ <-].
    - now intros [= _ <-]. }
  unfold bind at 1, findOne at 1.
  destruct (find (es_wallet (toLowerCase from)) (binario s)) as [d |] eqn:F.
  - unfold bind, updateOne, findOne. cbn [snd binario]. intros <-.
    left. eexists. split; [| reflexivity]. reflexivity.
  - unfold bind at 1.
    match goal with
    | |- context [match ?m s with _ => _ end] => destruct (m s) as [[nu | e] s2] eqn:E2
    end.
    + assert (s2 = s /\ wallet nu = toLowerCase from) as [-> Hw].
      { revert E2. destruct (inv_registered (leerInvestor contrato (toLowerCase from))).
        - unfold bind, call, ret, throw.
          destruct (methods.addressToId contrato (toLowerCase from)); [| discriminate].
          destruct (methods.upline contrato (toLowerCase from)); [| discriminate].
          intros [= <- <-]. auto.
        - intros [= <- <-]. auto. }
      unfold bind, findOne. rewrite F. cbn [save ret snd binario]. intros <-.
      right. split; [reflexivity |]. exists nu. auto.
    + assert (s2 = s) as ->.
      { revert E2. destruct (inv_registered (leerInvestor contrato (toLowerCase from))).
        - unfold bind, call, ret, throw.
          destruct (methods.addressToId contrato (toLowerCase from)); [| now intros [= _ <-]].
          destruct (methods.upline contrato (toLowerCase from)); now intros [= _ <-].
        - intros [=]. }
      exact Hnada.
Qed.

Lemma update_first_ausente (w : string) (upd : Update) (b : list Binario) :
  find (es_wallet w) b = None -> update_first w upd b = b.
Proof.
  induction b as [| x b IH]; cbn [find update_first]; [reflexivity |].
  destruct (es_wallet w x); [discriminate |]. intros H. f_equal. auto.
Qed.

Lemma find_app_viejo (w : string) (b : list Binario) (x d : Binario) :
  find (es_wallet w) b = Some d -> find (es_wallet w) (b ++ [x]) = Some d.
Proof.
  intros F. induction b as [| y b IH]; cbn [find app] in *; [discriminate |].
  destruct (es_wallet w y); auto.
Qed.

(** X21.  [conectarUpline] answers [false] and writes nothing for an address
    without a document, and for one whose [upline] call the ledger rejects. *)
Theorem connect_needs_document_and_ledger
    (contrato : methods.Contrato) (from : string) (s : Estado) :
  find (es_wallet (toLowerCase from)) (binario s) = None \/
  methods.upline contrato (toLowerCase from) = None ->
  conectarUpline contrato from s = (Ok false, s).
Proof.
  unfold conectarUpline, bind, findOne, ret.
  destruct (find (es_wallet (toLowerCase from)) (binario s)); [| reflexivity].
  destruct (methods.upline contrato (toLowerCase from)); [| reflexivity].
  intros [H | H]; discriminate.
Qed.

Lemma connect_needs_document_and_ledger_witness :
  conectarUpline libro "0xZZ" estadoCuenta = (Ok false, estadoCuenta).
Proof.
  exact (connect_needs_document_and_ledger libro "0xZZ" estadoCuenta (or_introl eq_refl)).
Defined.

(** X22.  [conectarUpline] moves no account that is placed.  For an account
    whose document has an upline other than itself, or has no referer and no
    upline, it changes no document's place in the tree and no document's
    points, whatever the ledger answers. *)
Theorem placed_account_is_not_moved
    (contrato : methods.Contrato) (from : string) (s : Estado) (d0 : Binario) :
  find (es_wallet (toLowerCase from)) (binario s) = Some d0 ->
  referer d0 = WalletVacia \/ up d0 <> WalletVacia ->
  up d0 <> wallet d0 ->
  extiende (binario s) (binario (snd (conectarUpline contrato from s))).
Proof.
  intros F0 Hpl Hself. unfold conectarUpline.
  unfold bind at 1, findOne at 1. rewrite F0.
  destruct (methods.upline contrato (toLowerCase from)) as [consulta |];
    [| apply extiende_refl].
  assert (Hc : andb (negb (String.eqb (referer d0) WalletVacia))
                    (String.eqb (up d0) WalletVacia) = false).
  { destruct Hpl as [-> | H].
    - now rewrite String.eqb_refl.
    - apply String.eqb_neq in H. rewrite H. apply andb_false_r. }
  rewrite Hc.
  apply String.eqb_neq in Hself. rewrite Hself.
  match goal with
  | |- extiende (binario s) (binario (snd (?m s))) =>
      cut (conserva extiende m); [intros Hm; apply Hm |]
  end.
  repeat (match goal with
          | |- conserva _ (bind _ (fun x => bind (updateOne _ x) _)) =>
              apply (conserva_bind_val _ extiende_trans
                       (fun a => forallb es_de_ledger a = true));
              [ intros s0 a0 s0' Hnu | | intros newUser HnewUser ]
          | |- conserva _ (updateOne _ ?a) =>
              apply conserva_updateOne_ledger; assumption
          end
          || extiende_paso
          || apply consultarUsuario0_extiende).
  destruct (negb (String.eqb (toLowerCase (fst consulta)) WalletVacia)).
  - unfold bind, ret in Hnu. injection Hnu as <- _. reflexivity.
  - injection Hnu as <- _. reflexivity.
Qed.

Lemma placed_account_is_not_moved_witness :
  extiende (binario estadoCuenta)
           (binario (snd (conectarUpline ledgerDerecha "0xAA" estadoCuenta))).
Proof.
  refine (placed_account_is_not_moved ledgerDerecha "0xAA" estadoCuenta _ eq_refl
            (or_introl eq_refl) _).
  discriminate.
Defined.

(** X23.  When the referer the ledger names has no document yet,
    [conectarUpline] answers [true] and leaves every document as it was; at
    most it has added one document, for the referer, at the end of the
    collection. *)
Theorem connect_waits_for_referer
    (contrato : methods.Contrato) (from ref : string) (hand : Z) (s : Estado)
    (d0 : Binario) :
  find (es_wallet (toLowerCase from)) (binario s) = Some d0 ->
  methods.upline contrato (toLowerCase from) = Some (ref, hand) ->
  find (es_wallet (toLowerCase ref)) (binario s) = None ->
  exists s',
    conectarUpline contrato from s = (Ok true, s') /\
    (binario s' = binario s \/
     exists nu, wallet nu = toLowerCase ref /\ binario s' = binario s ++ [nu]).
Proof.
  intros F0 Hup Fr. unfold conectarUpline.
  unfold bind at 1, findOne at 1. rewrite F0, Hup. cbn [fst snd].
  unfold bind at 1, findOne at 1. rewrite Fr.
  assert (Hfin : forall s1,
            binario s1 = binario s \/
            (exists nu, wallet nu = toLowerCase ref /\ binario s1 = binario s ++ [nu]) ->
            exists s',
              bind (findOne (toLowerCase from))
                (fun userTemp => match userTemp with
                                 | None => throw "TypeError: userTemp is null"
                                 | Some _ => ret true
                                 end) s1 = (Ok true, s') /\
              (binario s' = binario s \/
               exists nu, wallet nu = toLowerCase ref /\ binario s' = binario s ++ [nu])).
  { intros s1 H. exists s1. split; [| exact H].
    unfold bind, findOne, ret.
    destruct H as [-> | (nu & _ & ->)]; [now rewrite F0 |].
    now rewrite (find_app_viejo _ _ _ _ F0). }
  destruct (String.eqb_spec (toLowerCase ref) WalletVacia) as [E | Hne]; cbn [negb].
  - rewrite (bind_bind_ok _ _ _ s s tt) by reflexivity.
    rewrite (bind_ok (ret true) _ _ _ true) by reflexivity.
    apply Hfin. now left.
  - rewrite (bind_bind_ok _ _ _ s
               (snd (consultarUsuario0 contrato (toLowerCase ref) true true s)) tt)
      by reflexivity.
    rewrite (bind_ok (ret true) _ _ _ true) by reflexivity.
    apply Hfin.
    assert (Hz : toLowerCase (toLowerCase ref)
                 <> "0x0000000000000000000000000000000000000000"%string).
    { now rewrite toLowerCase_idem. }
    rewrite (consultarUsuario0_run contrato (toLowerCase ref) true true s Hz).
    rewrite actualizarUsuario_run, !toLowerCase_idem, Fr, Fr.
    destruct (crearUsuario_forma contrato (toLowerCase ref) s)
      as [(upd & _ & H) | (_ & nu & Hw & H)];
      rewrite toLowerCase_idem in *.
    + left. rewrite (update_first_ausente _ upd _ Fr) in H.
      destruct (crearUsuario contrato (toLowerCase ref) s) as [[r0 | e] s2];
        cbn [snd binario] in *; exact H.
    + right. exists nu. split; [assumption |].
      destruct (crearUsuario contrato (toLowerCase ref) s) as [[r0 | e] s2];
        cbn [snd binario] in *; exact H.
Qed.

Lemma connect_waits_for_referer_witness :
  exists s',
    conectarUpline ledgerDerecha "0xAA" estadoCuenta = (Ok true, s') /\
    (binario s' = binario estadoCuenta \/
     exists nu, wallet nu = toLowerCase "0xrr" /\ binario s' = binario estadoCuenta ++ [nu]).
Proof.
  exact (connect_waits_for_referer ledgerDerecha "0xAA" "0xrr" 1 estadoCuenta _
           eq_refl eq_refl eq_refl).
Defined.

(** ** What the whole engine keeps *)

Lemma ledger_sin_reclamo (upd : Update) :
  forallb es_de_ledger upd = true -> forallb es_sin_reclamo upd = true.
Proof.
  induction upd as [| c upd IH]; cbn [forallb]; [reflexivity |].
  intros H. apply andb_prop in H. destruct H as [Hc Hupd].
  rewrite (IH Hupd), andb_true_r. now destruct c.
Qed.

Lemma puntos_sin_reclamo (upd : Update) :
  forallb es_de_puntos upd = true -> forallb es_sin_reclamo upd = true.
Proof.
  induction upd as [| c upd IH]; cbn [forallb]; [reflexivity |].
  intros H. apply andb_prop in H. destruct H as [Hc Hupd].
  rewrite (IH Hupd), andb_true_r. now destruct c.
Qed.

Section Barrido.

Variable contrato : methods.Contrato.
Variable R : list Binario -> list Binario -> Prop.
Hypothesis R_refl : forall b, R b b.
Hypothesis R_trans : forall b1 b2 b3, R b1 b2 -> R b2 b3 -> R b1 b3.
Hypothesis R_upd : forall w upd b,
  forallb es_sin_reclamo upd = true -> R b (update_first w upd b).
Hypothesis R_nuevo : forall b nu,
  find (es_wallet (wallet nu)) b = None -> R b (b ++ [nu]).

Lemma todo_updateOne (w : string) (upd : Update) :
  forallb es_sin_reclamo upd = true -> conserva R (updateOne w upd).
Proof. intros H s. cbn [updateOne snd binario]. now apply R_upd. Qed.

Lemma todo_actualizarUsuario (from : string) : conserva R (actualizarUsuario contrato from).
Proof.
  intros s. rewrite actualizarUsuario_run.
  destruct (find (es_wallet (toLowerCase from)) (binario s)) as [u |]; [| apply R_refl].
  destruct (cambiosDe contrato (toLowerCase from) u) as [upd |] eqn:E; [| apply R_refl].
  cbn [snd binario]. apply R_upd, ledger_sin_reclamo.
  eapply cambiosDe_ledger; eassumption.
Qed.

Lemma todo_crearUsuario (from : string) : conserva R (crearUsuario contrato from).
Proof.
  intros s.
  destruct (crearUsuario_forma contrato from s) as [(upd & Hupd & ->) | (F & nu & Hw & ->)].
  - now apply R_upd, ledger_sin_reclamo.
  - apply R_nuevo. now rewrite Hw.
Qed.

Ltac todo_paso := conserva_paso R_refl R_trans.

Lemma todo_consultarUsuario0 (from : string) (ag upd : bool) :
  conserva R (consultarUsuario0 contrato from ag upd).
Proof.
  unfold consultarUsuario0.
  repeat (todo_paso || apply todo_actualizarUsuario || apply todo_crearUsuario).
Qed.

Lemma todo_ubicar (l : Lado) (fuel : nat) (from buscando : string) (lista : list string) :
  conserva R (ubicar contrato l fuel from buscando lista).
Proof.
  revert buscando lista.
  induction fuel as [| fuel IH]; intros buscando lista; cbn [ubicar].
  - apply (conserva_throw _ R_refl).
  - repeat (todo_paso
            || apply todo_consultarUsuario0
            || apply IH
            || (apply todo_updateOne; now destruct l)).
Qed.

Lemma todo_soltarOtros (l : Lado) (ubication : list Binario) (index ganador : nat)
    (wganador : string) :
  conserva R (soltarOtros l ubication index ganador wganador).
Proof.
  revert index. induction ubication as [| x r IH]; intros index; cbn [soltarOtros].
  - apply (conserva_ret _ R_refl).
  - repeat (todo_paso || apply IH || (apply todo_updateOne; now destruct l)).
Qed.

Lemma todo_soltarAdversos (l : Lado) (adverso : list Binario) :
  conserva R (soltarAdversos l adverso).
Proof.
  induction adverso as [| x r IH]; cbn [soltarAdversos].
  - apply (conserva_ret _ R_refl).
  - repeat (todo_paso || apply IH || (apply todo_updateOne; now destruct l)).
Qed.

Lemma todo_conectarLado (l : Lado) (from referer_ : string) (userTemp : Binario) :
  conserva R (conectarLado contrato l from referer_ userTemp).
Proof.
  unfold conectarLado.
  repeat (todo_paso
          || apply todo_ubicar || apply todo_soltarOtros || apply todo_soltarAdversos
          || (apply todo_updateOne; reflexivity)).
Qed.

Lemma todo_conectarUpline (from : string) : conserva R (conectarUpline contrato from).
Proof.
  unfold conectarUpline.
  repeat (match goal with
          | |- conserva _ (bind _ (fun x => bind (updateOne _ x) _)) =>
              apply (conserva_bind_val _ R_trans
                       (fun a => forallb es_sin_reclamo a = true));
              [ intros s0 a0 s0' Hnu | | intros newUser HnewUser ]
          | |- conserva _ (updateOne _ ?a) =>
              apply todo_updateOne; assumption
          end
          || todo_paso
          || apply todo_conectarLado || apply todo_consultarUsuario0).
  match goal with
  | H : (if ?c then _ else _) _ = _ |- _ => destruct c
  end.
  - unfold bind, ret in Hnu.
    match goal with
    | H : match ?x with _ => _ end = _ |- _ => destruct x as [[? | ?] ?]
    end; [| discriminate].
    injection Hnu as <- _.
    match goal with |- context [if ?c then _ else _] => destruct c end; reflexivity.
  - injection Hnu as <- _. reflexivity.
Qed.

Lemma todo_consultarUsuario (from : string) (ag upd con : bool) :
  conserva R (consultarUsuario contrato from ag upd con).
Proof.
  unfold consultarUsuario.
  repeat (todo_paso || apply todo_consultarUsuario0 || apply todo_conectarUpline).
Qed.

Lemma todo_agregarLado (l : Lado) (u : Binario) : conserva R (agregarLado contrato l u).
Proof.
  unfold agregarLado.
  repeat (todo_paso || apply todo_consultarUsuario).
Qed.

Lemma todo_binariV2 (w : string) : conserva R (binariV2 contrato w).
Proof.
  unfold binariV2.
  repeat (match goal with
          | |- conserva _ (bind _ (fun x => bind (updateOne _ x) _)) =>
              apply (conserva_bind_val _ R_trans
                       (fun a => forallb es_sin_reclamo a = true));
              [ intros s0 a0 s0' Hnu | | intros newUser HnewUser ]
          | |- conserva _ (updateOne _ ?a) =>
              apply todo_updateOne; solve [assumption | reflexivity]
          end
          || todo_paso
          || apply todo_agregarLado || apply todo_consultarUsuario).
  match goal with
  | H : (match ?x with _ => _ end) _ = _ |- _ => destruct x as [u |]
  end.
  - unfold bind at 1 in Hnu.
    destruct (agregarLado contrato izquierda u s0) as [[izq | e] s1] eqn:E1; [| discriminate].
    unfold bind at 1 in Hnu.
    destruct (agregarLado contrato derecha u s1) as [[der | e] s2] eqn:E2; [| discriminate].
    injection Hnu as <- _.
    destruct (agregarLado_forma contrato _ _ _ _ _ E1) as [Fi _].
    destruct (agregarLado_forma contrato _ _ _ _ _ E2) as [Fd _].
    apply puntos_sin_reclamo.
    rewrite forallb_app, (forma_de_puntos _ _ _ Fi), (forma_de_puntos _ _ _ Fd).
    reflexivity.
  - unfold bind, sin_await, ret in Hnu. injection Hnu as <- _. reflexivity.
Qed.

Lemma todo_recorrer (lista2 : list Binario) : conserva R (recorrer contrato lista2).
Proof.
  induction lista2 as [| u r IH]; cbn [recorrer].
  - apply (conserva_ret _ R_refl).
  - repeat (todo_paso || apply todo_conectarUpline || apply todo_binariV2 || apply IH).
Qed.

Lemma todo_escalarRedV2 : conserva R (escalarRedV2 contrato).
Proof.
  unfold escalarRedV2. repeat (todo_paso || apply todo_recorrer).
Qed.

End Barrido.

Section BarridoLectura.

Variable contrato : methods.Contrato.
Variable R : list Binario -> list Binario -> Prop.
Hypothesis R_refl : forall b, R b b.
Hypothesis R_trans : forall b1 b2 b3, R b1 b2 -> R b2 b3 -> R b1 b3.
Hypothesis R_upd : forall w upd b,
  forallb es_sin_reclamo upd = true -> R b (update_first w upd b).
Hypothesis R_nuevo : forall b nu,
  find (es_wallet (wallet nu)) b = None -> R b (b ++ [nu]).

Lemma todo_lecturaBinari (w : string) : conserva R (lecturaBinari contrato w).
Proof.
  unfold lecturaBinari.
  repeat (conserva_paso R_refl R_trans
          || (apply todo_consultarUsuario; assumption)).
Qed.

End BarridoLectura.

(** *** Documents stay in place, one to a wallet *)

Lemma map_wallet_update_first (w : string) (upd : Update) (b : list Binario) :
  map wallet (update_first w upd b) = map wallet b.
Proof.
  induction b as [| x b IH]; cbn [update_first map]; [reflexivity |].
  destruct (es_wallet w x); cbn [map]; [now rewrite wallet_aplicar | now rewrite IH].
Qed.

Lemma find_none_not_in (w : string) (b : list Binario) :
  find (es_wallet w) b = None -> ~ In w (map wallet b).
Proof.
  induction b as [| x b IH]; cbn [find map]; [intros _ [] |].
  unfold es_wallet at 1. destruct (String.eqb_spec (wallet x) w) as [E | E]; [discriminate |].
  intros F [H | H]; [contradiction | now apply IH].
Qed.

Lemma crece_refl (b : list Binario) : crece b b.
Proof. split; [exists []; now rewrite app_nil_r | auto]. Qed.

Lemma crece_trans (b1 b2 b3 : list Binario) : crece b1 b2 -> crece b2 b3 -> crece b1 b3.
Proof.
  intros [(n1 & E1) H1] [(n2 & E2) H2]. split; [| auto].
  exists (n1 ++ n2). now rewrite E2, E1, app_assoc.
Qed.

Lemma crece_upd (w : string) (upd : Update) (b : list Binario) :
  crece b (update_first w upd b).
Proof.
  unfold crece. rewrite map_wallet_update_first.
  split; [exists []; now rewrite app_nil_r | auto].
Qed.

Lemma crece_nuevo (b : list Binario) (nu : Binario) :
  find (es_wallet (wallet nu)) b = None -> crece b (b ++ [nu]).
Proof.
  intros F. unfold crece. rewrite map_app. cbn [map].
  split; [now exists [wallet nu] |].
  intros Hnd. apply NoDup_app; [assumption | repeat constructor; intros [] |].
  intros x Hx [<- | []]. now apply (find_none_not_in _ _ F).
Qed.

(** X24.  Documents stay in place, one to a wallet.  Whatever a lookup, a
    reading, a settlement, a placement, an aggregation or the whole sweep of
    the network does and answers, the collection keeps its documents in their
    order, each under its wallet, new ones coming after them; and if no wallet
    had two documents before, none has two afterwards. *)
Theorem engine_keeps_documents_in_place (contrato : methods.Contrato) (s : Estado) :
  (forall from ag upd con,
     crece (binario s) (binario (snd (consultarUsuario contrato from ag upd con s)))) /\
  (forall w, crece (binario s) (binario (snd (lecturaBinari contrato w s)))) /\
  (forall w, crece (binario s) (binario (snd (hacerTakeProfit contrato w s)))) /\
  (forall from, crece (binario s) (binario (snd (conectarUpline contrato from s)))) /\
  (forall w, crece (binario s) (binario (snd (binariV2 contrato w s)))) /\
  crece (binario s) (binario (snd (escalarRedV2 contrato s))).
Proof.
  pose proof (fun w upd b (_ : forallb es_sin_reclamo upd = true) => crece_upd w upd b)
    as Hupd.
  split; [| split; [| split; [| split; [| split]]]].
  - intros from ag upd con.
    apply (todo_consultarUsuario contrato crece crece_refl crece_trans Hupd crece_nuevo).
  - intros w.
    apply (todo_lecturaBinari contrato crece crece_refl crece_trans Hupd crece_nuevo).
  - intros w. rewrite hacerTakeProfit_lower.
    destruct (hacerTakeProfit_estado contrato (toLowerCase w) s (toLowerCase_idem w))
      as [-> | (u & _ & ->)]; [apply crece_refl | apply crece_upd].
  - intros from.
    apply (todo_conectarUpline contrato crece crece_refl crece_trans Hupd crece_nuevo).
  - intros w.
    apply (todo_binariV2 contrato crece crece_refl crece_trans Hupd crece_nuevo).
  - apply (todo_escalarRedV2 contrato crece crece_refl crece_trans Hupd crece_nuevo).
Qed.

(** *** Only a settlement writes the claimed points *)

Lemma saldo_setCampo (c : Campo) (d : Binario) :
  es_sin_reclamo c = true -> saldo (setCampo c d) = saldo d.
Proof. destruct c, d; cbn; intros H; try discriminate H; reflexivity. Qed.

Lemma saldo_aplicar (upd : Update) (d : Binario) :
  forallb es_sin_reclamo upd = true -> saldo (aplicar upd d) = saldo d.
Proof.
  unfold aplicar. revert d.
  induction upd as [| c upd IH]; intros d H; cbn [fold_left]; [reflexivity |].
  cbn [forallb] in H. apply andb_prop in H. destruct H as [Hc Hupd].
  rewrite IH by assumption. now apply saldo_setCampo.
Qed.

Lemma guarda_refl (b : list Binario) : guarda b b.
Proof. intros y d H. exists d. auto. Qed.

Lemma guarda_trans (b1 b2 b3 : list Binario) : guarda b1 b2 -> guarda b2 b3 -> guarda b1 b3.
Proof.
  intros H12 H23 y d H.
  destruct (H12 y d H) as (d2 & F2 & S2). destruct (H23 y d2 F2) as (d3 & F3 & S3).
  exists d3. split; [assumption | congruence].
Qed.

Lemma guarda_upd (w : string) (upd : Update) (b : list Binario) :
  forallb es_sin_reclamo upd = true -> guarda b (update_first w upd b).
Proof.
  intros Hupd y d H.
  destruct (String.eqb_spec w y) as [-> | Hne].
  - exists (aplicar upd d). split; [now apply find_update_first | now apply saldo_aplicar].
  - exists d. split; [now rewrite find_update_first_otro | reflexivity].
Qed.

Lemma guarda_nuevo (b : list Binario) (nu : Binario) :
  find (es_wallet (wallet nu)) b = None -> guarda b (b ++ [nu]).
Proof. intros _ y d H. exists d. split; [now apply find_app_viejo | reflexivity]. Qed.

(** X25.  Only a settlement writes the claimed points.  A lookup with any
    flags, a reading, a placement, an aggregation and the whole sweep of the
    network, whatever they answer, leave every document in the collection
    with the claimed and the extra points it had, on both legs. *)
Theorem only_settlement_writes_claimed
    (contrato : methods.Contrato) (s : Estado) (y : string) (d : Binario) :
  find (es_wallet y) (binario s) = Some d ->
  (exists d', find (es_wallet y) (binario (snd (escalarRedV2 contrato s))) = Some d' /\
              saldo d' = saldo d) /\
  (forall from ag upd con,
     exists d', find (es_wallet y)
                  (binario (snd (consultarUsuario contrato from ag upd con s))) = Some d' /\
                saldo d' = saldo d) /\
  (forall w,
     exists d', find (es_wallet y) (binario (snd (lecturaBinari contrato w s))) = Some d' /\
                saldo d' = saldo d) /\
  (forall from,
     exists d', find (es_wallet y) (binario (snd (conectarUpline contrato from s))) = Some d' /\
                saldo d' = saldo d) /\
  (forall w,
     exists d', find (es_wallet y) (binario (snd (binariV2 contrato w s))) = Some d' /\
                saldo d' = saldo d).
Proof.
  intros F. split; [| split; [| split; [| split]]].
  - exact (todo_escalarRedV2 contrato guarda guarda_refl guarda_trans guarda_upd guarda_nuevo
             s y d F).
  - intros from ag upd con.
    exact (todo_consultarUsuario contrato guarda guarda_refl guarda_trans guarda_upd
             guarda_nuevo from ag upd con s y d F).
  - intros w.
    exact (todo_lecturaBinari contrato guarda guarda_refl guarda_trans guarda_upd
             guarda_nuevo w s y d F).
  - intros from.
    exact (todo_conectarUpline contrato guarda guarda_refl guarda_trans guarda_upd
             guarda_nuevo from s y d F).
  - intros w.
    exact (todo_binariV2 contrato guarda guarda_refl guarda_trans guarda_upd
             guarda_nuevo w s y d F).
Qed.

Lemma only_settlement_writes_claimed_witness :
  exists d',
    find (es_wallet "0xpp") (binario (snd (escalarRedV2 ledgerIzquierda estadoAdverso)))
      = Some d' /\
    saldo d' = (500, 0, 500, 0).
Proof.
  exact (proj1 (only_settlement_writes_claimed ledgerIzquierda estadoAdverso "0xpp" _
                  eq_refl)).
Defined.

(** *** The walk ends within its bound *)

Lemma nunca_ret {A} (a : A) : nunca_agotado (ret a).
Proof. intros s e s'. discriminate. Qed.

Lemma nunca_throw {A} (e : string) : e <> "fuel"%string -> nunca_agotado (@throw A e).
Proof. intros H s e0 s'. unfold throw. now intros [= <- _]. Qed.

Lemma nunca_call {A} (r : option A) : nunca_agotado (call r).
Proof. destruct r; [apply nunca_ret | apply nunca_throw; discriminate]. Qed.

Lemma nunca_bind {A B} (m : M A) (k : A -> M B) :
  nunca_agotado m -> (forall a, nunca_agotado (k a)) -> nunca_agotado (bind m k).
Proof.
  intros Hm Hk s e s'. unfold bind. specialize (Hm s).
  destruct (m s) as [[a | e0] s1].
  - apply Hk.
  - intros [= <- <-]. now apply (Hm e0 s1).
Qed.

Lemma nunca_sin_await {A} (m : M A) : nunca_agotado (sin_await m).
Proof. intros s e s'. discriminate. Qed.

Lemma nunca_findOne (w : string) : nunca_agotado (findOne w).
Proof. intros s e s'. discriminate. Qed.

Lemma nunca_find_por (campo : Binario -> string) (w : string) :
  nunca_agotado (find_por campo w).
Proof. intros s e s'. discriminate. Qed.

Lemma nunca_get_binario : nunca_agotado get_binario.
Proof. intros s e s'. discriminate. Qed.

Lemma nunca_set_indexado (w : string) (u : option Binario) :
  nunca_agotado (set_indexado w u).
Proof. intros s e s'. discriminate. Qed.

Lemma nunca_updateOne (w : string) (upd : Update) : nunca_agotado (updateOne w upd).
Proof. intros s e s'. discriminate. Qed.

Lemma nunca_save (u : Binario) : nunca_agotado (save u).
Proof. intros s e s'. discriminate. Qed.

Ltac nunca_paso :=
  match goal with
  | |- nunca_agotado (bind _ _) => apply nunca_bind; [| intros ?]
  | |- nunca_agotado (ret _) => apply nunca_ret
  | |- nunca_agotado (throw _) => apply nunca_throw; discriminate
  | |- nunca_agotado (call _) => apply nunca_call
  | |- nunca_agotado (findOne _) => apply nunca_findOne
  | |- nunca_agotado (find_por _ _) => apply nunca_find_por
  | |- nunca_agotado get_binario => apply nunca_get_binario
  | |- nunca_agotado (set_indexado _ _) => apply nunca_set_indexado
  | |- nunca_agotado (updateOne _ _) => apply nunca_updateOne
  | |- nunca_agotado (save _) => apply nunca_save
  | |- nunca_agotado (sin_await _) => apply nunca_sin_await
  | |- nunca_agotado (if ?c then _ else _) => destruct c
  | |- nunca_agotado (match ?x with _ => _ end) => destruct x
  end.

Section Agotado.

Variable contrato : methods.Contrato.

Lemma nunca_actualizarUsuario (from : string) :
  nunca_agotado (actualizarUsuario contrato from).
Proof. unfold actualizarUsuario. repeat nunca_paso. Qed.

Lemma nunca_crearUsuario (from : string) : nunca_agotado (crearUsuario contrato from).
Proof. unfold crearUsuario. repeat nunca_paso. Qed.

Lemma nunca_consultarUsuario0 (from : string) (ag upd : bool) :
  nunca_agotado (consultarUsuario0 contrato from ag upd).
Proof.
  unfold consultarUsuario0.
  repeat (nunca_paso || apply nunca_actualizarUsuario || apply nunca_crearUsuario).
Qed.

Lemma nunca_conectarLado (l : Lado) (from referer_ : string) (userTemp : Binario) :
  nunca_agotado (conectarLado contrato l from referer_ userTemp).
Proof. intros s e s'. apply conectarLado_fuel. Qed.

Lemma nunca_conectarUpline (from : string) : nunca_agotado (conectarUpline contrato from).
Proof.
  unfold conectarUpline.
  repeat (nunca_paso || apply nunca_conectarLado || apply nunca_consultarUsuario0).
Qed.

Lemma nunca_consultarUsuario (from : string) (ag upd con : bool) :
  nunca_agotado (consultarUsuario contrato from ag upd con).
Proof.
  unfold consultarUsuario.
  repeat (nunca_paso || apply nunca_consultarUsuario0 || apply nunca_conectarUpline).
Qed.

Lemma nunca_agregarLado (l : Lado) (u : Binario) : nunca_agotado (agregarLado contrato l u).
Proof. unfold agregarLado. repeat (nunca_paso || apply nunca_consultarUsuario). Qed.

Lemma nunca_binariV2 (w : string) : nunca_agotado (binariV2 contrato w).
Proof. unfold binariV2. repeat (nunca_paso || apply nunca_agregarLado). Qed.

Lemma nunca_recorrer (lista2 : list Binario) : nunca_agotado (recorrer contrato lista2).
Proof.
  induction lista2 as [| u r IH]; cbn [recorrer].
  - apply nunca_ret.
  - repeat (nunca_paso || apply nunca_conectarUpline || apply nunca_binariV2 || apply IH).
Qed.

End Agotado.

(** X26.  The walk down a side ends.  The [while] loop of [conectarUpline]
    puts one more wallet of the collection on [lista] at each further turn
    and stops at a wallet it has seen, so it takes at most one turn per
    document and one more: the bound of that many steps is never reached,
    whatever the collection and the ledger are, in a placement, in a lookup
    that places, in an aggregation and in the whole sweep of the network. *)
Theorem placement_walk_ends (contrato : methods.Contrato) :
  (forall from, nunca_agotado (conectarUpline contrato from)) /\
  (forall from ag upd con, nunca_agotado (consultarUsuario contrato from ag upd con)) /\
  (forall w, nunca_agotado (binariV2 contrato w)) /\
  nunca_agotado (escalarRedV2 contrato).
Proof.
  split; [exact (nunca_conectarUpline contrato) |].
  split; [exact (nunca_consultarUsuario contrato) |].
  split; [exact (nunca_binariV2 contrato) |].
  unfold escalarRedV2. apply nunca_bind; [apply nunca_get_binario |].
  intros todos. apply nunca_recorrer.
Qed.

(** *** Addresses are compared in lower case *)

(** X27.  The functions of the engine that take an address read it in lower
    case only: two spellings of one address give the same answer and the same
    state. *)
Theorem entry_points_ignore_case (contrato : methods.Contrato) (w w' : string) :
  toLowerCase w = toLowerCase w' ->
  (forall ag upd con s,
     consultarUsuario contrato w ag upd con s = consultarUsuario contrato w' ag upd con s) /\
  (forall s, crearUsuario contrato w s = crearUsuario contrato w' s) /\
  (forall s, actualizarUsuario contrato w s = actualizarUsuario contrato w' s) /\
  (forall s, conectarUpline contrato w s = conectarUpline contrato w' s) /\
  (forall s, binariV2 contrato w s = binariV2 contrato w' s) /\
  (forall s, hacerTakeProfit contrato w s = hacerTakeProfit contrato w' s).
Proof.
  intros H.
  split; [| split; [| split; [| split; [| split]]]]; intros.
  - unfold consultarUsuario, consultarUsuario0. now rewrite H.
  - unfold crearUsuario. now rewrite H.
  - unfold actualizarUsuario. now rewrite H.
  - unfold conectarUpline. now rewrite H.
  - unfold binariV2. now rewrite H.
  - unfold hacerTakeProfit. now rewrite H.
Qed.

Lemma entry_points_ignore_case_witness :
  hacerTakeProfit libro "0xAA" estadoCuenta = hacerTakeProfit libro "0xaa" estadoCuenta.
Proof.
  exact (proj2 (proj2 (proj2 (proj2 (proj2
           (entry_points_ignore_case libro "0xAA" "0xaa" eq_refl))))) estadoCuenta).
Defined.

(** ** A slot that names a wallet without a document *)

Lemma bind_throw {A B} (m : M A) (k : A -> M B) (s s1 : Estado) (e : string) :
  m s = (Throw e, s1) -> bind m k s = (Throw e, s1).
Proof. intros H. unfold bind. now rewrite H. Qed.

(** The walk from a document whose slot names a wallet without a document:
    on the left it throws, on the right it looks the wallet up and stops. *)
Lemma ubicar_sin_documento (contrato : methods.Contrato) (l : Lado) (fuel : nat)
    (from n m : string) (s : Estado) (dr : Binario) :
  find (es_wallet n) (binario s) = Some dr ->
  hijo l dr = m -> m <> WalletVacia -> m <> from ->
  find (es_wallet m) (binario s) = None ->
  ubicar contrato l (S (S fuel)) from n [] s =
  match l with
  | izquierda => (Throw "TypeError: userRef is null", s)
  | derecha => (Ok 4, snd (consultarUsuario0 contrato m false false s))
  end.
Proof.
  intros F H Hm Hmf Fm.
  cbn [ubicar]. unfold bind at 1, findOne at 1. rewrite F, H.
  destruct (String.eqb_spec m from) as [E | _]; [contradiction |].
  destruct (String.eqb_spec m WalletVacia) as [E | _]; [contradiction |].
  cbn [andb existsb negb].
  unfold bind at 1, findOne at 1. rewrite Fm.
  destruct l; reflexivity.
Qed.

(** [conectarUpline] on an account with a referer and no upline yet, whose
    ledger referer has a document, when the side the ledger names throws. *)
Lemma conectarUpline_lado_throw (contrato : methods.Contrato) (l : Lado) (from ref : string)
    (hand : Z) (s s2 : Estado) (d0 dr : Binario) (e : string) :
  toLowerCase from = from ->
  from <> WalletVacia ->
  find (es_wallet from) (binario s) = Some d0 ->
  referer d0 <> WalletVacia ->
  up d0 = WalletVacia ->
  methods.upline contrato from = Some (ref, hand) ->
  hand = match l with izquierda => 0 | derecha => 1 end ->
  toLowerCase ref <> WalletVacia ->
  find (es_wallet (toLowerCase ref)) (binario s) = Some dr ->
  conectarLado contrato l from (toLowerCase ref) d0 s = (Throw e, s2) ->
  conectarUpline contrato from s = (Throw e, s2).
Proof.
  intros Hlow Hfrom F0 Hr Hu Hup Hh Hrf Fr E2.
  unfold conectarUpline. rewrite Hlow.
  unfold bind at 1, findOne at 1. rewrite F0, Hup. cbn [fst snd].
  unfold bind at 1, findOne at 1. rewrite Fr.
  destruct (String.eqb_spec (toLowerCase ref) WalletVacia) as [E | _]; [contradiction |].
  destruct (String.eqb_spec (referer d0) WalletVacia) as [E | _]; [contradiction |].
  rewrite Hu. rewrite String.eqb_refl. cbn [negb andb].
  apply bind_throw, bind_throw, bind_throw.
  subst hand. destruct l.
  - change (parseIntNumber (parseInt 0) =? 0) with true. now apply bind_throw.
  - change (parseIntNumber (parseInt 1) =? 0) with false.
    change (parseIntNumber (parseInt 1) =? 1) with true.
    unfold bind, ret. now rewrite E2.
Qed.

(** X28.  A slot that names a wallet without a document.  The account [from]
    has a document with a referer and no upline; the ledger names its referer,
    who has a document, and a side; nobody holds [from] on that side; and the
    referer's slot on that side names a wallet that has no document.  On the
    left side [conectarUpline] then throws a [TypeError], the state being as
    it was; on the right side it answers [false] and leaves [from] without
    upline. *)
Theorem walk_reaching_missing_document
    (contrato : methods.Contrato) (l : Lado) (from ref : string)
    (hand : Z) (s : Estado) (d0 dr : Binario) (m : string) :
  toLowerCase from = from ->
  from <> WalletVacia ->
  find (es_wallet from) (binario s) = Some d0 ->
  referer d0 <> WalletVacia ->
  up d0 = WalletVacia ->
  methods.upline contrato from = Some (ref, hand) ->
  hand = match l with izquierda => 0 | derecha => 1 end ->
  toLowerCase ref <> WalletVacia ->
  find (es_wallet (toLowerCase ref)) (binario s) = Some dr ->
  hijo l dr = m -> m <> WalletVacia -> m <> from ->
  find (es_wallet m) (binario s) = None ->
  filter (fun u => String.eqb (hijo l u) from) (binario s) = [] ->
  match l with
  | izquierda =>
      conectarUpline contrato from s = (Throw "TypeError: userRef is null", s)
  | derecha =>
      exists s' d',
        conectarUpline contrato from s = (Ok false, s') /\
        find (es_wallet from) (binario s') = Some d' /\
        up d' = WalletVacia
  end.
Proof.
  intros Hlow Hfrom F0 Hr Hu Hup Hh Hrf Fr Hm Hm0 Hmf Fm Hnadie.
  assert (Hfuel : exists f, S (List.length (binario s)) = S (S f)).
  { destruct (binario s); [discriminate F0 | cbn; eauto]. }
  destruct Hfuel as (f & Hfuel).
  pose proof (ubicar_sin_documento contrato l f from (toLowerCase ref) m s dr
                Fr Hm Hm0 Hmf Fm) as Hwalk.
  rewrite <- Hfuel in Hwalk.
  destruct l.
  - eapply conectarUpline_lado_throw with (l := izquierda); try eassumption.
    unfold conectarLado. unfold bind at 1, find_por at 1. rewrite Hnadie.
    apply bind_throw.
    rewrite (bind_ok _ _ s s (binario s)) by reflexivity.
    now apply bind_throw.
  - set (s1 := snd (consultarUsuario0 contrato m false false s)) in *.
    assert (E2 : exists s2,
               conectarLado contrato derecha from (toLowerCase ref) d0 s = (Ok tt, s2) /\
               mantiene derecha (binario s1) (binario s2)).
    { unfold conectarLado. unfold bind at 1, find_por at 1. rewrite Hnadie.
      rewrite (bind_bind_ok _ _ _ s s (binario s)) by reflexivity.
      rewrite (bind_bind_ok _ _ _ _ _ _ Hwalk).
      rewrite (bind_ok (ret tt) _ _ _ tt) by reflexivity.
      unfold bind, find_por.
      pose proof (soltarAdversos_ok (otro derecha)
                    (filter (fun u => String.eqb (hijo (otro derecha) u) from) (binario s1))
                    s1) as Hok.
      pose proof (soltarAdversos_mantiene derecha
                    (filter (fun u => String.eqb (hijo (otro derecha) u) from) (binario s1))
                    s1) as Hmt.
      destruct (soltarAdversos (otro derecha)
                  (filter (fun u => String.eqb (hijo (otro derecha) u) from) (binario s1)) s1)
        as [r s2].
      cbn [fst snd] in *. subst r. exists s2. split; [reflexivity | exact Hmt]. }
    destruct E2 as (s2 & E2 & M2).
    destruct (consultarUsuario0_extiende contrato m false false s from d0 F0)
      as (d1 & F1 & N1).
    fold s1 in F1.
    destruct (M2 from d1 F1) as (d2 & F2 & U2 & _).
    destruct (conectarUpline_tras_lado contrato derecha from ref hand s s2 d0 dr d2
                Hlow Hfrom F0 Hr Hu Hup Hh Hrf Fr E2 F2) as (ix & ->).
    eexists. exists (aplicar [c_referer (toLowerCase ref)] d2).
    split; [reflexivity |]. cbn [binario].
    split; [now apply find_update_first |].
    rewrite (proj1 (ajeno_aplicar derecha [c_referer (toLowerCase ref)] d2 eq_refl)), U2.
    unfold nucleo in N1. injection N1; intros. congruence.
Qed.

Lemma walk_reaching_missing_document_witness :
  conectarUpline ledgerIzquierda "0xaa" estadoRoto
  = (Throw "TypeError: userRef is null", estadoRoto).
Proof.
  refine (walk_reaching_missing_document ledgerIzquierda izquierda "0xaa" "0xrr" 0
            estadoRoto _ _ "0xmm" eq_refl _ eq_refl _ eq_refl eq_refl eq_refl _
            eq_refl eq_refl _ _ eq_refl eq_refl); discriminate.
Defined.
